(** * mcp-use (TypeScript): connection lifecycle, connectors, client registry
      and server manager, embedded in Rocq.

    Conventions of the embedding.
    - JavaScript records used as dictionaries ([sessions], [serverTools],
      [initializedServers]) are finite maps keyed by strings.  The server map
      [config.mcpServers] is an association list of its own properties in
      creation order; [Object.keys] lists the integer-like names first, in
      ascending order, and a property read [servers[name]] also finds the
      members inherited from [Object.prototype].  The [Map] of pending
      requests is an association list in insertion order.
    - Asynchronous methods are functions in a state-and-exception monad that
      also collects the logger output.  Every external effect (a remote
      handshake, a tool listing, a socket close) is an explicit argument that
      tells how the awaited call settles: it fulfils or it rejects; the
      [disconnect()] of a session may also stay pending, and the call that
      awaits it then never returns.
    - A thrown value is an [Error] object or any other JavaScript value,
      [null] and [undefined] included.
    - [ConnectionManager], whose own promises may stay pending, is a
      transition system: one step is one external event (a call of [start()]
      or [stop()], the settlement of a subclass hook) together with the
      synchronous code and the microtasks that it triggers. *)

From Stdlib Require Import ZArith Lia Ascii String.
From stdpp Require Import base option list strings gmap pretty sorting.

Local Open Scope string_scope.
Local Open Scope list_scope.

(* ===================================================================== *)
(** ** JavaScript values, errors and template strings                      *)
(* ===================================================================== *)

Module Js.

(** The values that occur in a server configuration object. *)
Inductive JsValue : Type :=
| JUndefined
| JNull
| JBool (b : bool)
| JNum (z : Z)
| JStr (s : string)
| JArr (items : list string)
| JObj (fields : list (string * string)).

(** An object literal: own enumerable properties in insertion order. *)
Abbreviation JsObject := (list (string * JsValue)).

Definition is_empty_string (s : string) : bool :=
  match s with EmptyString => true | String _ _ => false end.

(** [ToBoolean]. *)
Definition truthy (v : JsValue) : bool :=
  match v with
  | JUndefined | JNull => false
  | JBool b => b
  | JNum z => negb (Z.eqb z 0)
  | JStr s => negb (is_empty_string s)
  | JArr _ | JObj _ => true
  end.

(** [a || b] *)
Definition js_or (a b : JsValue) : JsValue := if truthy a then a else b.

(** [a === b] for the one use in the source: comparison with a string. *)
Definition strict_eq_str (a : JsValue) (s : string) : bool :=
  match a with JStr t => bool_decide (t = s) | _ => false end.

Fixpoint has_key (k : string) (o : JsObject) : bool :=
  match o with
  | [] => false
  | (k', _) :: o' => if bool_decide (k' = k) then true else has_key k o'
  end.

(** ['k' in o] *)
Notation "k 'in?' o" := (has_key k o) (at level 70, no associativity).

(** [o.k] *)
Fixpoint get_prop (o : JsObject) (k : string) : JsValue :=
  match o with
  | [] => JUndefined
  | (k', v) :: o' => if bool_decide (k' = k) then v else get_prop o' k
  end.

(** Thrown values.  [Error name message] is an instance of [Error] (or of a
    subclass that only changes [name]); [StreamableHTTPError] is the SDK's
    subclass carrying an HTTP status [code]; [Thrown v] is any other value
    that was thrown or with which a promise was rejected. *)
Inductive JsError : Type :=
| Error (name message : string)
| StreamableHTTPError (code : option Z) (message : string)
| Thrown (v : JsValue).

Definition new_Error (message : string) : JsError := Error "Error" message.

(** [names.join(sep)] *)
Fixpoint join (sep : string) (l : list string) : string :=
  match l with
  | [] => EmptyString
  | [x] => x
  | x :: rest => x +:+ sep +:+ join sep rest
  end.

(** [String(v)], which is also what a template string makes of [v]. *)
Definition js_String (v : JsValue) : string :=
  match v with
  | JUndefined => "undefined"
  | JNull => "null"
  | JBool true => "true"
  | JBool false => "false"
  | JNum z => pretty z
  | JStr s => s
  | JArr items => join "," items
  | JObj _ => "[object Object]"
  end.

(** [ToBoolean] of a thrown value: error objects are truthy. *)
Definition error_truthy (e : JsError) : bool :=
  match e with
  | Thrown v => truthy v
  | _ => true
  end.

(** Reading a property of [null] or [undefined] throws a [TypeError]. *)
Definition is_nullish (e : JsError) : bool :=
  match e with
  | Thrown JUndefined | Thrown JNull => true
  | _ => false
  end.

(** The [TypeError] of [e.message] for a nullish [e] (the text is V8's). *)
Definition message_TypeError (e : JsError) : JsError :=
  Error "TypeError"
        ("Cannot read properties of " +:+
         match e with Thrown v => js_String v | _ => EmptyString end
         +:+ " (reading 'message')").

(** [`${e.message}`] for an [e] that is not nullish: the [message] property,
    "undefined" when the value has none. *)
Definition err_message (e : JsError) : string :=
  match e with
  | Error _ m => m
  | StreamableHTTPError _ m => m
  | Thrown (JObj fields) =>
      match list_find (fun kv => kv.1 = "message") fields with
      | Some (_, kv) => kv.2
      | None => "undefined"
      end
  | Thrown _ => "undefined"
  end.

(** [Error.prototype.toString], and [String(v)] for another thrown value. *)
Definition err_toString (e : JsError) : string :=
  match e with
  | Error n m =>
      if is_empty_string n then m
      else if is_empty_string m then n
      else n +:+ ": " +:+ m
  | StreamableHTTPError _ m =>
      if is_empty_string m then "Error" else "Error: " +:+ m
  | Thrown v => js_String v
  end.

(** [`${n}`] for an integer. *)
Definition num_toString (z : Z) : string := pretty z.

Definition opt_num_toString (c : option Z) : string :=
  match c with Some z => num_toString z | None => "undefined" end.

(** [hay.includes(needle)] *)
Fixpoint includes (hay needle : string) : bool :=
  if String.prefix needle hay then true
  else match hay with
       | EmptyString => false
       | String _ rest => includes rest needle
       end.

(** A JavaScript object or [Map] used as a dictionary: the entries are kept
    in insertion order and an update keeps the position of the key. *)
Section ObjectAsMap.
Context {V : Type}.

Fixpoint obj_get (o : list (string * V)) (k : string) : option V :=
  match o with
  | [] => None
  | (k', v) :: o' => if bool_decide (k' = k) then Some v else obj_get o' k
  end.

Fixpoint obj_set (k : string) (v : V) (o : list (string * V)) : list (string * V) :=
  match o with
  | [] => [(k, v)]
  | (k', v') :: o' =>
      if bool_decide (k' = k) then (k, v) :: o' else (k', v') :: obj_set k v o'
  end.

Definition obj_delete (k : string) (o : list (string * V)) : list (string * V) :=
  filter (fun kv => kv.1 ≠ k) o.

Definition obj_keys (o : list (string * V)) : list string := o.*1.
End ObjectAsMap.

(** *** Ordinary objects: the order of [Object.keys], inherited members *)

Definition digit_value (a : ascii) : option N :=
  let n := N_of_ascii a in
  if (48 <=? n)%N && (n <=? 57)%N then Some (n - 48)%N else None.

Fixpoint digits_value (s : string) (acc : N) : option N :=
  match s with
  | EmptyString => Some acc
  | String a rest =>
      match digit_value a with
      | Some d => digits_value rest (10 * acc + d)%N
      | None => None
      end
  end.

(** The number that a property name denotes when it is an array index: a
    canonical decimal numeral (no leading zero) below 2^32 - 1. *)
Definition array_index (s : string) : option N :=
  match s with
  | EmptyString => None
  | String a rest =>
      if bool_decide (a = "0"%char) && negb (is_empty_string rest) then None
      else
        match digits_value s 0 with
        | Some n => if (n <? 4294967295)%N then Some n else None
        | None => None
        end
  end.

Definition index_le (a b : N * string) : Prop := (a.1 <= b.1)%N.

Global Instance index_le_dec a b : Decision (index_le a b).
Proof. unfold index_le. apply _. Defined.

(** The order in which an ordinary object lists its own property names,
    given the names in creation order: first the array indices, in ascending
    numeric order, then the other names in creation order. *)
Definition own_keys_order (names : list string) : list string :=
  (merge_sort index_le (omap (fun k => (fun n => (n, k)) <$> array_index k) names)).*2
  ++ filter (fun k => array_index k = None) names.

(** [Object.keys(o)] *)
Definition js_keys {V} (o : list (string * V)) : list string :=
  own_keys_order (obj_keys o).

(** The property names every ordinary object inherits from
    [Object.prototype]; each is bound to a function, [__proto__] to the
    prototype object, so all of them are truthy. *)
Definition object_prototype_members : list string :=
  ["constructor"; "__defineGetter__"; "__defineSetter__"; "hasOwnProperty";
   "__lookupGetter__"; "__lookupSetter__"; "isPrototypeOf";
   "propertyIsEnumerable"; "toString"; "valueOf"; "__proto__"; "toLocaleString"].

(** What a property read [o[k]] finds. *)
Inductive Lookup (V : Type) : Type :=
| Own (v : V)        (* an own property *)
| Inherited          (* a member of Object.prototype *)
| Missing.           (* undefined *)
Arguments Own {V} v.
Arguments Inherited {V}.
Arguments Missing {V}.

(** [o[k]] *)
Definition js_get {V} (o : list (string * V)) (k : string) : Lookup V :=
  match obj_get o k with
  | Some v => Own v
  | None =>
      if bool_decide (k ∈ object_prototype_members) then Inherited else Missing
  end.

(** A tool descriptor: what a server lists, and what the adapter hands to
    the agent. *)
Record Tool := { tool_name : string; tool_description : string }.

Global Instance Tool_eq_dec : EqDecision Tool.
Proof. solve_decision. Defined.

(** The line feed of a template string. *)
Definition nl : string := String (ascii_of_nat 10) EmptyString.

(** Logger output. *)
Inductive Level := LError | LWarn | LInfo | LDebug.

Definition LogEntry : Type := Level * string.

Global Instance Level_eq_dec : EqDecision Level.
Proof. solve_decision. Defined.

Global Instance JsValue_eq_dec : EqDecision JsValue.
Proof. solve_decision. Defined.

Global Instance JsError_eq_dec : EqDecision JsError.
Proof. solve_decision. Defined.

End Js.

(* ===================================================================== *)
(** ** The effect monad of the asynchronous methods                        *)
(* ===================================================================== *)

Module Eff.
Import Js.

(** How a call ends: it returns a value, it throws, or it never returns
    because a promise that it awaits stays pending. *)
Inductive Res (A : Type) : Type :=
| Ok (a : A)
| Throw (e : JsError)
| Hangs.
Arguments Ok {A} a.
Arguments Throw {A} e.
Arguments Hangs {A}.

(** A computation over a mutable object of type [S]: the mutations performed
    before a throw or a suspension are kept, and the log lines are those
    emitted by the call. *)
Definition M (S A : Type) : Type := S -> Res A * S * list LogEntry.

Definition ret {S A} (a : A) : M S A := fun s => (Ok a, s, []).

Definition throw {S A} (e : JsError) : M S A := fun s => (Throw e, s, []).

(** An [await] of a promise that stays pending. *)
Definition hang {S A} : M S A := fun s => (Hangs, s, []).

Definition bind {S A B} (m : M S A) (k : A -> M S B) : M S B :=
  fun s =>
    match m s with
    | (Ok a, s1, l1) =>
        match k a s1 with (r, s2, l2) => (r, s2, l1 ++ l2) end
    | (Throw e, s1, l1) => (Throw e, s1, l1)
    | (Hangs, s1, l1) => (Hangs, s1, l1)
    end.

Definition get {S} : M S S := fun s => (Ok s, s, []).
Definition gets {S A} (f : S -> A) : M S A := fun s => (Ok (f s), s, []).
Definition modify {S} (f : S -> S) : M S unit := fun s => (Ok tt, f s, []).
Definition log {S} (lv : Level) (msg : string) : M S unit :=
  fun s => (Ok tt, s, [(lv, msg)]).

(** [try { m } catch (e) { h e }] *)
Definition try_catch {S A} (m : M S A) (h : JsError -> M S A) : M S A :=
  fun s =>
    match m s with
    | (Throw e, s1, l1) =>
        match h e s1 with (r, s2, l2) => (r, s2, l1 ++ l2) end
    | done => done
    end.

(** [try { m } finally { f }]: [f] runs when [m] has returned or thrown; a
    throw of [f] wins.  When [m] never returns, [f] is never reached. *)
Definition try_finally {S A} (m : M S A) (f : M S unit) : M S A :=
  fun s =>
    match m s with
    | (Hangs, s1, l1) => (Hangs, s1, l1)
    | (r, s1, l1) =>
        match f s1 with
        | (Ok _, s2, l2) => (r, s2, l1 ++ l2)
        | (Throw e, s2, l2) => (Throw e, s2, l1 ++ l2)
        | (Hangs, s2, l2) => (Hangs, s2, l1 ++ l2)
        end
    end.

(** The settlement of an awaited external promise: [None] is fulfilment. *)
Definition await_unit {S} (outcome : option JsError) : M S unit :=
  match outcome with None => ret tt | Some e => throw e end.

Definition await_res {S A} (outcome : JsError + A) : M S A :=
  match outcome with inr a => ret a | inl e => throw e end.

(** How a promise that may stay pending ends. *)
Inductive Settlement : Type :=
| Fulfils
| Rejects (e : JsError)
| NeverSettles.

Definition await_settlement {S} (outcome : Settlement) : M S unit :=
  match outcome with
  | Fulfils => ret tt
  | Rejects e => throw e
  | NeverSettles => hang
  end.

(** Run a computation on a component of a larger object. *)
Definition zoom {S T A} (proj : T -> S) (upd : S -> T -> T) (m : M S A) : M T A :=
  fun t => match m (proj t) with (r, s', l) => (r, upd s' t, l) end.

Definition when {S} (b : bool) (m : M S unit) : M S unit :=
  if b then m else ret tt.

Module Notations.
  Notation "'let*' x ':=' c 'in' k" := (bind c (fun x => k))
    (at level 10, x name, c at level 100, k at level 200).
  Notation "c ';;' k" := (bind c (fun _ => k))
    (at level 100, k at level 200, right associativity).
End Notations.

End Eff.

(* ===================================================================== *)
(** ** config.ts: choosing the connector class                             *)
(* ===================================================================== *)

Module Config.
Import Js Eff.

(** A connector object, represented by the class that was instantiated and
    the arguments handed to its constructor. *)
Inductive Connector : Type :=
| StdioConnector (command args env : JsValue)
| HttpConnector (url headers authToken preferSse : JsValue)
| WebSocketConnector (url headers authToken : JsValue).

Inductive ConnectorKind := Stdio | Http | WebSocket.

Definition kind_of (c : Connector) : ConnectorKind :=
  match c with
  | StdioConnector _ _ _ => Stdio
  | HttpConnector _ _ _ _ => Http
  | WebSocketConnector _ _ _ => WebSocket
  end.

(** [new HttpConnector(baseUrl, opts)]: the constructor calls
    [baseUrl.replace], which throws a [TypeError] unless [baseUrl] is a
    string.  The constructors of the other two classes do not throw. *)
Definition new_HttpConnector (url headers authToken preferSse : JsValue) : Res Connector :=
  match url with
  | JStr _ => Ok (HttpConnector url headers authToken preferSse)
  | JUndefined =>
      Throw (Error "TypeError" "Cannot read properties of undefined (reading 'replace')")
  | JNull =>
      Throw (Error "TypeError" "Cannot read properties of null (reading 'replace')")
  | _ => Throw (Error "TypeError" "baseUrl.replace is not a function")
  end.

Definition createConnectorFromConfig (serverConfig : JsObject) : Res Connector :=
  if ("command" in? serverConfig) && ("args" in? serverConfig) then
    Ok (StdioConnector (get_prop serverConfig "command")
                       (get_prop serverConfig "args")
                       (get_prop serverConfig "env"))
  else if "url" in? serverConfig then
    let transport := js_or (get_prop serverConfig "transport") (JStr "http") in
    new_HttpConnector
      (get_prop serverConfig "url")
      (get_prop serverConfig "headers")
      (js_or (get_prop serverConfig "auth_token") (get_prop serverConfig "authToken"))
      (js_or (get_prop serverConfig "preferSse") (JBool (strict_eq_str transport "sse")))
  else if "ws_url" in? serverConfig then
    Ok (WebSocketConnector (get_prop serverConfig "ws_url")
                           (get_prop serverConfig "headers")
                           (get_prop serverConfig "auth_token"))
  else
    Throw (new_Error "Cannot determine connector type from config").

End Config.

(* ===================================================================== *)
(** ** client.ts: the registry of configured servers and live sessions     *)
(* ===================================================================== *)

Module Client.
Import Js Eff Eff.Notations Config.

(** session.ts *)
Record MCPSession := { connector : Connector; autoConnect : bool }.

Definition new_MCPSession (c : Connector) : MCPSession :=
  {| connector := c; autoConnect := true |}.

Record MCPClient := {
  mcpServers : option (list (string * JsObject));
  sessions : gmap string MCPSession;
  activeSessions : list string;
}.

Definition set_mcpServers (v : option (list (string * JsObject))) (c : MCPClient) :=
  {| mcpServers := v; sessions := sessions c; activeSessions := activeSessions c |}.
Definition set_sessions (v : gmap string MCPSession) (c : MCPClient) :=
  {| mcpServers := mcpServers c; sessions := v; activeSessions := activeSessions c |}.
Definition set_activeSessions (v : list string) (c : MCPClient) :=
  {| mcpServers := mcpServers c; sessions := sessions c; activeSessions := v |}.

(** [new MCPClient(config)] *)
Definition new_MCPClient (servers : option (list (string * JsObject))) : MCPClient :=
  {| mcpServers := servers; sessions := ∅; activeSessions := [] |}.

(** [this.config.mcpServers ?? {}] *)
Definition servers_or_empty (c : MCPClient) : list (string * JsObject) :=
  default [] (mcpServers c).

(** [addServer]: the assignment [mcpServers[name] = serverConfig] creates
    or updates an own property.  (For the one name [__proto__] JavaScript
    replaces the prototype of the object instead; the statements about
    [addServer] leave that name out.) *)
Definition addServer (name : string) (serverConfig : JsObject) (c : MCPClient) : MCPClient :=
  set_mcpServers (Some (obj_set name serverConfig (servers_or_empty c))) c.

(** [removeServer]: the test [mcpServers?.[name]] is also passed by an
    inherited member, for which [delete] removes nothing. *)
Definition removeServer (name : string) (c : MCPClient) : MCPClient :=
  match mcpServers c with
  | Some servers =>
      match js_get servers name with
      | Missing => c
      | _ =>
          set_activeSessions (filter (fun n => n ≠ name) (activeSessions c))
            (set_mcpServers (Some (obj_delete name servers)) c)
      end
  | None => c
  end.

Definition getServerNames (c : MCPClient) : list string :=
  js_keys (servers_or_empty c).

Definition getSession (serverName : string) (c : MCPClient) : option MCPSession :=
  sessions c !! serverName.

(** The remote side: how the awaited calls on a session settle.  The
    [disconnect()] of a session may stay pending: that of a WebSocket
    connector does, until the socket is closed from the other side. *)
Record Remote := {
  initialize_outcome : string -> MCPSession -> option JsError;
  disconnect_outcome : string -> MCPSession -> Settlement;
}.

Definition lift_res {S A} (r : Res A) : M S A :=
  match r with Ok a => ret a | Throw e => throw e | Hangs => hang end.

(** The value of [servers[serverName]] as [createSession] uses it: [None]
    when it is falsy.  An inherited member is a function (for [__proto__] an
    object) that has none of the properties [createConnectorFromConfig] looks
    for, like the empty configuration. *)
Definition config_of_lookup (found : Lookup JsObject) : option JsObject :=
  match found with
  | Own serverConfig => Some serverConfig
  | Inherited => Some []
  | Missing => None
  end.

Definition createSession (io : Remote) (serverName : string) (autoInitialize : bool)
  : M MCPClient MCPSession :=
  let* servers := gets servers_or_empty in
  when (Nat.eqb (length (js_keys servers)) 0)
       (log LWarn "No MCP servers defined in config") ;;
  match config_of_lookup (js_get servers serverName) with
  | None => throw (new_Error ("Server '" +:+ serverName +:+ "' not found in config"))
  | Some serverConfig =>
      let* connector := lift_res (createConnectorFromConfig serverConfig) in
      let session := new_MCPSession connector in
      when autoInitialize (await_unit (initialize_outcome io serverName session)) ;;
      modify (fun c => set_sessions (<[serverName := session]> (sessions c)) c) ;;
      let* active := gets activeSessions in
      when (negb (bool_decide (serverName ∈ active)))
           (modify (fun c => set_activeSessions (activeSessions c ++ [serverName]) c)) ;;
      ret session
  end.

(** [closeSession]: when [session.disconnect()] stays pending, the call is
    suspended at the [await] and the [finally] block is not reached. *)
Definition closeSession (io : Remote) (serverName : string) : M MCPClient unit :=
  let* found := gets (fun c => sessions c !! serverName) in
  match found with
  | None =>
      log LWarn ("No session exists for server " +:+ serverName +:+ ", nothing to close")
  | Some session =>
      try_finally
        (try_catch
           (log LDebug ("Closing session for server " +:+ serverName) ;;
            await_settlement (disconnect_outcome io serverName session))
           (fun e =>
              log LError ("Error closing session for server '" +:+ serverName
                          +:+ "': " +:+ err_toString e)))
        (modify (fun c =>
           set_activeSessions (filter (fun n => n ≠ serverName) (activeSessions c))
             (set_sessions (delete serverName (sessions c)) c)))
  end.

(** *** Notions used in the statements, and sample data *)

Definition remote_ok : Remote :=
  {| initialize_outcome := fun _ _ => None; disconnect_outcome := fun _ _ => Fulfils |}.

Definition remote_failing_disconnect : Remote :=
  {| initialize_outcome := fun _ _ => None;
     disconnect_outcome := fun _ _ => Rejects (new_Error "socket hang up") |}.

Definition ws_snake_client : MCPClient :=
  new_MCPClient (Some [("ws", [("ws_url", JStr "ws://localhost:8080")])]).

Definition ws_camel_client : MCPClient :=
  new_MCPClient (Some [("ws", [("wsUrl", JStr "ws://localhost:8080")])]).

Definition one_session_client : MCPClient :=
  {| mcpServers := Some [("a", [("command", JStr "echo"); ("args", JArr ["hi"])])];
     sessions := {[ "a" := new_MCPSession (StdioConnector (JStr "echo") (JArr ["hi"]) JUndefined) ]};
     activeSessions := ["a"] |}.

End Client.

(* ===================================================================== *)
(** ** task_managers/base.ts: ConnectionManager                            *)
(* ===================================================================== *)

(** The class is generic in the subclass hooks [establishConnection] and
    [closeConnection]: their settlements are events.  Logger calls are left
    out; so is the [catch] around [await this._task] in [stop()], which is
    never entered because [connectionTask()] catches every error itself. *)

Module ConnMgr.
Import Js.

(** Where a [connectionTask()] invocation is suspended. *)
Inductive Phase : Type :=
| Establishing               (* await this.establishConnection() *)
| WaitingAbort (g : nat)     (* await this.waitForAbort(), on controller g *)
| Closing                    (* await this.closeConnection(conn), in finally *)
| Finished.                  (* the promise of the task is fulfilled *)

Global Instance Phase_eq_dec : EqDecision Phase.
Proof. solve_decision. Defined.

(** Where a [stop()] call is suspended. *)
Inductive StopWait : Type :=
| AwaitTask (t : nat)        (* await this._task *)
| AwaitDone (g : nat)        (* await this._donePromise, promise g *)
| StopReturned.

Section Manager.
(** The connection handle type [T] of the subclass. *)
Context {T : Type}.

(** Where a [start()] call is suspended, or how it ended. *)
Inductive StartWait : Type :=
| AwaitReady (g : nat)     (* await this._readyPromise, promise g *)
| StartEnded (r : JsError + T).

(** The instance fields and the suspended calls.  [reset()] installs a new
    ready promise, done promise and abort controller; [gen] counts the
    resets and so identifies the current ones.  [tasks], [starts] and
    [stops] are indexed by invocation; [established] and [closeCalls]
    record what the subclass hooks returned and received. *)
Record State : Type := mkState {
  gen : nat;
  exception : option JsError;
  connection : option T;
  task : option nat;
  tasks : list Phase;
  readyResolved : list nat;
  doneResolved : list nat;
  aborted : list nat;
  starts : list StartWait;
  stops : list StopWait;
  established : list T;
  closeCalls : list T;
}.

Definition set_connection v s :=
  mkState (gen s) (exception s) v (task s) (tasks s) (readyResolved s)
          (doneResolved s) (aborted s) (starts s) (stops s) (established s) (closeCalls s).
Definition set_exception v s :=
  mkState (gen s) v (connection s) (task s) (tasks s) (readyResolved s)
          (doneResolved s) (aborted s) (starts s) (stops s) (established s) (closeCalls s).
Definition set_tasks v s :=
  mkState (gen s) (exception s) (connection s) (task s) v (readyResolved s)
          (doneResolved s) (aborted s) (starts s) (stops s) (established s) (closeCalls s).
Definition set_readyResolved v s :=
  mkState (gen s) (exception s) (connection s) (task s) (tasks s) v
          (doneResolved s) (aborted s) (starts s) (stops s) (established s) (closeCalls s).
Definition set_doneResolved v s :=
  mkState (gen s) (exception s) (connection s) (task s) (tasks s) (readyResolved s)
          v (aborted s) (starts s) (stops s) (established s) (closeCalls s).
Definition set_aborted v s :=
  mkState (gen s) (exception s) (connection s) (task s) (tasks s) (readyResolved s)
          (doneResolved s) v (starts s) (stops s) (established s) (closeCalls s).
Definition set_starts v s :=
  mkState (gen s) (exception s) (connection s) (task s) (tasks s) (readyResolved s)
          (doneResolved s) (aborted s) v (stops s) (established s) (closeCalls s).
Definition set_stops v s :=
  mkState (gen s) (exception s) (connection s) (task s) (tasks s) (readyResolved s)
          (doneResolved s) (aborted s) (starts s) v (established s) (closeCalls s).
Definition set_established v s :=
  mkState (gen s) (exception s) (connection s) (task s) (tasks s) (readyResolved s)
          (doneResolved s) (aborted s) (starts s) (stops s) v (closeCalls s).
Definition set_closeCalls v s :=
  mkState (gen s) (exception s) (connection s) (task s) (tasks s) (readyResolved s)
          (doneResolved s) (aborted s) (starts s) (stops s) (established s) v.

(** The constructor: [reset()] on the field initialisers. *)
Definition new : State :=
  mkState 0 None None None [] [] [] [] [] [] [] [].

(** [reset()] *)
Definition reset (s : State) : State :=
  mkState (S (gen s)) None None None (tasks s) (readyResolved s)
          (doneResolved s) (aborted s) (starts s) (stops s) (established s) (closeCalls s).

(** What [start()] does once its ready promise is resolved.  The test
    [if (this._exception)] is one for truthiness: a falsy rejection value of
    [establishConnection()] is not re-thrown. *)
Definition start_result (s : State) : JsError + T :=
  let established :=
    match connection s with
    | None => inl (new_Error "Connection was not established")
    | Some c => inr c
    end in
  match exception s with
  | Some e => if error_truthy e then inl e else established
  | None => established
  end.

(** [this._readyResolver()]: resolves the current ready promise; the
    [start()] calls awaiting it resume with the fields as they are now. *)
Definition readyResolver (s : State) : State :=
  let s1 := set_readyResolved (gen s :: readyResolved s) s in
  set_starts
    (map (fun w => match w with
                   | AwaitReady g =>
                       if bool_decide (g ∈ readyResolved s1)
                       then StartEnded (start_result s1) else w
                   | StartEnded _ => w
                   end) (starts s1)) s1.

(** [this._doneResolver()] *)
Definition doneResolver (s : State) : State :=
  set_doneResolved (gen s :: doneResolved s) s.

(** The [finally] block of task [t], up to its first suspension. *)
Definition enter_finally (t : nat) (s : State) : State :=
  match connection s with
  | Some c => set_tasks (<[t := Closing]> (tasks s)) (set_closeCalls (closeCalls s ++ [c]) s)
  | None => set_tasks (<[t := Finished]> (tasks s)) (doneResolver s)
  end.

(** [waitForAbort()] as called by task [t]. *)
Definition waitForAbort (t : nat) (s : State) : State :=
  if bool_decide (gen s ∈ aborted s) then enter_finally t s
  else set_tasks (<[t := WaitingAbort (gen s)]> (tasks s)) s.

(** [controller.abort()] on controller [g]: the listeners registered by
    [waitForAbort] run in registration order. *)
Definition resume_aborted (g : nat) (s : State) : State :=
  fold_left
    (fun s t => match tasks s !! t with
                | Some (WaitingAbort g') =>
                    if bool_decide (g' = g) then enter_finally t s else s
                | _ => s
                end)
    (seq 0 (length (tasks s))) s.

Definition abort (s : State) : State :=
  if bool_decide (gen s ∈ aborted s) then s
  else resume_aborted (gen s) (set_aborted (gen s :: aborted s) s).

(** The suspended [stop()] calls that can go on do so. *)
Definition settle_stop (s : State) (w : StopWait) : StopWait :=
  match w with
  | AwaitTask t =>
      match tasks s !! t with
      | Some Finished =>
          if bool_decide (gen s ∈ doneResolved s) then StopReturned
          else AwaitDone (gen s)
      | _ => w
      end
  | AwaitDone g => if bool_decide (g ∈ doneResolved s) then StopReturned else w
  | StopReturned => w
  end.

Definition settle_stops (s : State) : State :=
  set_stops (map (settle_stop s) (stops s)) s.

Inductive Event : Type :=
| CallStart                                  (* the user calls start() *)
| CallStop                                   (* the user calls stop() *)
| EstablishSettled (t : nat) (r : JsError + T)
                                             (* establishConnection() of task t settles *)
| CloseSettled (t : nat) (r : option JsError).
                                             (* closeConnection() of task t settles *)

Definition is_start (ev : Event) : bool :=
  match ev with CallStart => true | _ => false end.

(** [start()] up to [await this._readyPromise]; the task runs up to
    [await this.establishConnection()]. *)
Definition call_start (s : State) : State :=
  let s1 := reset s in
  let t := length (tasks s1) in
  mkState (gen s1) (exception s1) (connection s1) (Some t) (tasks s1 ++ [Establishing])
          (readyResolved s1) (doneResolved s1) (aborted s1)
          (starts s1 ++ [AwaitReady (gen s1)]) (stops s1) (established s1) (closeCalls s1).

(** [stop()] up to its first suspension. *)
Definition call_stop (s : State) : State :=
  match task s with
  | Some t =>
      let s1 := abort s in
      set_stops (stops s1 ++ [AwaitTask t]) s1
  | None => set_stops (stops s ++ [AwaitDone (gen s)]) s
  end.

(** The body of [connectionTask()] after [establishConnection()] settled. *)
Definition establish_settled (t : nat) (r : JsError + T) (s : State) : State :=
  match tasks s !! t with
  | Some Establishing =>
      match r with
      | inr c =>
          let s1 := set_established (established s ++ [c]) (set_connection (Some c) s) in
          waitForAbort t (readyResolver s1)
      | inl e =>
          enter_finally t (readyResolver (set_exception (Some e) s))
      end
  | _ => s
  end.

(** The rest of the [finally] block after [closeConnection()] settled; a
    rejection is caught and logged. *)
Definition close_settled (t : nat) (r : option JsError) (s : State) : State :=
  match tasks s !! t with
  | Some Closing =>
      set_tasks (<[t := Finished]> (tasks s)) (doneResolver (set_connection None s))
  | _ => s
  end.

Definition step (ev : Event) (s : State) : State :=
  settle_stops
    match ev with
    | CallStart => call_start s
    | CallStop => call_stop s
    | EstablishSettled t r => establish_settled t r s
    | CloseSettled t r => close_settled t r s
    end.

Definition run (evs : list Event) (s : State) : State :=
  fold_left (fun s ev => step ev s) evs s.

(** *** Notions used in the statements *)

Implicit Types (s : State) (ev : Event) (evs : list Event).

(** [frame s s']: the code between two suspensions keeps the reset counter,
    the number of tasks and the suspended [stop()] calls, and resolves no
    done promise other than the current one. *)
Definition frame s s' : Prop :=
  gen s' = gen s /\
  length (tasks s') = length (tasks s) /\
  stops s' = stops s /\
  (forall g, g ∈ doneResolved s' -> g ∈ doneResolved s \/ g = gen s).

(** The state in which the first [stop()] call (call number 0) waits on the
    done promise created by the constructor, and nothing has resolved or can
    resolve that promise. *)
Definition first_stop_blocked s : Prop :=
  stops s !! 0 = Some (AwaitDone 0) /\
  (0 ∉ doneResolved s) /\
  (tasks s = [] \/ 1 <= gen s).

Fixpoint count_starts evs : nat :=
  match evs with
  | [] => 0
  | ev :: evs' => (if is_start ev then 1 else 0) + count_starts evs'
  end.

(** No task is running and no connection is held: a new instance, or an
    instance whose earlier cycles are over. *)
Definition idle s : Prop :=
  Forall (fun p => p = Finished) (tasks s) /\ connection s = None.

(** The states of a cycle that began in an idle state with close calls
    [c0] and established connections [e0].  The flag tells whether
    [start()] was called. *)
Inductive cycle_inv (c0 e0 : list T) : bool -> State -> Prop :=
| ci_idle s b :
    idle s -> closeCalls s = c0 -> established s = e0 ->
    cycle_inv c0 e0 b s
| ci_establishing s pre :
    tasks s = pre ++ [Establishing] -> Forall (fun p => p = Finished) pre ->
    connection s = None -> closeCalls s = c0 -> established s = e0 ->
    cycle_inv c0 e0 true s
| ci_waiting s pre g c :
    tasks s = pre ++ [WaitingAbort g] -> Forall (fun p => p = Finished) pre ->
    connection s = Some c -> closeCalls s = c0 -> established s = e0 ++ [c] ->
    cycle_inv c0 e0 true s
| ci_closing s pre c :
    tasks s = pre ++ [Closing] -> Forall (fun p => p = Finished) pre ->
    connection s = Some c -> closeCalls s = c0 ++ [c] -> established s = e0 ++ [c] ->
    cycle_inv c0 e0 true s
| ci_closed s c :
    idle s -> closeCalls s = c0 ++ [c] -> established s = e0 ++ [c] ->
    cycle_inv c0 e0 true s.

End Manager.

Arguments State : clear implicits.
Arguments Event : clear implicits.
Arguments StartWait : clear implicits.
Arguments cycle_inv {T} c0 e0 _ _.

End ConnMgr.

(* ===================================================================== *)
(** ** connectors/base.ts and connectors/http.ts                           *)
(* ===================================================================== *)

Module Http.
Import Js Eff Eff.Notations.

Inductive TransportType := StreamableHttp | Sse.

Definition transport_name (t : TransportType) : string :=
  match t with StreamableHttp => "streamable-http" | Sse => "sse" end.

(** The class of the connection manager a connector currently owns. *)
Inductive ManagerClass := StreamableHttpConnectionManager | SseConnectionManager.

(** The fields of an [HttpConnector] (with those of [BaseConnector]) that
    [connect], [disconnect] and [publicIdentifier] read or write.  [client]
    holds the SDK client object when there is one. *)
Record HttpConnector := mkHttp {
  baseUrl : string;
  preferSse : bool;
  client : option unit;
  connectionManager : option ManagerClass;
  toolsCache : option (list Tool);
  connected : bool;
  transportType : option TransportType;
}.

Definition set_client v c :=
  mkHttp (baseUrl c) (preferSse c) v (connectionManager c) (toolsCache c)
         (connected c) (transportType c).
Definition set_connectionManager v c :=
  mkHttp (baseUrl c) (preferSse c) (client c) v (toolsCache c)
         (connected c) (transportType c).
Definition set_toolsCache v c :=
  mkHttp (baseUrl c) (preferSse c) (client c) (connectionManager c) v
         (connected c) (transportType c).
Definition set_connected v c :=
  mkHttp (baseUrl c) (preferSse c) (client c) (connectionManager c) (toolsCache c)
         v (transportType c).
Definition set_transportType v c :=
  mkHttp (baseUrl c) (preferSse c) (client c) (connectionManager c) (toolsCache c)
         (connected c) v.

(** [baseUrl.replace(/\/$/, '')] *)
Fixpoint strip_trailing_slash (s : string) : string :=
  match s with
  | EmptyString => EmptyString
  | String a EmptyString => if bool_decide (a = "/"%char) then EmptyString else s
  | String a rest => String a (strip_trailing_slash rest)
  end.

(** The fields after [new HttpConnector(baseUrl, { preferSse })]. *)
Definition new_HttpConnector (url : string) (optPreferSse : option bool) : HttpConnector :=
  mkHttp (strip_trailing_slash url) (default false optPreferSse)
         None None None false None.

(** How the steps of one connection attempt, and of the cleanup that may
    follow it, end: the manager's constructor (it parses the URL) may throw,
    and each awaited call fulfils or rejects. *)
Record Attempt := {
  construct_outcome : option JsError;  (* new ...ConnectionManager(baseUrl, opts) *)
  start_outcome : option JsError;      (* connectionManager.start() *)
  handshake_outcome : option JsError;  (* client.connect(transport) *)
  close_outcome : option JsError;      (* client.close() *)
  stop_outcome : option JsError;       (* connectionManager.stop() *)
}.

(** [cleanupResources()]; the local [issues] array is its length. *)
Definition cleanupResources (a : Attempt) : M HttpConnector unit :=
  let* cl := gets client in
  let* n1 :=
    match cl with
    | Some _ =>
        try_finally
          (try_catch (await_unit (close_outcome a) ;; ret 0)
             (fun e => log LWarn ("Error closing client: " +:+ err_toString e) ;; ret 1))
          (modify (set_client None))
    | None => ret 0
    end in
  let* cm := gets connectionManager in
  let* n2 :=
    match cm with
    | Some _ =>
        try_finally
          (try_catch (await_unit (stop_outcome a) ;; ret 0)
             (fun e => log LWarn ("Error stopping connection manager: " +:+ err_toString e) ;;
                       ret 1))
          (modify (set_connectionManager None))
    | None => ret 0
    end in
  modify (set_toolsCache None) ;;
  when (negb (Nat.eqb (n1 + n2) 0))
       (log LWarn ("Resource cleanup finished with " +:+ num_toString (Z.of_nat (n1 + n2))
                   +:+ " issue(s)")).

(** [BaseConnector.disconnect()] *)
Definition disconnect (a : Attempt) : M HttpConnector unit :=
  let* conn := gets connected in
  if negb conn then log LDebug "Not connected to MCP implementation"
  else
    log LDebug "Disconnecting from MCP implementation" ;;
    cleanupResources a ;;
    modify (set_connected false) ;;
    log LDebug "Disconnected from MCP implementation".

Definition connectWith (cls : ManagerClass) (t : TransportType) (okmsg : string)
    (a : Attempt) : M HttpConnector unit :=
  try_catch
    (await_unit (construct_outcome a) ;;
     modify (set_connectionManager (Some cls)) ;;
     await_unit (start_outcome a) ;;
     modify (set_client (Some tt)) ;;
     await_unit (handshake_outcome a) ;;
     modify (set_connected true) ;;
     modify (set_transportType (Some t)) ;;
     log LDebug okmsg)
    (fun err => cleanupResources a ;; throw err).

Definition connectWithStreamableHttp (a : Attempt) : M HttpConnector unit :=
  let* url := gets baseUrl in
  connectWith StreamableHttpConnectionManager StreamableHttp
    ("Successfully connected to MCP implementation via streamable HTTP: " +:+ url) a.

Definition connectWithSse (a : Attempt) : M HttpConnector unit :=
  let* url := gets baseUrl in
  connectWith SseConnectionManager Sse
    ("Successfully connected to MCP implementation via HTTP/SSE: " +:+ url) a.

(** The [fallbackReason] computed in the catch block of [connect()], and
    whether the block logs it. *)
Definition fallbackReason (err : JsError) : string :=
  match err with
  | StreamableHTTPError code msg =>
      if bool_decide (code = Some 404%Z) || bool_decide (code = Some 405%Z) then
        "Server returned " +:+ opt_num_toString code
          +:+ " - server likely doesn't support streamable HTTP"
      else
        "Server returned " +:+ opt_num_toString code +:+ ": " +:+ msg
  | Error _ msg =>
      let errorStr := err_toString err in
      if includes errorStr "405 Method Not Allowed" || includes errorStr "404 Not Found" then
        "Server doesn't support streamable HTTP (405/404)"
      else
        "Streamable HTTP failed: " +:+ msg
  | Thrown _ => "Unknown error"
  end.

Definition is_Error_instance (err : JsError) : bool :=
  match err with Thrown _ => false | _ => true end.

(** [connect()]: [http] and [sse] settle the streamable-HTTP and the SSE
    attempt. *)
Definition connect (http sse : Attempt) : M HttpConnector unit :=
  let* conn := gets connected in
  if conn then log LDebug "Already connected to MCP implementation"
  else
    let* url := gets baseUrl in
    let* prefer := gets preferSse in
    if prefer then
      log LDebug ("Connecting to MCP implementation via HTTP/SSE: " +:+ url) ;;
      connectWithSse sse
    else
      log LDebug ("Connecting to MCP implementation via HTTP: " +:+ url) ;;
      try_catch
        (log LDebug "Attempting streamable HTTP transport..." ;;
         connectWithStreamableHttp http)
        (fun err =>
           when (is_Error_instance err) (log LDebug (fallbackReason err)) ;;
           log LDebug "Falling back to SSE transport..." ;;
           try_catch (connectWithSse sse)
             (fun sseErr =>
                log LError "Failed to connect with both transports:" ;;
                log LError ("  Streamable HTTP: " +:+ fallbackReason err) ;;
                log LError ("  SSE: " +:+ err_toString sseErr) ;;
                cleanupResources sse ;;
                throw (new_Error "Could not connect to server with any available transport"))).

(** [publicIdentifier] *)
Record PublicIdentifier := { type : string; url : string; transport : string }.

Definition publicIdentifier (c : HttpConnector) : PublicIdentifier :=
  {| type := "http";
     url := baseUrl c;
     transport := match transportType c with
                  | Some t => transport_name t
                  | None => "unknown"
                  end |}.


(** The calls made on a connector. *)
Inductive Call :=
| CallConnect (http sse : Attempt)
| CallDisconnect (a : Attempt).

Definition exec (call : Call) : M HttpConnector unit :=
  match call with
  | CallConnect http sse => connect http sse
  | CallDisconnect a => disconnect a
  end.

Definition after (calls : list Call) (c : HttpConnector) : HttpConnector :=
  fold_left (fun c call => (exec call c).1.2) calls c.

(** *** Notions used in the statements, and sample data *)

(** The error with which a connection attempt fails, if it does: the one of
    the manager's constructor, else the one of [start()], else the one of the
    handshake. *)
Definition attempt_error (a : Attempt) : option JsError :=
  match construct_outcome a with
  | Some e => Some e
  | None =>
      match start_outcome a with
      | Some e => Some e
      | None => handshake_outcome a
      end
  end.

(** What [cleanupResources] leaves behind. *)
Definition cleaned (c c' : HttpConnector) : Prop :=
  client c' = None /\ connectionManager c' = None /\ toolsCache c' = None /\
  connected c' = connected c /\ transportType c' = transportType c /\
  preferSse c' = preferSse c /\ baseUrl c' = baseUrl c.

Definition both_failed_message : string :=
  "Could not connect to server with any available transport".



Definition attempt_ok : Attempt :=
  {| construct_outcome := None; start_outcome := None; handshake_outcome := None;
     close_outcome := None; stop_outcome := None |}.

Definition attempt_405 : Attempt :=
  {| construct_outcome := None;
     start_outcome := None;
     handshake_outcome := Some (StreamableHTTPError (Some 405%Z) "Method Not Allowed");
     close_outcome := None; stop_outcome := None |}.

Definition attempt_refused : Attempt :=
  {| construct_outcome := None;
     start_outcome := None;
     handshake_outcome := Some (new_Error "connect ECONNREFUSED 127.0.0.1:3000");
     close_outcome := None; stop_outcome := None |}.

(** Does [msg] name both failure reasons? *)
Definition names_both_reasons (msg : string) (httpErr sseErr : JsError) : bool :=
  includes msg (fallbackReason httpErr) && includes msg (err_toString sseErr).

End Http.

(* ===================================================================== *)
(** ** connectors/websocket.ts: request/response correlation               *)
(* ===================================================================== *)

Module WS.
Import Js.

(** The state of the promise returned by one [sendRequest] call. *)
Inductive PromiseState : Type :=
| Pending
| Resolved (result : string)
| Rejected (reason : JsError).

(** A parsed frame: [data.id] when truthy, and the [result] and [error]
    properties when present. *)
Record Message := {
  msg_id : option string;
  msg_result : option string;
  msg_error : option JsError;
}.

(** A connector after a successful [connect()]: the socket is set and
    [receiveLoop()] has registered its listeners.  [requests] lists, per
    [sendRequest] call, the generated id and the state of its promise;
    [pending] is the [Map] from id to the resolver pair of a request, the
    request being named by its position in [requests]. *)
Record WebSocketConnector := mkWS {
  pending : list (string * nat);
  requests : list (string * PromiseState);
  listening : bool;          (* the 'message' listener is registered *)
  receiverDone : bool;       (* the promise of receiveLoop() is resolved *)
}.

Definition connected_connector : WebSocketConnector := mkWS [] [] true false.

(** [resolve(v)] and [reject(e)] of request [k]: no-ops once settled. *)
Definition settle (k : nat) (st : PromiseState) (reqs : list (string * PromiseState))
  : list (string * PromiseState) :=
  match reqs !! k with
  | Some (id, Pending) => <[k := (id, st)]> reqs
  | _ => reqs
  end.

(** [sendRequest]: [id] is the value of [uuidv4()]. *)
Definition sendRequest (id : string) (c : WebSocketConnector) : WebSocketConnector :=
  let k := length (requests c) in
  mkWS (obj_set id k (pending c)) (requests c ++ [(id, Pending)])
       (listening c) (receiverDone c).

(** The callback of [ws.send] for request [k], called with an error. *)
Definition sendFailed (k : nat) (err : JsError) (c : WebSocketConnector)
  : WebSocketConnector :=
  match requests c !! k with
  | Some (id, _) =>
      mkWS (obj_delete id (pending c)) (settle k (Rejected err) (requests c))
           (listening c) (receiverDone c)
  | None => c
  end.

(** [onMessage]: [None] stands for a frame that is not JSON. *)
Definition onMessage (frame : option Message) (c : WebSocketConnector)
  : WebSocketConnector :=
  if negb (listening c) then c else
  match frame with
  | None => c
  | Some data =>
      match msg_id data with
      | Some id =>
          match obj_get (pending c) id with
          | Some k =>
              let reqs :=
                match msg_result data, msg_error data with
                | Some v, _ => settle k (Resolved v) (requests c)
                | None, Some e => settle k (Rejected e) (requests c)
                | None, None => requests c
                end in
              mkWS (obj_delete id (pending c)) reqs (listening c) (receiverDone c)
          | None => c
          end
      | None => c
      end
  end.

(** [rejectAll(err)] *)
Definition rejectAll (err : JsError) (c : WebSocketConnector) : WebSocketConnector :=
  mkWS [] (fold_left (fun reqs k => settle k (Rejected err) reqs) (pending c).*2 (requests c))
       (listening c) (receiverDone c).

(** [onClose] *)
Definition onClose (c : WebSocketConnector) : WebSocketConnector :=
  let c1 := rejectAll (new_Error "WebSocket closed") c in
  mkWS (pending c1) (requests c1) false true.

Inductive Event :=
| Send (id : string)
| SendFailed (k : nat) (err : JsError)
| Frame (frame : option Message)
| Close.

Definition step (ev : Event) (c : WebSocketConnector) : WebSocketConnector :=
  match ev with
  | Send id => sendRequest id c
  | SendFailed k err => sendFailed k err c
  | Frame f => onMessage f c
  | Close => onClose c
  end.

Definition run (evs : list Event) (c : WebSocketConnector) : WebSocketConnector :=
  fold_left (fun c ev => step ev c) evs c.

(** The state of the promise of request [k]. *)
Definition promise (c : WebSocketConnector) (k : nat) : option PromiseState :=
  snd <$> requests c !! k.

(** *** Notions used in the statements, and sample data *)

(** Every entry of the pending map belongs to a request with that id whose
    promise is not settled. *)
Definition pending_unsettled (c : WebSocketConnector) : Prop :=
  forall id k, (id, k) ∈ pending c -> requests c !! k = Some (id, Pending).

End WS.

(* ===================================================================== *)
(** ** managers/server_manager.ts and managers/tools/*.ts                  *)
(* ===================================================================== *)

Module Manager.
Import Js Eff Eff.Notations Config Client.

Record ServerManager := mkManager {
  client : MCPClient;
  activeServer : option string;
  serverTools : gmap string (list Tool);
  initializedServers : gmap string bool;
  overrideManagementTools : option (list Tool);
}.

Definition set_client v m :=
  mkManager v (activeServer m) (serverTools m) (initializedServers m)
            (overrideManagementTools m).
Definition set_activeServer v m :=
  mkManager (client m) v (serverTools m) (initializedServers m)
            (overrideManagementTools m).
Definition set_serverTools v m :=
  mkManager (client m) (activeServer m) v (initializedServers m)
            (overrideManagementTools m).
Definition set_initializedServers v m :=
  mkManager (client m) (activeServer m) (serverTools m) v
            (overrideManagementTools m).
Definition set_overrideManagementTools v m :=
  mkManager (client m) (activeServer m) (serverTools m) (initializedServers m) v.

(** [new ServerManager(client, adapter, managementTools)] *)
Definition new_ServerManager (c : MCPClient) (managementTools : option (list Tool))
  : ServerManager :=
  mkManager c None ∅ ∅ managementTools.

Definition setManagementTools (tools : list Tool) (m : ServerManager) : ServerManager :=
  set_overrideManagementTools (Some tools) m.

(** What is outside the manager: the remote servers behind the sessions, and
    the adapter call [adapter.createToolsFromConnectors([connector])], which
    returns the tools, throws, or never returns. *)
Record World := {
  remote : Remote;
  createToolsFromConnectors : Connector -> Res (list Tool);
}.

(** A client method called on [this.manager.client]. *)
Definition on_client {A} (f : M MCPClient A) : M ServerManager A :=
  zoom client set_client f.

(** [!this.manager.activeServer] negated: [null] and the empty string are
    falsy. *)
Definition active_truthy (m : ServerManager) : bool :=
  match activeServer m with
  | Some s => negb (is_empty_string s)
  | None => false
  end.

Definition count (n : nat) : string := num_toString (Z.of_nat n).

(** *** tools/connect_mcp_server.ts *)
Definition ConnectMCPServerTool_call (w : World) (serverName : string)
  : M ServerManager string :=
  let* serverNames := gets (fun m => getServerNames (client m)) in
  if negb (bool_decide (serverName ∈ serverNames)) then
    let available :=
      if Nat.ltb 0 (length serverNames) then join ", " serverNames else "none" in
    ret ("Server '" +:+ serverName +:+ "' not found. Available servers: " +:+ available)
  else
    let* active := gets activeServer in
    if bool_decide (active = Some serverName) then
      ret ("Already connected to MCP server '" +:+ serverName +:+ "'")
    else
      try_catch
        (let* found := gets (fun m => getSession serverName (client m)) in
         log LDebug ("Using existing session for server '" +:+ serverName +:+ "'") ;;
         let* session :=
           match found with
           | Some s => ret s
           | None =>
               log LDebug ("Creating new session for server '" +:+ serverName +:+ "'") ;;
               on_client (createSession (remote w) serverName true)
           end in
         modify (set_activeServer (Some serverName)) ;;
         let* cached := gets (fun m => serverTools m !! serverName) in
         match cached with
         | Some _ =>
             let* tools := lift_res (createToolsFromConnectors w (connector session)) in
             modify (fun m => set_serverTools (<[serverName := tools]> (serverTools m)) m) ;;
             modify (fun m =>
               set_initializedServers (<[serverName := true]> (initializedServers m)) m)
         | None => ret tt
         end ;;
         let* tools := gets (fun m => default [] (serverTools m !! serverName)) in
         ret ("Connected to MCP server '" +:+ serverName +:+ "'. "
              +:+ count (length tools) +:+ " tools are now available."))
        (fun error =>
           log LError ("Error connecting to server '" +:+ serverName +:+ "': "
                       +:+ err_toString error) ;;
           ret ("Failed to connect to server '" +:+ serverName +:+ "': "
                +:+ err_toString error)).

(** *** tools/add_server_from_config.ts *)
Definition AddMCPServerFromConfigTool_call (w : World) (serverName : string)
    (serverConfig : JsObject) : M ServerManager string :=
  try_catch
    (modify (fun m => set_client (addServer serverName serverConfig (client m)) m) ;;
     let result := "Server '" +:+ serverName +:+ "' added to the client." in
     log LDebug ("Connecting to new server '" +:+ serverName +:+ "' and discovering tools.") ;;
     let* session := on_client (createSession (remote w) serverName true) in
     let* tools := lift_res (createToolsFromConnectors w (connector session)) in
     modify (fun m => set_serverTools (<[serverName := tools]> (serverTools m)) m) ;;
     modify (fun m =>
       set_initializedServers (<[serverName := true]> (initializedServers m)) m) ;;
     modify (set_activeServer (Some serverName)) ;;
     let result :=
       result +:+ " Session created and connected. '" +:+ serverName
         +:+ "' is now the active server with " +:+ count (length tools)
         +:+ " tools available."
         +:+ nl +:+ nl +:+ join nl (tool_name <$> tools) in
     log LInfo result ;;
     ret result)
    (fun e =>
       (* [e.message] is read first: it throws when [e] is null or undefined *)
       if is_nullish e then throw (message_TypeError e)
       else
         log LError ("Failed to add or connect to server '" +:+ serverName +:+ "': "
                     +:+ err_message e) ;;
         ret ("Failed to add or connect to server '" +:+ serverName +:+ "': "
              +:+ err_message e)).

(** *** tools/release_mcp_server_connection.ts *)
Definition ReleaseMCPServerConnectionTool_call : M ServerManager string :=
  let* m := get in
  if negb (active_truthy m) then
    ret "No MCP server is currently active, so there's nothing to disconnect from."
  else
    let serverName := default EmptyString (activeServer m) in
    modify (set_activeServer None) ;;
    ret ("Successfully disconnected from MCP server '" +:+ serverName +:+ "'.").

(** *** tools/acquire_active_mcp_server.ts *)
Definition AcquireActiveMCPServerTool_call : M ServerManager string :=
  let* m := get in
  if negb (active_truthy m) then
    ret "No MCP server is currently active. Use connect_to_mcp_server to connect to a server."
  else
    ret ("Currently active MCP server: " +:+ default EmptyString (activeServer m)).

(** *** tools/list_mcp_servers.ts *)
Definition ListMCPServersTool_call : M ServerManager string :=
  let* m := get in
  let serverNames := getServerNames (client m) in
  if Nat.eqb (length serverNames) 0 then ret "No MCP servers are currently defined."
  else
    let lines :=
      flat_map
        (fun serverName =>
           let activeFlag :=
             if bool_decide (Some serverName = activeServer m) then " (ACTIVE)"
             else EmptyString in
           let numberOfTools := length (default [] (serverTools m !! serverName)) in
           ["- " +:+ serverName +:+ activeFlag;
            count numberOfTools +:+ " tools available for this server" +:+ nl])
        serverNames in
    ret (join nl ("Available MCP servers:" :: lines)).

(** *** prefetchServerTools() *)
Definition prefetch_one (w : World) (serverName : string) : M ServerManager unit :=
  try_catch
    (let* found := gets (fun m => getSession serverName (client m)) in
     log LDebug ("Using existing session for server '" +:+ serverName
                 +:+ "' to prefetch tools.") ;;
     let* session :=
       match found with
       | Some s => ret (Some s)
       | None =>
           let* created :=
             try_catch
               (let* s := on_client (createSession (remote w) serverName true) in
                ret (Some s))
               (fun createSessionError =>
                  log LWarn ("Could not create session for '" +:+ serverName
                             +:+ "' during prefetch: " +:+ err_toString createSessionError) ;;
                  ret None) in
           log LDebug ("Temporarily created session for '" +:+ serverName
                       +:+ "' to prefetch tools.") ;;
           ret created
       end in
     match session with
     | Some s =>
         match createToolsFromConnectors w (connector s) with
         | Hangs => hang
         | Throw toolFetchError =>
             log LError ("Failed to create tools from connector for server '"
                         +:+ serverName +:+ "': " +:+ err_toString toolFetchError)
         | Ok tools =>
             let* cachedTools := gets (fun m => serverTools m !! serverName) in
             (* [isEqual] compares the tool objects in depth; a tool is
                given here by its name and description.  Should [isEqual]
                tell two lists with the same names and descriptions apart,
                the code writes that same list again and logs the other
                line. *)
             let toolsChanged :=
               match cachedTools with
               | None => true
               | Some cached => negb (bool_decide (cached = tools))
               end in
             if toolsChanged then
               modify (fun m => set_serverTools (<[serverName := tools]> (serverTools m)) m) ;;
               modify (fun m =>
                 set_initializedServers (<[serverName := true]> (initializedServers m)) m) ;;
               log LDebug ("Prefetched " +:+ count (length tools)
                           +:+ " tools for server '" +:+ serverName +:+ "'.")
             else
               log LDebug ("Tools for server '" +:+ serverName
                           +:+ "' unchanged, using cached version.")
         end
     | None => ret tt
     end)
    (fun outerError =>
       log LError ("Error prefetching tools for server '" +:+ serverName +:+ "': "
                   +:+ err_toString outerError)).

Fixpoint for_each {S} (f : string -> M S unit) (names : list string) : M S unit :=
  match names with
  | [] => ret tt
  | n :: rest => f n ;; for_each f rest
  end.

Definition prefetchServerTools (w : World) : M ServerManager unit :=
  let* servers := gets (fun m => getServerNames (client m)) in
  for_each (prefetch_one w) servers.

(** *** The [tools] getter *)

Definition AddMCPServerFromConfigTool : Tool :=
  {| tool_name := "add_mcp_server_from_config";
     tool_description := "Adds a new MCP server to the client from a configuration object and connects to it, making its tools available." |}.
Definition ListMCPServersTool : Tool :=
  {| tool_name := "list_mcp_servers";
     tool_description := "Lists all available MCP (Model Context Protocol) servers that can be connected to, along with the tools available on each server. Use this tool to discover servers and see what functionalities they offer." |}.
Definition ConnectMCPServerTool : Tool :=
  {| tool_name := "connect_to_mcp_server";
     tool_description := "Connect to a specific MCP (Model Context Protocol) server to use its tools. Use this tool to connect to a specific server and use its tools." |}.
Definition AcquireActiveMCPServerTool : Tool :=
  {| tool_name := "get_active_mcp_server";
     tool_description := "Get the currently active MCP (Model Context Protocol) server" |}.
Definition ReleaseMCPServerConnectionTool : Tool :=
  {| tool_name := "disconnect_from_mcp_server";
     tool_description := "Disconnect from the currently active MCP (Model Context Protocol) server" |}.

Definition defaultManagementTools : list Tool :=
  [AddMCPServerFromConfigTool; ListMCPServersTool; ConnectMCPServerTool;
   AcquireActiveMCPServerTool; ReleaseMCPServerConnectionTool].

Definition tools (m : ServerManager) : list Tool :=
  let managementTools := default defaultManagementTools (overrideManagementTools m) in
  if active_truthy m then
    match serverTools m !! default EmptyString (activeServer m) with
    | Some activeTools => managementTools ++ activeTools
    | None => managementTools
    end
  else managementTools.

(** *** What the agent can do to a manager *)
Inductive Invocation :=
| ConnectToServer (w : World) (serverName : string)
| Disconnect
| AddServerFromConfig (w : World) (serverName : string) (serverConfig : JsObject)
| ListServers
| GetActiveServer
| Prefetch (w : World).

Definition invoke (i : Invocation) (m : ServerManager) : ServerManager :=
  match i with
  | ConnectToServer w n => (ConnectMCPServerTool_call w n m).1.2
  | Disconnect => (ReleaseMCPServerConnectionTool_call m).1.2
  | AddServerFromConfig w n cfg => (AddMCPServerFromConfigTool_call w n cfg m).1.2
  | ListServers => (ListMCPServersTool_call m).1.2
  | GetActiveServer => (AcquireActiveMCPServerTool_call m).1.2
  | Prefetch w => (prefetchServerTools w m).1.2
  end.

Definition invoke_all (calls : list Invocation) (m : ServerManager) : ServerManager :=
  fold_left (fun m i => invoke i m) calls m.

(** *** Notions used in the statements, and sample data *)

(** A server "x" reached through a subprocess, offering two tools. *)
Definition echo_config : JsObject := [("command", JStr "echo"); ("args", JArr ["hi"])].

Definition echo_client : MCPClient := new_MCPClient (Some [("x", echo_config)]).

Definition tool_read : Tool := {| tool_name := "read"; tool_description := "Read a file" |}.
Definition tool_write : Tool := {| tool_name := "write"; tool_description := "Write a file" |}.

Definition two_tool_world : World :=
  {| remote := {| initialize_outcome := fun _ _ => None;
                  disconnect_outcome := fun _ _ => Fulfils |};
     createToolsFromConnectors := fun _ => Ok [tool_read; tool_write] |}.

Definition fresh_manager : ServerManager := new_ServerManager echo_client None.

(** The replies of connect-to-server that report a connection: the server
    was connected by this call, or it was the active server already. *)
Definition connected_reply (serverName : string) (n : nat) : string :=
  "Connected to MCP server '" +:+ serverName +:+ "'. "
    +:+ count n +:+ " tools are now available.".



Definition prefetched_manager : ServerManager :=
  (prefetchServerTools two_tool_world fresh_manager).1.2.

(** The invariant of the data model: the active server, if set, is a key of
    [serverTools]. *)
Definition active_is_cached (m : ServerManager) : Prop :=
  forall s, activeServer m = Some s -> is_Some (serverTools m !! s).

(** [grows m m']: the active server is the same and no cache entry is lost. *)
Definition grows (m m' : ServerManager) : Prop :=
  activeServer m' = activeServer m /\
  (forall s, is_Some (serverTools m !! s) -> is_Some (serverTools m' !! s)).

End Manager.

(* ===================================================================== *)
(** ** client.ts: the remaining registry operations                        *)
(* ===================================================================== *)

Module ClientOps.
Import Js Eff Eff.Notations Config Client.

(** [getServerConfig(name)]: the property read [mcpServers?.[name]]. *)
Definition getServerConfig (name : string) (c : MCPClient) : Lookup JsObject :=
  match mcpServers c with
  | Some servers => js_get servers name
  | None => Missing
  end.

(** The loop of [createAllSessions]. *)
Fixpoint createSessions (io : Remote) (autoInitialize : bool) (names : list string)
  : M MCPClient unit :=
  match names with
  | [] => ret tt
  | name :: rest =>
      createSession io name autoInitialize ;;
      createSessions io autoInitialize rest
  end.

Definition createAllSessions (io : Remote) (autoInitialize : bool)
  : M MCPClient (gmap string MCPSession) :=
  let* servers := gets servers_or_empty in
  when (Nat.eqb (length (js_keys servers)) 0)
       (log LWarn "No MCP servers defined in config") ;;
  createSessions io autoInitialize (js_keys servers) ;;
  gets sessions.

(** The loop of [closeAllSessions]; the result is the local [errors] array. *)
Fixpoint closeSessions (io : Remote) (serverNames : list string)
  : M MCPClient (list string) :=
  match serverNames with
  | [] => ret []
  | serverName :: rest =>
      let* errs :=
        try_catch
          (log LDebug ("Closing session for server " +:+ serverName) ;;
           closeSession io serverName ;;
           ret [])
          (fun e =>
             let errorMsg := "Failed to close session for server '" +:+ serverName
                             +:+ "': " +:+ err_toString e in
             log LError errorMsg ;;
             ret [errorMsg]) in
      let* more := closeSessions io rest in
      ret (errs ++ more)
  end.

(** [closeAllSessions()].  [serverNames] is [Object.keys(this.sessions)]: the
    names that have a session record, in the order the records were made. *)
Definition closeAllSessions (io : Remote) (serverNames : list string)
  : M MCPClient unit :=
  let* errors := closeSessions io serverNames in
  if Nat.ltb 0 (length errors) then
    log LError ("Encountered " +:+ num_toString (Z.of_nat (length errors))
                +:+ " errors while closing sessions")
  else log LDebug "All sessions closed successfully".

(** The calls made on a client. *)
Inductive Call :=
| AddServer (name : string) (serverConfig : JsObject)
| RemoveServer (name : string)
| CreateSession (io : Remote) (serverName : string) (autoInitialize : bool)
| CloseSession (io : Remote) (serverName : string)
| CreateAllSessions (io : Remote) (autoInitialize : bool)
| CloseAllSessions (io : Remote) (serverNames : list string).

Definition exec (call : Call) (c : MCPClient) : MCPClient :=
  match call with
  | AddServer n cfg => addServer n cfg c
  | RemoveServer n => removeServer n c
  | CreateSession io n ai => (createSession io n ai c).1.2
  | CloseSession io n => (closeSession io n c).1.2
  | CreateAllSessions io ai => (createAllSessions io ai c).1.2
  | CloseAllSessions io names => (closeAllSessions io names c).1.2
  end.

Definition after (calls : list Call) (c : MCPClient) : MCPClient :=
  fold_left (fun c call => exec call c) calls c.

(** *** Notions used in the statements, and sample data *)

(** How [createSession] ends for a name, read off the configuration and the
    remote side alone. *)
Definition session_outcome (io : Remote) (servers : list (string * JsObject))
    (name : string) (autoInitialize : bool) : Res MCPSession :=
  match config_of_lookup (js_get servers name) with
  | None => Throw (new_Error ("Server '" +:+ name +:+ "' not found in config"))
  | Some cfg =>
      match createConnectorFromConfig cfg with
      | Hangs => Hangs
      | Throw e => Throw e
      | Ok k =>
          if autoInitialize then
            match initialize_outcome io name (new_MCPSession k) with
            | Some e => Throw e
            | None => Ok (new_MCPSession k)
            end
          else Ok (new_MCPSession k)
      end
  end.

(** The names in [activeSessions] are distinct and each has a session
    record. *)
Definition active_tracked (c : MCPClient) : Prop :=
  NoDup (activeSessions c) /\
  (forall n, n ∈ activeSessions c -> is_Some (sessions c !! n)).

Definition two_server_client : MCPClient :=
  new_MCPClient (Some [("a", [("command", JStr "echo"); ("args", JArr ["hi"])]);
                       ("b", [("url", JStr "http://localhost:3000/mcp")])]).

(** The same client once both sessions exist. *)
Definition both_sessions_client : MCPClient :=
  {| mcpServers := mcpServers two_server_client;
     sessions :=
       <["b" := new_MCPSession
                  (HttpConnector (JStr "http://localhost:3000/mcp") JUndefined JUndefined
                                 (JBool false))]>
         (<["a" := new_MCPSession
                     (StdioConnector (JStr "echo") (JArr ["hi"]) JUndefined)]> ∅);
     activeSessions := ["a"; "b"] |}.

Definition remote_failing_disconnects : Remote :=
  {| initialize_outcome := fun _ _ => None;
     disconnect_outcome := fun _ _ => Rejects (new_Error "socket hang up") |}.

(** The disconnect of "b" stays pending. *)
Definition remote_b_pending : Remote :=
  {| initialize_outcome := fun _ _ => None;
     disconnect_outcome := fun name _ =>
       if bool_decide (name = "b") then NeverSettles else Fulfils |}.

Definition remote_b_down : Remote :=
  {| initialize_outcome := fun name _ =>
       if bool_decide (name = "b") then Some (new_Error "connect ECONNREFUSED") else None;
     disconnect_outcome := fun _ _ => Fulfils |}.

End ClientOps.

(* ===================================================================== *)
(** ** task_managers/base.ts: notions for restarted managers               *)
(* ===================================================================== *)

Module ConnMgrNotions.
Import Js ConnMgr.

(** Task [t] waits for the abort signal of controller [g], which [reset()]
    has replaced since and on which [abort()] was never called. *)
Definition orphaned {T} (t g : nat) (s : State T) : Prop :=
  tasks s !! t = Some (WaitingAbort g) /\ g < gen s /\ (g ∉ aborted s).

(** How a [start()] call ends when the [establishConnection()] of its task
    settles with [r]: it returns the connection or re-throws the rejection
    value, unless that value is falsy. *)
Definition start_outcome {T} (r : JsError + T) : JsError + T :=
  match r with
  | inr c => inr c
  | inl e =>
      if error_truthy e then inl e
      else inl (new_Error "Connection was not established")
  end.






End ConnMgrNotions.

(* ===================================================================== *)
(** ** connectors/base.ts: initialize(), the tools getter, the lifecycle   *)
(* ===================================================================== *)

Module HttpOps.
Import Js Eff Eff.Notations Http.

(** [initialize()], without the capabilities it returns.  [listTools] is
    how [client.listTools()] settles; its [tools] member may be missing. *)
Definition initialize (listTools : JsError + option (list Tool))
  : M HttpConnector unit :=
  let* cl := gets client in
  match cl with
  | None => throw (new_Error "MCP client is not connected")
  | Some _ =>
      log LDebug "Caching server capabilities & tools" ;;
      let* listToolsRes := await_res listTools in
      modify (set_toolsCache (Some (default [] listToolsRes))) ;;
      let* cache := gets toolsCache in
      log LDebug ("Fetched " +:+ num_toString (Z.of_nat (length (default [] cache)))
                  +:+ " tools from server")
  end.

(** The [tools] getter. *)
Definition tools (c : HttpConnector) : Res (list Tool) :=
  match toolsCache c with
  | None => Throw (new_Error "MCP client is not initialized; call initialize() first")
  | Some ts => Ok ts
  end.

(** [isClientConnected] *)
Definition isClientConnected (c : HttpConnector) : bool :=
  bool_decide (client c <> None).

(** The calls made on a connector, with [initialize()]. *)
Inductive Op :=
| OpConnect (http sse : Attempt)
| OpDisconnect (a : Attempt)
| OpInitialize (listTools : JsError + option (list Tool)).

Definition exec_op (op : Op) : M HttpConnector unit :=
  match op with
  | OpConnect http sse => connect http sse
  | OpDisconnect a => disconnect a
  | OpInitialize listTools => initialize listTools
  end.

Definition after_ops (ops : list Op) (c : HttpConnector) : HttpConnector :=
  fold_left (fun c op => (exec_op op c).1.2) ops c.

(** *** Notions used in the statements, and sample data *)

Definition manager_of (t : TransportType) : ManagerClass :=
  match t with
  | StreamableHttp => StreamableHttpConnectionManager
  | Sse => SseConnectionManager
  end.

(** Between two calls a connector either holds nothing, or is connected and
    holds a client and the connection manager of its transport. *)
Definition coherent (c : HttpConnector) : Prop :=
  if connected c then
    client c = Some tt /\
    exists t, transportType c = Some t /\ connectionManager c = Some (manager_of t)
  else
    client c = None /\ connectionManager c = None /\ toolsCache c = None.

Definition attempt_500 : Attempt :=
  {| construct_outcome := None;
     start_outcome := None;
     handshake_outcome := Some (StreamableHTTPError (Some 500%Z) "Internal Server Error");
     close_outcome := None; stop_outcome := None |}.

(** An attempt whose cleanup fails twice. *)
Definition attempt_dirty : Attempt :=
  {| construct_outcome := None; start_outcome := None; handshake_outcome := None;
     close_outcome := Some (new_Error "close failed");
     stop_outcome := Some (new_Error "stop failed") |}.

Definition connected_connector : HttpConnector :=
  (connect attempt_ok attempt_ok (new_HttpConnector "http://localhost:3000/mcp/" None)).1.2.

End HttpOps.

(* ===================================================================== *)
(** ** connectors/websocket.ts: disconnect() and cleanupResources()        *)
(* ===================================================================== *)

Module WSLife.
Import Js WS.

(** Where a [disconnect()] call is suspended. *)
Inductive DisconnectWait : Type :=
| AwaitReceiver      (* await this.receiverTask.catch(() => {}) *)
| AwaitStop          (* await this.connectionManager.stop() *)
| DisconnectReturned.

Global Instance DisconnectWait_eq_dec : EqDecision DisconnectWait.
Proof. solve_decision. Defined.

(** A connector with the fields [disconnect()] and [cleanupResources()]
    read and write.  [core] holds the pending map, the promises of the
    requests and the listeners of [receiveLoop()]; [receiverTask], [ws] and
    [connectionManager] tell whether the field is set; [disconnects] is
    indexed by call; [stopCalls] counts the calls of
    [connectionManager.stop()], the only place where the connector has the
    socket closed. *)
Record Connector := mkLife {
  core : WebSocketConnector;
  connected : bool;
  receiverTask : bool;
  ws : bool;
  connectionManager : bool;
  disconnects : list DisconnectWait;
  stopCalls : nat;
}.

(** The connector after a successful [connect()]. *)
Definition connected_connector : Connector :=
  mkLife WS.connected_connector true true true true [] 0.

(** [cleanupResources()] from [this.receiverTask = null] to its next
    suspension, and the rest of [disconnect()] if there is none; the result
    tells where the call is. *)
Definition cleanup_after_receiver (c : Connector) : Connector * DisconnectWait :=
  let core1 := rejectAll (new_Error "WebSocket disconnected") (core c) in
  if connectionManager c then
    (mkLife core1 (connected c) false (ws c) true (disconnects c) (S (stopCalls c)),
     AwaitStop)
  else
    (mkLife core1 false false (ws c) false (disconnects c) (stopCalls c),
     DisconnectReturned).

(** [cleanupResources()] after [connectionManager.stop()] returned, and the
    rest of [disconnect()]. *)
Definition cleanup_after_stop (c : Connector) : Connector :=
  mkLife (core c) false (receiverTask c) false false (disconnects c) (stopCalls c).

(** [disconnect()] up to its first suspension. *)
Definition call_disconnect (c : Connector) : Connector :=
  if negb (connected c) then
    mkLife (core c) (connected c) (receiverTask c) (ws c) (connectionManager c)
           (disconnects c ++ [DisconnectReturned]) (stopCalls c)
  else if receiverTask c && negb (receiverDone (core c)) then
    mkLife (core c) (connected c) (receiverTask c) (ws c) (connectionManager c)
           (disconnects c ++ [AwaitReceiver]) (stopCalls c)
  else
    let '(c1, w) := cleanup_after_receiver c in
    mkLife (core c1) (connected c1) (receiverTask c1) (ws c1) (connectionManager c1)
           (disconnects c1 ++ [w]) (stopCalls c1).

(** What the close event does for [disconnect()] call [i]. *)
Definition resume_receiver_wait (c : Connector) (i : nat) : Connector :=
  match disconnects c !! i with
  | Some AwaitReceiver =>
      let '(c1, w) := cleanup_after_receiver c in
      mkLife (core c1) (connected c1) (receiverTask c1) (ws c1)
             (connectionManager c1) (<[i := w]> (disconnects c1)) (stopCalls c1)
  | _ => c
  end.

(** The calls waiting for the receive loop go on, in the order in which they
    were made. *)
Definition resume_receiver_waits (c : Connector) : Connector :=
  fold_left resume_receiver_wait (seq 0 (length (disconnects c))) c.

Inductive Event :=
| Socket (ev : WS.Event)       (* a request, a send error, a frame, the close event *)
| CallDisconnect               (* the user calls disconnect() *)
| StopSettled (i : nat).       (* connectionManager.stop() of call i returns *)

Definition is_close (ev : Event) : bool :=
  match ev with Socket Close => true | _ => false end.

Definition step (ev : Event) (c : Connector) : Connector :=
  match ev with
  | Socket (Send id) =>
      (* sendRequest throws when this.ws is null *)
      if ws c then
        mkLife (WS.step (Send id) (core c)) (connected c) (receiverTask c) (ws c)
               (connectionManager c) (disconnects c) (stopCalls c)
      else c
  | Socket Close =>
      resume_receiver_waits
        (mkLife (WS.step Close (core c)) (connected c) (receiverTask c) (ws c)
                (connectionManager c) (disconnects c) (stopCalls c))
  | Socket ev' =>
      mkLife (WS.step ev' (core c)) (connected c) (receiverTask c) (ws c)
             (connectionManager c) (disconnects c) (stopCalls c)
  | CallDisconnect => call_disconnect c
  | StopSettled i =>
      match disconnects c !! i with
      | Some AwaitStop =>
          let c1 := cleanup_after_stop c in
          mkLife (core c1) (connected c1) (receiverTask c1) (ws c1)
                 (connectionManager c1) (<[i := DisconnectReturned]> (disconnects c1))
                 (stopCalls c1)
      | _ => c
      end
  end.

Definition run (evs : list Event) (c : Connector) : Connector :=
  fold_left (fun c ev => step ev c) evs c.

(** *** Notions used in the statements *)

(** The socket is open and nothing has asked for it to be closed: every
    [disconnect()] call made so far waits for the receive loop. *)
Definition open_and_waiting (c : Connector) : Prop :=
  connected c = true /\ receiverTask c = true /\ ws c = true /\
  connectionManager c = true /\
  receiverDone (core c) = false /\ stopCalls c = 0 /\
  Forall (fun w => w = AwaitReceiver) (disconnects c).

(** Request [k] is unsettled and no entry of the pending map leads to it. *)
Definition abandoned (k : nat) (c : WebSocketConnector) : Prop :=
  promise c k = Some Pending /\ (forall id, (id, k) ∉ pending c).

Definition is_send_failed (k : nat) (ev : WS.Event) : bool :=
  match ev with SendFailed k' _ => bool_decide (k' = k) | _ => false end.

(** The socket has closed, nothing is pending, and the connection manager
    is still there. *)
Definition closed_and_held (c : Connector) : Prop :=
  connected c = true /\ ws c = true /\ connectionManager c = true /\
  pending (core c) = [].

(** A reply frame. *)
Definition reply (id : string) (result : option string) (error : option JsError)
  : option Message :=
  Some {| msg_id := Some id; msg_result := result; msg_error := error |}.

End WSLife.

(* ===================================================================== *)
(** ** managers/tools/*.ts: notions for the error paths                    *)
(* ===================================================================== *)

Module ManagerNotions.
Import Js Eff Eff.Notations Config Client Manager.

Definition is_connect (i : Invocation) : bool :=
  match i with ConnectToServer _ _ => true | _ => false end.

(** The replies of the error paths. *)
Definition connect_failed_reply (serverName : string) (e : JsError) : string :=
  "Failed to connect to server '" +:+ serverName +:+ "': " +:+ err_toString e.

Definition add_failed_reply (serverName : string) (e : JsError) : string :=
  "Failed to add or connect to server '" +:+ serverName +:+ "': " +:+ err_message e.

(** The management tools a manager exposes. *)
Definition managementTools (m : ServerManager) : list Tool :=
  default defaultManagementTools (overrideManagementTools m).

(** A world in which the adapter fails. *)
Definition broken_adapter_world : World :=
  {| remote := {| initialize_outcome := fun _ _ => None;
                  disconnect_outcome := fun _ _ => Fulfils |};
     createToolsFromConnectors := fun _ => Throw (new_Error "tools/list timed out") |}.

(** A world in which the adapter rejects with [null]. *)
Definition null_rejecting_world : World :=
  {| remote := {| initialize_outcome := fun _ _ => None;
                  disconnect_outcome := fun _ _ => Fulfils |};
     createToolsFromConnectors := fun _ => Throw (Thrown JNull) |}.

(** A world in which [initialize()] of every session rejects with
    [undefined]. *)
Definition undefined_rejecting_world : World :=
  {| remote := {| initialize_outcome := fun _ _ => Some (Thrown JUndefined);
                  disconnect_outcome := fun _ _ => Fulfils |};
     createToolsFromConnectors := fun _ => Ok [] |}.

(** How add-server-from-config ends when the session creation or the
    adapter rejects with [e]: the [catch] block reads [e.message], which
    throws a [TypeError] when [e] is [null] or [undefined]. *)
Definition add_failed_result (serverName : string) (e : JsError) : Res string :=
  if is_nullish e then Throw (message_TypeError e)
  else Ok (add_failed_reply serverName e).

(** A server configuration from which no connector can be built. *)
Definition empty_config : JsObject := [].

End ManagerNotions.

(* ===================================================================== *)
(** ** adapters/base.ts and adapters/langchain_adapter.ts                  *)
(* ===================================================================== *)

Module Adapter.
Import Js Eff Eff.Notations Http HttpOps.

(** The fields of a [BaseAdapter].  [connectorToolMap] is a [Map] keyed by
    connector object: a connector is named by a number. *)
Record BaseAdapter := mkAdapter {
  disallowedTools : list string;
  connectorToolMap : gmap nat (list Tool);
}.

(** [new LangChainAdapter(disallowedTools)] *)
Definition new_BaseAdapter (optDisallowedTools : option (list string)) : BaseAdapter :=
  mkAdapter (default [] optDisallowedTools) ∅.

(** [LangChainAdapter.convertTool]: [None] stands for [null].  The converted
    tool is given by its name and description. *)
Definition convertTool (a : BaseAdapter) (mcpTool : Tool) : option Tool :=
  if bool_decide (tool_name mcpTool ∈ disallowedTools a) then None
  else Some {| tool_name := tool_name mcpTool;
               tool_description := tool_description mcpTool |}.

(** [checkConnectorInitialized]: the [tools] getter of the connector is
    read, and it throws while nothing is cached. *)
Definition checkConnectorInitialized : M HttpConnector bool :=
  let* c := get in
  match tools c with
  | Throw e => throw e
  | Ok ts => ret (negb (Nat.eqb (length ts) 0))
  | Hangs => hang
  end.

(** [ensureConnectorInitialized]; [listTools] settles the [listTools]
    request of [connector.initialize()]. *)
Definition ensureConnectorInitialized (listTools : JsError + option (list Tool))
  : M HttpConnector bool :=
  let* initialized := checkConnectorInitialized in
  if negb initialized then
    log LDebug "Connector doesn't have tools, initializing it" ;;
    try_catch
      (initialize listTools ;; ret true)
      (fun err =>
         log LError ("Error initializing connector: " +:+ err_toString err) ;;
         ret false)
  else ret true.

Definition on_connector {A} (m : M HttpConnector A) : M (BaseAdapter * HttpConnector) A :=
  zoom snd (fun c p => (p.1, c)) m.

(** [loadToolsForConnector(connector)] for connector number [k]. *)
Definition loadToolsForConnector (k : nat) (listTools : JsError + option (list Tool))
  : M (BaseAdapter * HttpConnector) (list Tool) :=
  let* a := gets fst in
  match connectorToolMap a !! k with
  | Some cached =>
      log LDebug ("Returning " +:+ num_toString (Z.of_nat (length cached))
                  +:+ " existing tools for connector") ;;
      ret cached
  | None =>
      let* success := on_connector (ensureConnectorInitialized listTools) in
      if negb success then ret []
      else
        let* c := gets snd in
        let* connector_tools :=
          match tools c with Throw e => throw e | Ok ts => ret ts | Hangs => hang end in
        let connectorTools := omap (convertTool a) connector_tools in
        modify (fun p =>
          (mkAdapter (disallowedTools p.1)
                     (<[k := connectorTools]> (connectorToolMap p.1)), p.2)) ;;
        log LDebug ("Loaded " +:+ num_toString (Z.of_nat (length connectorTools))
                    +:+ " new tools for connector: "
                    +:+ join ", " (tool_name <$> connectorTools)) ;;
        ret connectorTools
  end.

(** *** Notions used in the statements, and sample data *)

(** The tools of a list that an adapter lets through. *)
Definition allowed (a : BaseAdapter) (ts : list Tool) : list Tool :=
  filter (fun t => tool_name t ∉ disallowedTools a) ts.

Definition not_initialized_error : JsError :=
  new_Error "MCP client is not initialized; call initialize() first".

Definition read_tool : Tool := {| tool_name := "read"; tool_description := "Read a file" |}.
Definition write_tool : Tool := {| tool_name := "write"; tool_description := "Write a file" |}.

(** A connected and initialized connector that offers two tools. *)
Definition initialized_connector : HttpConnector :=
  after_ops [OpConnect attempt_ok attempt_ok;
             OpInitialize (inr (Some [read_tool; write_tool]))]
            (new_HttpConnector "http://localhost:3000/mcp" None).

End Adapter.

(* ===================================================================== *)
(** ** client.ts closeSession() on a WebSocket session                     *)
(* ===================================================================== *)

Module CloseSession.
Import Js Eff Config Client.

Definition is_websocket (k : Connector) : bool :=
  match k with WebSocketConnector _ _ _ => true | _ => false end.

(** [session.disconnect()] awaits [connector.disconnect()].  For a connected
    WebSocket connector that call is [WSLife.CallDisconnect]; [evs] is all
    that happens on the connector afterwards.  The promise is fulfilled once
    the call has returned, and stays pending otherwise
    ([WebSocketConnector.disconnect()] does not reject: [cleanupResources()]
    swallows the error of the receive loop, and [closeConnection()] only
    resolves). *)
Definition ws_disconnect_settlement (evs : list WSLife.Event) : Settlement :=
  let c := WSLife.run (WSLife.CallDisconnect :: evs) WSLife.connected_connector in
  match WSLife.disconnects c !! 0 with
  | Some WSLife.DisconnectReturned => Fulfils
  | _ => NeverSettles
  end.

(** A remote side whose WebSocket servers behave as [evs] says after
    [disconnect()] is called; every other [disconnect()] is fulfilled. *)
Definition ws_remote (evs : list WSLife.Event) : Remote :=
  {| initialize_outcome := fun _ _ => None;
     disconnect_outcome := fun _ session =>
       if is_websocket (connector session) then ws_disconnect_settlement evs
       else Fulfils |}.

(** The session of the server "ws" of [ws_snake_client], and the client
    once [createSession('ws')] has returned. *)
Definition ws_session : MCPSession :=
  new_MCPSession (WebSocketConnector (JStr "ws://localhost:8080") JUndefined JUndefined).

Definition ws_session_client : MCPClient :=
  {| mcpServers := mcpServers ws_snake_client;
     sessions := {[ "ws" := ws_session ]};
     activeSessions := ["ws"] |}.

End CloseSession.

(* ===================================================================== *)
(** ** MCPClient: the connector of a new session, closing a session       *)
(* ===================================================================== *)

Module ClientFacts.
Import Js Eff Eff.Notations Config Client.

Lemma has_key_false_get_prop (o : JsObject) k :
  has_key k o = false -> get_prop o k = JUndefined.
Proof.
  induction o as [|[k' v] o IH]; simpl; [done|].
  case_bool_decide; [done | exact IH].
Qed.

Example createConnector_stdio :
  createConnectorFromConfig [("command", JStr "echo"); ("args", JArr ["hi"])]
  = Ok (StdioConnector (JStr "echo") (JArr ["hi"]) JUndefined).
Proof. reflexivity. Qed.

Example createConnector_ws :
  createConnectorFromConfig [("ws_url", JStr "ws://h")]
  = Ok (WebSocketConnector (JStr "ws://h") JUndefined JUndefined).
Proof. reflexivity. Qed.

(** A [url] that is not a string makes the constructor throw. *)
Example createConnector_url_not_string :
  createConnectorFromConfig [("url", JNum 8080)]
  = Throw (Error "TypeError" "baseUrl.replace is not a function").
Proof. reflexivity. Qed.

(** [command] together with [args] wins over [url]; [command] alone does not. *)
Example createConnector_precedence :
  kind_of <$> [StdioConnector (JStr "npx") (JArr []) JUndefined] = [Stdio] /\
  createConnectorFromConfig
    [("url", JStr "http://h"); ("command", JStr "npx"); ("args", JArr [])]
  = Ok (StdioConnector (JStr "npx") (JArr []) JUndefined) /\
  createConnectorFromConfig [("url", JStr "http://h"); ("command", JStr "npx")]
  = Ok (HttpConnector (JStr "http://h") JUndefined JUndefined (JBool false)).
Proof. repeat split. Qed.

(** Unfolds the monadic plumbing so that a method body computes. *)
Ltac run_eff :=
  unfold createSession, closeSession, config_of_lookup, js_get,
         lift_res, when, await_unit, await_res, await_settlement, hang,
         try_finally, try_catch, bind, gets, get, modify, log, ret, throw, zoom;
  simpl.

(** The result of [createSession] when the configured entry is [cfg] and the
    remote handshake succeeds: the connector is the one chosen by
    [createConnectorFromConfig]. *)
Lemma createSession_result io c name cfg :
  obj_get (servers_or_empty c) name = Some cfg ->
  (forall s, initialize_outcome io name s = None) ->
  (createSession io name true c).1.1
  = match createConnectorFromConfig cfg with
    | Ok k => Ok (new_MCPSession k)
    | Throw e => Throw e
    | Hangs => Hangs
    end.
Proof.
  intros Hcfg Hinit. run_eff.
  destruct (length (js_keys (servers_or_empty c)) =? 0)%nat; simpl;
    rewrite Hcfg; simpl; destruct (createConnectorFromConfig cfg) as [k|e|]; simpl;
    try reflexivity;
    rewrite Hinit; simpl;
    by destruct (negb (bool_decide (name ∈ activeSessions c))).
Qed.

Lemma obj_get_keys {V} (o : list (string * V)) k v :
  obj_get o k = Some v -> k ∈ obj_keys o.
Proof.
  unfold obj_keys. induction o as [|[k0 v0] o IH]; simpl; [done|].
  case_bool_decide as E.
  - intros _. subst. apply elem_of_cons; by left.
  - intros H. apply elem_of_cons; right. by apply IH.
Qed.

(** [Object.keys] lists the own property names, each as often as the
    association list has it. *)
Lemma own_keys_order_Permutation (names : list string) :
  own_keys_order names ≡ₚ names.
Proof.
  unfold own_keys_order.
  rewrite merge_sort_Permutation.
  induction names as [|k names IH]; [done|].
  csimpl. destruct (array_index k) as [n|] eqn:E; csimpl.
  - rewrite filter_cons_False by (rewrite E; naive_solver).
    by rewrite IH.
  - rewrite filter_cons_True by done.
    rewrite <- Permutation_middle. by rewrite IH.
Qed.

Lemma elem_of_js_keys {V} (o : list (string * V)) k :
  k ∈ js_keys o <-> k ∈ obj_keys o.
Proof. unfold js_keys. by rewrite own_keys_order_Permutation. Qed.

Lemma length_js_keys {V} (o : list (string * V)) :
  length (js_keys o) = length (obj_keys o).
Proof. unfold js_keys. by rewrite own_keys_order_Permutation. Qed.

Lemma obj_get_names c k v :
  obj_get (servers_or_empty c) k = Some v -> k ∈ getServerNames c.
Proof. intros H. apply elem_of_js_keys. by eapply obj_get_keys. Qed.


(** C9, as the code has it.  [createSession] picks the connector by key
    presence in the order command-and-args, then url, then ws_url (snake
    case): both [command] and [args] give a stdio connector; otherwise [url]
    (a string) gives an HTTP connector; otherwise [ws_url] gives a WebSocket
    connector built from [ws_url], [headers] and [auth_token]; a
    configuration with none of these raises the error "Cannot determine
    connector type from config". *)
Theorem createSession_connector_precedence io c name (cfg : JsObject) :
  obj_get (servers_or_empty c) name = Some cfg ->
  (forall s, initialize_outcome io name s = None) ->
  let r := (createSession io name true c).1.1 in
  (("command" in? cfg) && ("args" in? cfg) = true ->
     exists s, r = Ok s /\ kind_of (connector s) = Stdio) /\
  (("command" in? cfg) && ("args" in? cfg) = false -> ("url" in? cfg) = true ->
   forall u, get_prop cfg "url" = JStr u ->
     exists s, r = Ok s /\ kind_of (connector s) = Http) /\
  (("command" in? cfg) && ("args" in? cfg) = false -> ("url" in? cfg) = false ->
   ("ws_url" in? cfg) = true ->
     exists s, r = Ok s /\
       connector s = WebSocketConnector (get_prop cfg "ws_url")
                       (get_prop cfg "headers") (get_prop cfg "auth_token")) /\
  (("command" in? cfg) && ("args" in? cfg) = false -> ("url" in? cfg) = false ->
   ("ws_url" in? cfg) = false ->
     r = Throw (new_Error "Cannot determine connector type from config")).
Proof.
  intros Hcfg Hinit r. subst r.
  rewrite (createSession_result io c name cfg Hcfg Hinit).
  unfold createConnectorFromConfig.
  repeat split.
  - intros ->. eexists; split; reflexivity.
  - intros -> -> u ->. eexists; split; reflexivity.
  - intros -> -> ->. eexists; split; reflexivity.
  - intros -> -> ->. reflexivity.
Qed.

Lemma createSession_connector_precedence_witness :
  let r := (createSession remote_ok "ws" true ws_snake_client).1.1 in
  exists s, r = Ok s /\
    connector s = WebSocketConnector (JStr "ws://localhost:8080") JUndefined JUndefined.
Proof.
  refine (proj1 (proj2 (proj2
            (createSession_connector_precedence remote_ok ws_snake_client "ws"
               [("ws_url", JStr "ws://localhost:8080")] _ _))) _ _ _);
    reflexivity.
Defined.

(** C9, counterexample.  The configuration with the single key [wsUrl]
    (value ws://localhost:8080) has no [command], [args] or [url]; yet
    [createSession] builds no WebSocket connector for it: it throws. *)
Lemma createSession_wsUrl_rejected :
  ("wsUrl" in? [("wsUrl", JStr "ws://localhost:8080")]) = true /\
  (createSession remote_ok "ws" true ws_camel_client).1.1
    = Throw (new_Error "Cannot determine connector type from config") /\
  ~ (exists s, (createSession remote_ok "ws" true ws_camel_client).1.1 = Ok s
               /\ kind_of (connector s) = WebSocket).
Proof.
  split; [reflexivity|]. split; [reflexivity|].
  intros [s [H _]]. vm_compute in H. discriminate H.
Qed.

(** When the [disconnect()] of the session settles, [closeSession] returns
    normally with the session record and the active name removed; a
    rejection is logged at level error and not re-thrown. *)
Lemma closeSession_settled io name c session :
  sessions c !! name = Some session ->
  disconnect_outcome io name session <> NeverSettles ->
  exists l,
    closeSession io name c
    = (Ok tt,
       {| mcpServers := mcpServers c;
          sessions := delete name (sessions c);
          activeSessions := filter (fun n => n <> name) (activeSessions c) |}, l) /\
    (forall e, disconnect_outcome io name session = Rejects e ->
       (LError, "Error closing session for server '" +:+ name +:+ "': "
                +:+ err_toString e) ∈ l).
Proof.
  intros Hs Hd. run_eff. rewrite Hs.
  destruct (disconnect_outcome io name session) as [|e|] eqn:E; [| |done]; simpl;
    eexists; (split; [reflexivity|]).
  - intros e' [=].
  - intros e' [= <-]. set_solver.
Qed.

(** When it stays pending, [closeSession] never returns: the [finally] block
    is not reached and the client is left as it was. *)
Lemma closeSession_pending io name c session :
  sessions c !! name = Some session ->
  disconnect_outcome io name session = NeverSettles ->
  closeSession io name c
  = (Hangs, c, [(LDebug, "Closing session for server " +:+ name)]).
Proof. intros Hs Hd. run_eff. rewrite Hs, Hd. reflexivity. Qed.

End ClientFacts.

(* ===================================================================== *)
(** ** ConnectionManager: stop() without start(), and start()/stop() cycles *)
(* ===================================================================== *)

Module ConnMgrFacts.
Import Js ConnMgr.

Section Facts.
Context {T : Type}.
Implicit Types (s : State T) (ev : Event T) (evs : list (Event T)).

Ltac unfold_ops :=
  unfold step, call_start, call_stop, establish_settled, close_settled,
         abort, waitForAbort, enter_finally, readyResolver, doneResolver,
         settle_stops, reset,
         set_connection, set_exception, set_tasks, set_readyResolved,
         set_doneResolved, set_aborted, set_starts, set_stops,
         set_established, set_closeCalls in *.

(** A normal cycle: start, the connection is established, stop, the
    connection is closed. *)
Example normal_cycle (c : T) :
  let s := run [CallStart; EstablishSettled 0 (inr c); CallStop; CloseSettled 0 None] (new : State T) in
  starts s = [StartEnded (inr c)] /\ stops s = [StopReturned] /\
  closeCalls s = [c] /\ connection s = None.
Proof. repeat split. Qed.

(** A failed establishment: start() re-throws (a truthy rejection value),
    stop() returns, and closeConnection is not called. *)
Example failed_cycle (e : JsError) :
  error_truthy e = true ->
  let s := run [CallStart; EstablishSettled 0 (inl e); CallStop] (new : State T) in
  starts s = [StartEnded (inl e)] /\ stops s = [StopReturned] /\ closeCalls s = [].
Proof. intros He. cbv -[error_truthy]. rewrite He. repeat split. Qed.

(** A falsy rejection value is not re-thrown: start() reports that no
    connection was established. *)
Example failed_cycle_falsy :
  let s := run [CallStart; EstablishSettled 0 (inl (Thrown (JStr EmptyString))); CallStop]
               (new : State T) in
  starts s = [StartEnded (inl (new_Error "Connection was not established"))].
Proof. reflexivity. Qed.

(** stop() during establishment: the task closes the connection as soon
    as it is established. *)
Example stop_while_establishing (c : T) :
  let s := run [CallStart; CallStop; EstablishSettled 0 (inr c); CloseSettled 0 None] (new : State T) in
  starts s = [StartEnded (inr c)] /\ stops s = [StopReturned] /\ closeCalls s = [c].
Proof. repeat split. Qed.

Lemma lookup_app_keep {A} (l : list A) (x y : A) (i : nat) :
  l !! i = Some y -> (l ++ [x]) !! i = Some y.
Proof.
  intros H. rewrite lookup_app_l; [done | by eapply lookup_lt_Some].
Qed.

(** *** What the task code can change *)

Lemma frame_refl s : frame s s.
Proof. unfold frame; auto. Qed.

Lemma frame_trans s1 s2 s3 : frame s1 s2 -> frame s2 s3 -> frame s1 s3.
Proof.
  intros (Hg & Hl & Hs & Hd) (Hg' & Hl' & Hs' & Hd').
  repeat split; try congruence.
  intros g Hin. destruct (Hd' g Hin) as [H|H]; [auto | right; congruence].
Qed.

Ltac frame_tac :=
  unfold frame; unfold_ops; simpl;
  split; [done|]; split; [by rewrite ?length_insert|]; split; [done|];
  let g := fresh "g" in let Hg := fresh "Hg" in
  intros g Hg;
  first [ by left
        | apply elem_of_cons in Hg as [-> | Hg]; [by right | by left] ].

Lemma frame_enter_finally t s : frame s (enter_finally t s).
Proof. unfold enter_finally. destruct (connection s); frame_tac. Qed.

Lemma frame_readyResolver s : frame s (readyResolver s).
Proof. frame_tac. Qed.

Lemma frame_waitForAbort t s : frame s (waitForAbort t s).
Proof.
  unfold waitForAbort. case_bool_decide; [apply frame_enter_finally|].
  frame_tac.
Qed.

Lemma frame_fold_resume g (l : list nat) s :
  frame s (fold_left
             (fun s t => match tasks s !! t with
                         | Some (WaitingAbort g') =>
                             if bool_decide (g' = g) then enter_finally t s else s
                         | _ => s
                         end) l s).
Proof.
  revert s. induction l as [|t l IH]; intros s; simpl; [apply frame_refl|].
  eapply frame_trans; [|apply IH].
  destruct (tasks s !! t) as [[]|]; try apply frame_refl.
  case_bool_decide; [apply frame_enter_finally | apply frame_refl].
Qed.

Lemma frame_abort s : frame s (abort s).
Proof.
  unfold abort. case_bool_decide; [apply frame_refl|].
  unfold resume_aborted.
  eapply frame_trans; [|apply frame_fold_resume].
  frame_tac.
Qed.

Lemma frame_establish_settled t r s : frame s (establish_settled t r s).
Proof.
  unfold establish_settled.
  destruct (tasks s !! t) as [[]|]; try apply frame_refl.
  destruct r as [e|c].
  - eapply frame_trans; [|apply frame_enter_finally].
    eapply frame_trans; [|apply frame_readyResolver].
    frame_tac.
  - eapply frame_trans; [|apply frame_waitForAbort].
    eapply frame_trans; [|apply frame_readyResolver].
    frame_tac.
Qed.

Lemma frame_close_settled t r s : frame s (close_settled t r s).
Proof.
  unfold close_settled.
  destruct (tasks s !! t) as [[]|]; try apply frame_refl.
  frame_tac.
Qed.

(** With no task at all, nothing can resolve a done promise. *)
Lemma abort_no_tasks s :
  tasks s = [] -> doneResolved (abort s) = doneResolved s /\ tasks (abort s) = [].
Proof.
  intros Ht. unfold abort. case_bool_decide; [auto|].
  unfold resume_aborted. unfold_ops; simpl. rewrite Ht. simpl. auto.
Qed.

(** *** stop() on an instance that was never started *)

Lemma settle_stops_blocked s :
  first_stop_blocked s -> first_stop_blocked (settle_stops s).
Proof.
  intros (Hs & Hd & Ht). unfold first_stop_blocked, settle_stops, set_stops; simpl.
  split; [|auto].
  rewrite list_lookup_fmap, Hs. simpl. by rewrite bool_decide_eq_false_2.
Qed.

Lemma frame_blocked s s' :
  frame s s' -> 1 <= gen s -> first_stop_blocked s -> first_stop_blocked s'.
Proof.
  intros (Hg & Hl & Hs & Hd) Hgen (Hs0 & Hd0 & _).
  split; [by rewrite Hs|]. split.
  - intros Hin. destruct (Hd 0 Hin) as [H|H]; [done | lia].
  - right. lia.
Qed.

Lemma step_blocked ev s :
  first_stop_blocked s -> first_stop_blocked (step ev s).
Proof.
  intros Hb. unfold step. apply settle_stops_blocked.
  pose proof Hb as (Hs & Hd & Ht).
  destruct ev as [| |t r|t r].
  - (* start(): reset() replaces the done promise *)
    unfold first_stop_blocked, call_start, reset; simpl.
    split; [done|]. split; [done|]. right; lia.
  - (* another stop() *)
    unfold call_stop. destruct (task s) as [t|].
    + destruct Ht as [Ht|Hgen].
      * destruct (abort_no_tasks s Ht) as [Hd' Ht'].
        destruct (frame_abort s) as (_ & _ & Hs' & _).
        unfold set_stops, first_stop_blocked; simpl.
        rewrite Hd', Hs'. split; [|by auto].
        by apply lookup_app_keep.
      * assert (Hb' : first_stop_blocked (abort s))
          by (eapply frame_blocked; [apply frame_abort|done|done]).
        destruct Hb' as (Hs' & Hd' & Ht').
        unfold set_stops, first_stop_blocked; simpl. split; [|by auto].
        by apply lookup_app_keep.
    + unfold set_stops, first_stop_blocked; simpl. split; [|by auto].
      by apply lookup_app_keep.
  - destruct Ht as [Ht|Hgen].
    + unfold establish_settled. rewrite Ht. simpl. by unfold first_stop_blocked; auto.
    + eapply frame_blocked; [apply frame_establish_settled|done|done].
  - destruct Ht as [Ht|Hgen].
    + unfold close_settled. rewrite Ht. simpl. by unfold first_stop_blocked; auto.
    + eapply frame_blocked; [apply frame_close_settled|done|done].
Qed.

Lemma run_blocked evs s :
  first_stop_blocked s -> first_stop_blocked (run evs s).
Proof.
  revert s. induction evs as [|ev evs IH]; intros s Hb; simpl; [done|].
  apply IH. by apply step_blocked.
Qed.

(** C2, evaluated on the code.  On a new instance, [stop()] skips the
    cancellation (there is no task) and then awaits the done promise made
    by the constructor.  Only a connection task resolves a done promise, and
    [start()] first replaces the promise by a new one: whatever happens
    afterwards, that [stop()] call stays suspended and never returns. *)
Theorem stop_before_start_never_returns evs :
  let s := run evs (step CallStop (new : State T)) in
  stops s !! 0 = Some (AwaitDone 0) /\ (0 ∉ doneResolved s).
Proof.
  assert (H : first_stop_blocked (run evs (step CallStop (new : State T)))).
  { apply run_blocked. unfold first_stop_blocked; simpl.
    split; [done|]. split; [apply not_elem_of_nil | by left]. }
  destruct H as (H1 & H2 & _). auto.
Qed.

(** *** One start()/stop() cycle *)

Lemma cycle_inv_settle_stops c0 e0 b s :
  cycle_inv c0 e0 b s -> cycle_inv c0 e0 b (settle_stops s).
Proof.
  intros H; inversion H; subst;
    [ apply ci_idle | eapply ci_establishing | eapply ci_waiting
    | eapply ci_closing | eapply ci_closed ]; eauto.
Qed.

Lemma cycle_inv_readyResolver c0 e0 b s :
  cycle_inv c0 e0 b s -> cycle_inv c0 e0 b (readyResolver s).
Proof.
  intros H; inversion H; subst;
    [ apply ci_idle | eapply ci_establishing | eapply ci_waiting
    | eapply ci_closing | eapply ci_closed ]; eauto.
Qed.

(** In a list of finished tasks followed by one task, only the last one
    can be found in a phase other than [Finished]. *)
Lemma lookup_live pre (p q : Phase) (t : nat) :
  Forall (fun p => p = Finished) pre ->
  (pre ++ [p]) !! t = Some q -> q <> Finished ->
  t = length pre /\ q = p.
Proof.
  intros Hpre Hl Hq.
  destruct (decide (t < length pre)) as [Hlt|Hge].
  - rewrite lookup_app_l in Hl by done.
    rewrite Forall_lookup in Hpre. by apply Hpre in Hl.
  - rewrite lookup_app_r in Hl by lia.
    destruct (t - length pre) as [|n] eqn:E; simpl in Hl; [|done].
    inversion Hl. split; [lia | done].
Qed.

Lemma lookup_all_finished (l : list Phase) (q : Phase) (t : nat) :
  Forall (fun p => p = Finished) l -> l !! t = Some q -> q = Finished.
Proof. rewrite Forall_lookup. intros H Hl. by apply H in Hl. Qed.

Lemma insert_last pre (p q : Phase) :
  <[length pre := q]> (pre ++ [p]) = pre ++ [q].
Proof.
  rewrite insert_app_r_alt by lia. by rewrite Nat.sub_diag.
Qed.

Lemma Forall_finished_snoc pre :
  Forall (fun p => p = Finished) pre ->
  Forall (fun p => p = Finished) (pre ++ [Finished]).
Proof. intros H. apply Forall_app; split; [done | by constructor]. Qed.

(** [abort()] resumes nothing among finished tasks. *)
Lemma fold_resume_finished g (l : list nat) s :
  (forall t q, tasks s !! t = Some q -> t ∈ l -> forall g', q <> WaitingAbort g') ->
  fold_left
    (fun s t => match tasks s !! t with
                | Some (WaitingAbort g') =>
                    if bool_decide (g' = g) then enter_finally t s else s
                | _ => s
                end) l s = s.
Proof.
  induction l as [|t l IH]; intros H; simpl; [done|].
  destruct (tasks s !! t) as [q|] eqn:E.
  - destruct q; try (apply IH; intros; eapply H; eauto; set_solver).
    exfalso. eapply (H t (WaitingAbort g0)); [done | set_solver | done].
  - apply IH; intros; eapply H; eauto; set_solver.
Qed.

Lemma resume_aborted_last g pre p s :
  tasks s = pre ++ [p] -> Forall (fun p => p = Finished) pre ->
  resume_aborted g s
  = match p with
    | WaitingAbort g' =>
        if bool_decide (g' = g) then enter_finally (length pre) s else s
    | _ => s
    end.
Proof.
  intros Ht Hpre. unfold resume_aborted.
  replace (length (tasks s)) with (S (length pre))
    by (rewrite Ht, length_app; simpl; lia).
  rewrite seq_S, fold_left_app; simpl.
  rewrite fold_resume_finished.
  - rewrite Ht, lookup_app_r by lia. by rewrite Nat.sub_diag.
  - intros t q Hl Hin g' ->. rewrite Ht in Hl.
    apply elem_of_seq in Hin.
    rewrite lookup_app_l in Hl by lia.
    by apply (lookup_all_finished pre) in Hl.
Qed.

Lemma resume_aborted_idle g s :
  Forall (fun p => p = Finished) (tasks s) -> resume_aborted g s = s.
Proof.
  intros H. unfold resume_aborted. apply fold_resume_finished.
  intros t q Hl _ g' ->. by apply (lookup_all_finished (tasks s)) in Hl.
Qed.

Lemma cycle_inv_call_start c0 e0 s :
  cycle_inv c0 e0 false s -> cycle_inv c0 e0 true (call_start s).
Proof.
  intros H; inversion H as [s' b [Hfin Hconn] Hc He| | | |]; subst.
  eapply (ci_establishing _ _ _ (tasks s)); simpl; auto.
Qed.

Lemma cycle_inv_abort c0 e0 b s :
  cycle_inv c0 e0 b s -> cycle_inv c0 e0 b (abort s).
Proof.
  intros H. unfold abort. case_bool_decide as Hab; [done|].
  set (s1 := set_aborted (gen s :: aborted s) s).
  inversion H as [s' b' [Hfin Hconn] Hc He
                 |s' pre Ht Hpre Hconn Hc He
                 |s' pre g c Ht Hpre Hconn Hc He
                 |s' pre c Ht Hpre Hconn Hc He
                 |s' c [Hfin Hconn] Hc He]; subst.
  - rewrite resume_aborted_idle by done. by apply ci_idle.
  - rewrite (resume_aborted_last _ pre Establishing) by done.
    by eapply ci_establishing.
  - rewrite (resume_aborted_last _ pre (WaitingAbort g)) by done.
    case_bool_decide; [|by eapply ci_waiting].
    unfold enter_finally. subst s1. simpl. rewrite Hconn.
    eapply (ci_closing _ _ _ pre c); simpl; auto.
    rewrite Ht. apply insert_last.
  - rewrite (resume_aborted_last _ pre Closing) by done.
    by eapply ci_closing.
  - rewrite resume_aborted_idle by done. by eapply ci_closed.
Qed.

Lemma cycle_inv_call_stop c0 e0 b s :
  cycle_inv c0 e0 b s -> cycle_inv c0 e0 b (call_stop s).
Proof.
  intros H. unfold call_stop.
  destruct (task s) as [t|].
  - apply cycle_inv_abort in H. revert H. generalize (abort s). intros s1 H.
    inversion H; subst;
      [ apply ci_idle | eapply ci_establishing | eapply ci_waiting
      | eapply ci_closing | eapply ci_closed ]; eauto.
  - inversion H; subst;
      [ apply ci_idle | eapply ci_establishing | eapply ci_waiting
      | eapply ci_closing | eapply ci_closed ]; eauto.
Qed.

Lemma cycle_inv_establish_settled c0 e0 b t r s :
  cycle_inv c0 e0 b s -> cycle_inv c0 e0 b (establish_settled t r s).
Proof.
  intros H. unfold establish_settled.
  destruct (tasks s !! t) as [q|] eqn:Hl; [|done].
  destruct q; try done.
  inversion H as [s' b' [Hfin Hconn] Hc He
                 |s' pre Ht Hpre Hconn Hc He
                 |s' pre g c Ht Hpre Hconn Hc He
                 |s' pre c Ht Hpre Hconn Hc He
                 |s' c [Hfin Hconn] Hc He]; subst.
  - by apply (lookup_all_finished (tasks s)) in Hl.
  - rewrite Ht in Hl. apply lookup_live in Hl as [-> _]; [|done|done].
    destruct r as [e|c].
    + (* establishment failed: nothing to close *)
      unfold enter_finally, readyResolver; simpl. rewrite Hconn.
      apply ci_idle; simpl; auto. split; simpl; auto.
      rewrite Ht, insert_last. by apply Forall_finished_snoc.
    + unfold waitForAbort, readyResolver; simpl.
      case_bool_decide.
      * unfold enter_finally; simpl.
        eapply (ci_closing _ _ _ pre c); simpl; auto.
        rewrite Ht. apply insert_last.
      * eapply (ci_waiting _ _ _ pre (gen s) c); simpl; auto.
        rewrite Ht. apply insert_last.
  - rewrite Ht in Hl. by apply lookup_live in Hl as [_ ?].
  - rewrite Ht in Hl. by apply lookup_live in Hl as [_ ?].
  - by apply (lookup_all_finished (tasks s)) in Hl.
Qed.

Lemma cycle_inv_close_settled c0 e0 b t r s :
  cycle_inv c0 e0 b s -> cycle_inv c0 e0 b (close_settled t r s).
Proof.
  intros H. unfold close_settled.
  destruct (tasks s !! t) as [q|] eqn:Hl; [|done].
  destruct q; try done.
  inversion H as [s' b' [Hfin Hconn] Hc He
                 |s' pre Ht Hpre Hconn Hc He
                 |s' pre g c Ht Hpre Hconn Hc He
                 |s' pre c Ht Hpre Hconn Hc He
                 |s' c [Hfin Hconn] Hc He]; subst.
  - by apply (lookup_all_finished (tasks s)) in Hl.
  - rewrite Ht in Hl. by apply lookup_live in Hl as [_ ?].
  - rewrite Ht in Hl. by apply lookup_live in Hl as [_ ?].
  - rewrite Ht in Hl. apply lookup_live in Hl as [-> _]; [|done|done].
    eapply (ci_closed _ _ _ c); simpl; auto. split; simpl; auto.
    rewrite Ht, insert_last. by apply Forall_finished_snoc.
  - by apply (lookup_all_finished (tasks s)) in Hl.
Qed.

Lemma cycle_inv_weaken c0 e0 b s :
  cycle_inv c0 e0 b s -> cycle_inv c0 e0 true s.
Proof.
  intros H; inversion H; subst;
    [ apply ci_idle | eapply ci_establishing | eapply ci_waiting
    | eapply ci_closing | eapply ci_closed ]; eauto.
Qed.

Lemma cycle_inv_step c0 e0 b ev s :
  cycle_inv c0 e0 b s -> (is_start ev = true -> b = false) ->
  cycle_inv c0 e0 (b || is_start ev) (step ev s).
Proof.
  intros H Hb. unfold step. apply cycle_inv_settle_stops.
  destruct ev; simpl in *.
  - rewrite (Hb eq_refl) in *. by apply cycle_inv_call_start.
  - rewrite orb_false_r. by apply cycle_inv_call_stop.
  - rewrite orb_false_r. by apply cycle_inv_establish_settled.
  - rewrite orb_false_r. by apply cycle_inv_close_settled.
Qed.

Lemma cycle_inv_run c0 e0 evs : forall b s,
  cycle_inv c0 e0 b s ->
  count_starts evs <= (if b then 0 else 1) ->
  cycle_inv c0 e0 true (run evs s).
Proof.
  induction evs as [|ev evs IH]; intros b s H Hn; simpl in *.
  - by eapply cycle_inv_weaken.
  - apply (IH (b || is_start ev)).
    + apply cycle_inv_step; [done|]. intros E. rewrite E in Hn.
      destruct b; [simpl in Hn; lia | done].
    + destruct (is_start ev), b; simpl in *; lia.
Qed.

(** C7.  Take an instance with no running task and no open connection (a
    new one, or one whose earlier cycles are over) and any sequence of
    events with at most one [start()]: calls of [stop()] and settlements of
    the subclass hooks in any order.  Then [closeConnection] is invoked at
    most once, and when it is, its argument is the connection that
    [establishConnection] returned in this cycle; after a failed
    establishment it is not invoked. *)
Theorem closeConnection_at_most_once evs s0 :
  idle s0 ->
  count_starts evs <= 1 ->
  let s := run evs s0 in
  exists closed,
    closeCalls s = closeCalls s0 ++ closed /\
    length closed <= 1 /\
    (forall c, c ∈ closed -> established s = established s0 ++ [c]) /\
    (established s = established s0 -> closed = []).
Proof.
  intros Hidle Hn s.
  assert (H : cycle_inv (closeCalls s0) (established s0) true s).
  { apply (cycle_inv_run _ _ evs false s0); [by apply ci_idle | done]. }
  assert (Hne : forall (l : list T) c, l ++ [c] <> l).
  { intros l c E. apply (f_equal length) in E.
    rewrite length_app in E. simpl in E. lia. }
  inversion H as [s' b' _ Hc He
                 |s' pre _ _ _ Hc He
                 |s' pre g c _ _ _ Hc He
                 |s' pre c _ _ _ Hc He
                 |s' c _ Hc He]; subst s'.
  - exists []. rewrite app_nil_r. repeat split; auto. intros c; set_solver.
  - exists []. rewrite app_nil_r. repeat split; auto. intros c; set_solver.
  - exists []. rewrite app_nil_r. repeat split; auto. intros c'; set_solver.
  - exists [c]. repeat split; auto.
    + intros c' Hin. apply list_elem_of_singleton in Hin. by subst.
    + intros E. rewrite E in He. symmetry in He. by apply Hne in He.
  - exists [c]. repeat split; auto.
    + intros c' Hin. apply list_elem_of_singleton in Hin. by subst.
    + intros E. rewrite E in He. symmetry in He. by apply Hne in He.
Qed.

End Facts.

(** A cycle on a new instance in which the establishment fails. *)
Lemma closeConnection_at_most_once_witness :
  let evs := [CallStart; EstablishSettled 0 (inl (new_Error "ECONNREFUSED")); CallStop] in
  let s := run evs (new : State nat) in
  exists closed,
    closeCalls s = closeCalls (new : State nat) ++ closed /\
    length closed <= 1 /\
    (forall c, c ∈ closed -> established s = established (new : State nat) ++ [c]) /\
    (established s = established (new : State nat) -> closed = []).
Proof.
  apply (closeConnection_at_most_once
           [CallStart; EstablishSettled 0 (inl (new_Error "ECONNREFUSED")); CallStop]
           (new : State nat)).
  - split; [constructor | reflexivity].
  - simpl. lia.
Defined.

End ConnMgrFacts.

(* ===================================================================== *)
(** ** HttpConnector: the streamable-HTTP to SSE fallback                  *)
(* ===================================================================== *)

Module HttpFacts.
Import Js Eff Eff.Notations Http.

Ltac run_http :=
  unfold connect, disconnect, connectWithSse, connectWithStreamableHttp, connectWith,
         cleanupResources, when, await_unit, await_res,
         try_finally, try_catch, bind, gets, get, modify, log, ret, throw,
         set_client, set_connectionManager, set_toolsCache, set_connected,
         set_transportType;
  simpl.

(** The same, leaving [cleanupResources] folded. *)
Ltac run_body :=
  unfold connect, disconnect, connectWithSse, connectWithStreamableHttp, connectWith,
         when, await_unit, await_res,
         try_finally, try_catch, bind, gets, get, modify, log, ret, throw,
         set_client, set_connectionManager, set_toolsCache, set_connected,
         set_transportType;
  simpl.

(** Cleanup never throws: close and stop errors are logged only. *)
Lemma cleanupResources_ok a c :
  exists c' l, cleanupResources a c = (Ok tt, c', l) /\ cleaned c c'.
Proof.
  run_http.
  destruct (client c) eqn:Hcl; simpl; destruct (close_outcome a); simpl;
    destruct (connectionManager c) eqn:Hcm; simpl; destruct (stop_outcome a); simpl;
    eexists _, _; (split; [reflexivity|]); unfold cleaned; simpl.
  all: by repeat split.
Qed.

Lemma cleaned_trans c1 c2 c3 : cleaned c1 c2 -> cleaned c2 c3 -> cleaned c1 c3.
Proof. unfold cleaned. intuition congruence. Qed.

Ltac use_cleanup :=
  match goal with |- context [cleanupResources ?a ?st] =>
    let c' := fresh "c" in let l := fresh "l" in let Hcl := fresh "Hcl" in
    destruct (cleanupResources_ok a st) as (c' & l & -> & Hcl)
  end.

(** A failed attempt re-throws its error after cleaning up. *)
Lemma connectWith_fails cls t msg a c e :
  attempt_error a = Some e ->
  exists c' l, connectWith cls t msg a c = (Throw e, c', l) /\ cleaned c c'.
Proof.
  unfold attempt_error. intros He.
  run_body.
  destruct (construct_outcome a) as [e0|] eqn:Hc0; simpl;
    [|destruct (start_outcome a) as [e1|] eqn:Hs; simpl].
  - injection He as ->. use_cleanup. simpl.
    eexists _, _. split; [reflexivity|]. done.
  - injection He as ->. use_cleanup. simpl.
    eexists _, _. split; [reflexivity|].
    unfold cleaned in *; simpl in *. intuition congruence.
  - rewrite He. simpl. use_cleanup. simpl.
    eexists _, _. split; [reflexivity|].
    unfold cleaned in *; simpl in *. intuition congruence.
Qed.


Ltac run_connect :=
  unfold connect, disconnect, connectWithSse, connectWithStreamableHttp,
         when, await_unit, await_res,
         try_finally, try_catch, bind, gets, get, modify, log, ret, throw;
  simpl.

Ltac use_fails H :=
  match goal with |- context [connectWith ?cls ?t ?m ?a ?st] =>
    let c' := fresh "c" in let l := fresh "l" in let Hcl := fresh "Hcl" in
    destruct (connectWith_fails cls t m a st _ H) as (c' & l & -> & Hcl)
  end.



Lemma connect_fallback_fails http sse c e e2 :
  connected c = false -> preferSse c = false ->
  attempt_error http = Some e -> attempt_error sse = Some e2 ->
  exists c' l, connect http sse c = (Throw (new_Error both_failed_message), c', l) /\
    cleaned c c' /\
    (LError, "  Streamable HTTP: " +:+ fallbackReason e) ∈ l /\
    (LError, "  SSE: " +:+ err_toString e2) ∈ l.
Proof.
  intros Hc Hp He Hs. run_connect. rewrite Hc, Hp. simpl.
  use_fails He. simpl.
  destruct (is_Error_instance e); simpl; use_fails Hs; simpl; use_cleanup; simpl;
    eexists _, _; (split; [reflexivity|]);
    (split; [eauto using cleaned_trans|]); set_solver.
Qed.

(** *** Connectors on which every streamable-HTTP attempt fails *)






Example fallback_405_run :
  let r := connect attempt_405 attempt_ok (new_HttpConnector "http://localhost:3000/" None) in
  r.1.1 = Ok tt /\
  baseUrl r.1.2 = "http://localhost:3000" /\
  transport (publicIdentifier r.1.2) = "sse" /\
  (LDebug, "Server returned 405 - server likely doesn't support streamable HTTP") ∈ r.2.
Proof. vm_compute. repeat split. set_solver. Qed.

(** *** Both transports fail *)

(** C4, counterexample.  The streamable-HTTP attempt fails with 405 and the
    SSE attempt with a refused connection: the error that [connect()] throws
    has a fixed message, which names neither reason. *)
Lemma connect_error_names_no_reason :
  let httpErr := StreamableHTTPError (Some 405%Z) "Method Not Allowed" in
  let sseErr := new_Error "connect ECONNREFUSED 127.0.0.1:3000" in
  exists err c' l,
    connect attempt_405 attempt_refused (new_HttpConnector "http://localhost:3000/" None)
      = (Throw err, c', l) /\
    err_message err = "Could not connect to server with any available transport" /\
    includes (err_message err) (fallbackReason httpErr) = false /\
    includes (err_message err) (err_toString sseErr) = false /\
    names_both_reasons (err_message err) httpErr sseErr = false.
Proof.
  eexists _, _, _. split; [vm_compute; reflexivity|].
  repeat split; vm_compute; reflexivity.
Qed.

(** C4, as the code has it.  When the streamable-HTTP attempt fails and the
    SSE attempt fails too, [connect()] throws an [Error] with the fixed
    message "Could not connect to server with any available transport",
    after cleaning up (no client, no connection manager, no cached tools, not
    connected); the two failure reasons are written to the log at level
    error. *)
Theorem connect_both_fail http sse c httpErr sseErr :
  connected c = false -> preferSse c = false ->
  attempt_error http = Some httpErr ->
  attempt_error sse = Some sseErr ->
  exists c' l,
    connect http sse c
      = (Throw (Error "Error" "Could not connect to server with any available transport"),
         c', l) /\
    client c' = None /\ connectionManager c' = None /\ toolsCache c' = None /\
    connected c' = false /\
    (LError, "  Streamable HTTP: " +:+ fallbackReason httpErr) ∈ l /\
    (LError, "  SSE: " +:+ err_toString sseErr) ∈ l.
Proof.
  intros Hc Hp He Hs.
  destruct (connect_fallback_fails http sse c httpErr sseErr Hc Hp He Hs)
    as (c' & l & H & Hcl & H1 & H2).
  exists c', l. unfold cleaned in Hcl.
  split; [exact H|]. intuition congruence.
Qed.

Lemma connect_both_fail_witness :
  exists c' l,
    connect attempt_405 attempt_refused (new_HttpConnector "http://localhost:3000/" None)
      = (Throw (Error "Error" "Could not connect to server with any available transport"),
         c', l) /\
    client c' = None /\ connectionManager c' = None /\ toolsCache c' = None /\
    connected c' = false /\
    (LError, "  Streamable HTTP: "
             +:+ fallbackReason (StreamableHTTPError (Some 405%Z) "Method Not Allowed")) ∈ l /\
    (LError, "  SSE: "
             +:+ err_toString (new_Error "connect ECONNREFUSED 127.0.0.1:3000")) ∈ l.
Proof.
  apply (connect_both_fail attempt_405 attempt_refused
           (new_HttpConnector "http://localhost:3000/" None)); reflexivity.
Defined.

End HttpFacts.

(* ===================================================================== *)
(** ** WebSocketConnector: pending requests when the socket closes         *)
(* ===================================================================== *)

Module WSFacts.
Import Js WS.

Section Dictionary.
Context {V : Type}.
Implicit Types (o : list (string * V)).

Lemma elem_of_obj_set o k v k' v' :
  (k', v') ∈ obj_set k v o -> (k' = k /\ v' = v) \/ (k', v') ∈ o.
Proof.
  induction o as [|[k0 v0] o IH]; simpl.
  - intros H. apply list_elem_of_singleton in H. injection H as -> ->. by left.
  - case_bool_decide as E.
    + intros H. apply elem_of_cons in H as [H|H].
      * injection H as -> ->. by left.
      * right. by apply elem_of_cons; right.
    + intros H. apply elem_of_cons in H as [H|H].
      * injection H as -> ->. right. by apply elem_of_cons; left.
      * destruct (IH H) as [?|?]; [by left|].
        right. by apply elem_of_cons; right.
Qed.

Lemma elem_of_obj_delete o k k' v' :
  (k', v') ∈ obj_delete k o <-> (k', v') ∈ o /\ k' <> k.
Proof. unfold obj_delete. rewrite list_elem_of_filter. simpl. tauto. Qed.

Lemma obj_get_elem_of o k v : obj_get o k = Some v -> (k, v) ∈ o.
Proof.
  induction o as [|[k0 v0] o IH]; simpl; [done|].
  case_bool_decide as E.
  - intros [= ->]. subst. by apply elem_of_cons; left.
  - intros H. apply elem_of_cons; right. by apply IH.
Qed.
End Dictionary.

Lemma settle_other k k' st reqs : k' <> k -> settle k st reqs !! k' = reqs !! k'.
Proof.
  intros Hne. unfold settle.
  destruct (reqs !! k) as [[id []]|]; try done.
  by rewrite list_lookup_insert_ne.
Qed.

Lemma settle_pending k st reqs id :
  reqs !! k = Some (id, Pending) -> settle k st reqs !! k = Some (id, st).
Proof.
  intros H. unfold settle. rewrite H.
  apply list_lookup_insert_eq. by eapply lookup_lt_Some.
Qed.

Lemma settle_settled k k' st reqs id st' :
  st' <> Pending -> reqs !! k' = Some (id, st') -> settle k st reqs !! k' = Some (id, st').
Proof.
  intros Hst H. destruct (decide (k' = k)) as [->|Hne].
  - unfold settle. rewrite H. by destruct st'.
  - by rewrite settle_other.
Qed.

Lemma pending_unsettled_step ev c :
  pending_unsettled c -> pending_unsettled (step ev c).
Proof.
  intros Hinv. destruct ev as [id|k err|frame|]; simpl.
  - (* sendRequest *)
    intros id' k' Hin. simpl in *.
    apply elem_of_obj_set in Hin as [[-> ->]|Hin].
    + rewrite lookup_app_r by lia. by rewrite Nat.sub_diag.
    + apply Hinv in Hin. by apply lookup_app_l_Some.
  - (* the send callback reports an error *)
    unfold sendFailed. destruct (requests c !! k) as [[id st]|] eqn:Hk; [|done].
    intros id' k' Hin. simpl in *.
    apply elem_of_obj_delete in Hin as [Hin Hne].
    pose proof (Hinv _ _ Hin) as Hk'.
    rewrite settle_other; [done|]. intros ->. congruence.
  - (* a frame arrives *)
    unfold onMessage. destruct (listening c); simpl; [|done].
    destruct frame as [data|]; [|done].
    destruct (msg_id data) as [id|]; [|done].
    destruct (obj_get (pending c) id) as [k|] eqn:Hget; [|done].
    apply obj_get_elem_of in Hget. pose proof (Hinv _ _ Hget) as Hk.
    intros id' k' Hin. simpl in *.
    apply elem_of_obj_delete in Hin as [Hin Hne].
    pose proof (Hinv _ _ Hin) as Hk'.
    assert (k' <> k) by (intros ->; congruence).
    destruct (msg_result data), (msg_error data); by rewrite ?settle_other.
  - (* the socket closes *)
    intros id k Hin. simpl in Hin. by apply elem_of_nil in Hin.
Qed.

Lemma pending_unsettled_run evs : forall c,
  pending_unsettled c -> pending_unsettled (run evs c).
Proof.
  induction evs as [|ev evs IH]; intros c Hc; simpl; [done|].
  apply IH. by apply pending_unsettled_step.
Qed.

Lemma rejected_stays err (l : list nat) : forall reqs k id,
  reqs !! k = Some (id, Rejected err) ->
  fold_left (fun reqs k => settle k (Rejected err) reqs) l reqs !! k
  = Some (id, Rejected err).
Proof.
  induction l as [|k0 l IH]; intros reqs k id H; simpl; [done|].
  apply IH. by apply settle_settled.
Qed.

Lemma reject_each err (l : list nat) : forall reqs k id,
  reqs !! k = Some (id, Pending) -> k ∈ l ->
  fold_left (fun reqs k => settle k (Rejected err) reqs) l reqs !! k
  = Some (id, Rejected err).
Proof.
  induction l as [|k0 l IH]; intros reqs k id H Hin; simpl.
  - by apply elem_of_nil in Hin.
  - destruct (decide (k0 = k)) as [->|Hne].
    + apply rejected_stays. by apply settle_pending.
    + apply IH.
      * by rewrite settle_other.
      * apply elem_of_cons in Hin as [->|Hin]; done.
Qed.

(** C8.  In every state the connector can reach after [connect()], through
    requests, failed sends and incoming frames, each entry of the pending map
    is an unsettled promise; when the close event fires, every one of them is
    rejected with the error "WebSocket closed", and the map is empty. *)
Theorem close_rejects_all_pending evs id k :
  let c := run evs connected_connector in
  (id, k) ∈ pending c ->
  promise c k = Some Pending /\
  promise (onClose c) k = Some (Rejected (Error "Error" "WebSocket closed")) /\
  pending (onClose c) = [].
Proof.
  intros c Hin.
  assert (Hinv : pending_unsettled c).
  { apply pending_unsettled_run. intros ? ? H. by apply elem_of_nil in H. }
  pose proof (Hinv _ _ Hin) as Hk.
  split; [unfold promise; by rewrite Hk|]. split; [|done].
  unfold promise, onClose, rejectAll; simpl.
  rewrite (reject_each _ _ _ k id Hk); [done|].
  apply list_elem_of_fmap. by exists (id, k).
Qed.

(** Two requests are pending when the socket closes. *)
Lemma close_rejects_all_pending_witness :
  let c := run [Send "id-1"; Send "id-2"] connected_connector in
  ("id-2", 1) ∈ pending c /\
  promise c 1 = Some Pending /\
  promise (onClose c) 1 = Some (Rejected (Error "Error" "WebSocket closed")) /\
  pending (onClose c) = [].
Proof.
  split.
  - vm_compute. apply elem_of_cons; right. apply elem_of_cons; left. reflexivity.
  - apply (close_rejects_all_pending [Send "id-1"; Send "id-2"] "id-2" 1).
    vm_compute. apply elem_of_cons; right. apply elem_of_cons; left. reflexivity.
Defined.

Example close_with_two_pending :
  let c := run [Send "id-1"; Send "id-2"; Close] connected_connector in
  pending c = [] /\
  requests c = [("id-1", Rejected (new_Error "WebSocket closed"));
                ("id-2", Rejected (new_Error "WebSocket closed"))].
Proof. split; reflexivity. Qed.

(** A response that arrives before the close settles its own request only. *)
Example close_after_one_response :
  let reply := {| msg_id := Some "id-1"; msg_result := Some "{}"; msg_error := None |} in
  let c := run [Send "id-1"; Send "id-2"; Frame (Some reply); Close] connected_connector in
  pending c = [] /\
  requests c = [("id-1", Resolved "{}");
                ("id-2", Rejected (new_Error "WebSocket closed"))].
Proof. split; reflexivity. Qed.

End WSFacts.

(* ===================================================================== *)
(** ** ServerManager: the active server and the tools it exposes           *)
(* ===================================================================== *)

Module ManagerFacts.
Import Js Eff Eff.Notations Config Client Manager.

Ltac run_mgr :=
  unfold ConnectMCPServerTool_call, AddMCPServerFromConfigTool_call,
         ReleaseMCPServerConnectionTool_call, AcquireActiveMCPServerTool_call,
         ListMCPServersTool_call, prefetch_one, on_client, zoom,
         lift_res, when, await_unit, await_res, hang,
         try_finally, try_catch, bind, gets, get, modify, log, ret, throw;
  simpl.

Example connect_uncached_run :
  (ConnectMCPServerTool_call two_tool_world "x" fresh_manager).1.1
  = Ok "Connected to MCP server 'x'. 0 tools are now available.".
Proof. vm_compute. reflexivity. Qed.

Example add_server_run :
  let r := AddMCPServerFromConfigTool_call two_tool_world "y" echo_config fresh_manager in
  activeServer r.1.2 = Some "y" /\
  serverTools r.1.2 !! "y" = Some [tool_read; tool_write] /\
  tools r.1.2 = defaultManagementTools ++ [tool_read; tool_write].
Proof. vm_compute. repeat split. Qed.

Example prefetch_then_connect_run :
  let m1 := (prefetchServerTools two_tool_world fresh_manager).1.2 in
  let r := ConnectMCPServerTool_call two_tool_world "x" m1 in
  r.1.1 = Ok "Connected to MCP server 'x'. 2 tools are now available." /\
  tools r.1.2 = defaultManagementTools ++ [tool_read; tool_write].
Proof. vm_compute. repeat split. Qed.




(** The getter tests [this.activeServer] for truthiness, so a server whose
    name is the empty string is active without its tools being exposed. *)
Example empty_name_not_exposed :
  let m0 := new_ServerManager (new_MCPClient (Some [(EmptyString, echo_config)])) None in
  let m1 := (prefetchServerTools two_tool_world m0).1.2 in
  let r := ConnectMCPServerTool_call two_tool_world EmptyString m1 in
  r.1.1 = Ok (connected_reply EmptyString 2) /\
  activeServer r.1.2 = Some EmptyString /\
  serverTools r.1.2 !! EmptyString = Some [tool_read; tool_write] /\
  tools r.1.2 = defaultManagementTools.
Proof. vm_compute. repeat split. Qed.

(** The scenario of the specification: "x" is prefetched, then connected. *)
Example tools_after_connect_x :
  let m1 := (prefetchServerTools two_tool_world fresh_manager).1.2 in
  let r := ConnectMCPServerTool_call two_tool_world "x" m1 in
  r.1.1 = Ok (connected_reply "x" 2) /\
  tools r.1.2 = defaultManagementTools ++ [tool_read; tool_write].
Proof. vm_compute. repeat split. Qed.

(** *** connect-to-server on a server whose tools are not cached *)



(** *** The active server and the tool cache *)

Lemma active_is_cached_new c mt : active_is_cached (new_ServerManager c mt).
Proof. intros s H. discriminate H. Qed.

Lemma grows_refl m : grows m m.
Proof. by split. Qed.

Lemma grows_trans m1 m2 m3 : grows m1 m2 -> grows m2 m3 -> grows m1 m3.
Proof. intros [H1 H2] [H3 H4]. split; [congruence | auto]. Qed.

Lemma grows_invariant m m' : grows m m' -> active_is_cached m -> active_is_cached m'.
Proof. intros [Ha Hc] Hinv s Hs. apply Hc, Hinv. congruence. Qed.

Lemma is_Some_insert (st : gmap string (list Tool)) n ts s :
  is_Some (st !! s) -> is_Some (<[n := ts]> st !! s).
Proof.
  intros H. destruct (decide (n = s)) as [->|Hne].
  - rewrite lookup_insert_eq. by eexists.
  - by rewrite lookup_insert_ne.
Qed.

Lemma prefetch_one_grows w n m : grows m (prefetch_one w n m).1.2.
Proof.
  run_mgr.
  destruct (getSession n (client m)) as [s|]; simpl.
  - destruct (createToolsFromConnectors w (connector s)) as [ts|e|]; simpl;
      [|by split|by split].
    destruct (serverTools m !! n) as [cached|] eqn:Hc; simpl.
    + case_bool_decide; simpl; [by split|].
      split; [done|]. intros s'. apply is_Some_insert.
    + split; [done|]. intros s'. apply is_Some_insert.
  - destruct (createSession (remote w) n true (client m)) as [[[s|e|] c'] l']; simpl;
      [|by split|by split].
    destruct (createToolsFromConnectors w (connector s)) as [ts|e|]; simpl;
      [|by split|by split].
    destruct (serverTools m !! n) as [cached|] eqn:Hc; simpl.
    + case_bool_decide; simpl; [by split|].
      split; [done|]. intros s'. apply is_Some_insert.
    + split; [done|]. intros s'. apply is_Some_insert.
Qed.

Lemma for_each_grows w names : forall m,
  grows m (for_each (prefetch_one w) names m).1.2.
Proof.
  induction names as [|n names IH]; intros m; simpl; [apply grows_refl|].
  unfold bind.
  pose proof (prefetch_one_grows w n m) as H1.
  destruct (prefetch_one w n m) as [[[[]|e|] m1] l1]; simpl in *; [|done|done].
  pose proof (IH m1) as H2.
  destruct (for_each (prefetch_one w) names m1) as [[r m2] l2]; simpl in *.
  by eapply grows_trans.
Qed.

(** Every invocation keeps the invariant, except connect-to-server for a
    server that has no cache entry. *)
Lemma invoke_keeps_active_is_cached i m :
  match i with
  | ConnectToServer _ n => is_Some (serverTools m !! n)
  | _ => True
  end ->
  active_is_cached m -> active_is_cached (invoke i m).
Proof.
  intros Hi Hinv. destruct i as [w n| |w n cfg| | |w]; simpl.
  - (* connect-to-server, cached *)
    destruct Hi as [ts Hts]. run_mgr.
    case_bool_decide; simpl; [|done].
    case_bool_decide; simpl; [done|].
    assert (Hn : forall c i0 ts', active_is_cached
                   (mkManager c (Some n) (<[n := ts']> (serverTools m)) i0
                              (overrideManagementTools m))).
    { intros c i0 ts' s [= <-]. simpl. rewrite lookup_insert_eq. by eexists. }
    assert (Hk : forall c, active_is_cached
                   (mkManager c (Some n) (serverTools m) (initializedServers m)
                              (overrideManagementTools m))).
    { intros c s [= <-]. simpl. by eexists. }
    destruct (getSession n (client m)) as [s|]; simpl.
    + rewrite Hts. simpl.
      destruct (createToolsFromConnectors w (connector s)); simpl;
        [apply Hn | apply Hk | apply Hk].
    + destruct (createSession (remote w) n true (client m)) as [[[s|e|] c'] l']; simpl.
      * rewrite Hts. simpl.
        destruct (createToolsFromConnectors w (connector s)); simpl;
          [apply Hn | apply Hk | apply Hk].
      * intros s Hs. simpl in *. by apply Hinv.
      * intros s Hs. simpl in *. by apply Hinv.
  - (* disconnect *)
    run_mgr. destruct (active_truthy m); simpl; [|done].
    intros s Hs. simpl in Hs. discriminate Hs.
  - (* add-server-from-config: the cache entry is written before the activation *)
    run_mgr.
    destruct (createSession (remote w) n true (addServer n cfg (client m)))
      as [[[s|e|] c'] l']; simpl.
    + destruct (createToolsFromConnectors w (connector s)) as [ts|e|]; simpl.
      * intros s' [= <-]. simpl. rewrite lookup_insert_eq. by eexists.
      * destruct (is_nullish e); simpl; intros s' Hs; simpl in *; by apply Hinv.
      * intros s' Hs. simpl in *. by apply Hinv.
    + destruct (is_nullish e); simpl; intros s' Hs; simpl in *; by apply Hinv.
    + intros s' Hs. simpl in *. by apply Hinv.
  - run_mgr. by destruct (length (getServerNames (client m)) =? 0)%nat.
  - run_mgr. by destruct (active_truthy m).
  - unfold prefetchServerTools, bind, gets. simpl.
    pose proof (for_each_grows w (getServerNames (client m)) m) as H.
    destruct (for_each (prefetch_one w) (getServerNames (client m)) m)
      as [[r m'] l']; simpl in *.
    by eapply grows_invariant.
Qed.

(** C5, evaluated on the code.  A new manager satisfies the invariant; one
    connect-to-server call for the configured server "x" answers with the
    success reply and leaves "x" active without an entry in [serverTools], so
    the next read of [tools] sees an active server that is not cached (and
    returns the management tools only). *)
Theorem connect_breaks_active_is_cached :
  let m := invoke_all [ConnectToServer two_tool_world "x"] fresh_manager in
  active_is_cached fresh_manager /\
  activeServer m = Some "x" /\
  serverTools m !! "x" = None /\
  ~ active_is_cached m /\
  tools m = defaultManagementTools.
Proof.
  split; [intros s H; discriminate H|].
  split; [reflexivity|]. split; [reflexivity|]. split; [|reflexivity].
  intros H. destruct (H "x" eq_refl) as [ts Hts]. vm_compute in Hts. discriminate Hts.
Qed.

End ManagerFacts.

(* ===================================================================== *)
(** ** MCPClient: what the registry operations keep and undo               *)
(* ===================================================================== *)

Module ClientOpsFacts.
Import Js Eff Eff.Notations Config Client ClientOps ClientFacts.

Ltac run_ops :=
  unfold createAllSessions, closeAllSessions, createSession, closeSession,
         lift_res, when, await_unit, await_res, await_settlement, hang,
         try_finally, try_catch, bind, gets, get, modify, log, ret, throw, zoom;
  simpl.

(** [createSession] computed: it ends as [session_outcome] says; a throw
    leaves the client as it was, a success records the session and appends
    the name to [activeSessions] unless it is there. *)
Lemma createSession_run io name ai c :
  exists l,
    createSession io name ai c
    = match session_outcome io (servers_or_empty c) name ai with
      | Throw e => (Throw e, c, l)
      | Hangs => (Hangs, c, l)
      | Ok s =>
          (Ok s,
           {| mcpServers := mcpServers c;
              sessions := <[name := s]> (sessions c);
              activeSessions :=
                if bool_decide (name ∈ activeSessions c) then activeSessions c
                else activeSessions c ++ [name] |},
           l)
      end.
Proof.
  unfold session_outcome. run_ops.
  destruct (length (js_keys (servers_or_empty c)) =? 0)%nat; simpl;
    (destruct (config_of_lookup (js_get (servers_or_empty c) name)) as [cfg|]; simpl;
       [|eexists; reflexivity]);
    (destruct (createConnectorFromConfig cfg) as [k|e|]; simpl;
       [|eexists; reflexivity|eexists; reflexivity]);
    destruct ai; simpl;
    try (destruct (initialize_outcome io name (new_MCPSession k)); simpl;
         [eexists; reflexivity|]);
    case_bool_decide; simpl; eexists; destruct c; reflexivity.
Qed.

(** [closeSession] computed. *)
Lemma closeSession_run io name c :
  exists l,
    closeSession io name c
    = match sessions c !! name with
      | Some s =>
          match disconnect_outcome io name s with
          | NeverSettles => (Hangs, c, l)
          | _ =>
              (Ok tt,
               {| mcpServers := mcpServers c;
                  sessions := delete name (sessions c);
                  activeSessions := filter (fun n => n <> name) (activeSessions c) |},
               l)
          end
      | None => (Ok tt, c, l)
      end.
Proof.
  run_ops. destruct (sessions c !! name) as [s|]; simpl; [|eexists; reflexivity].
  destruct (disconnect_outcome io name s); simpl; eexists; reflexivity.
Qed.

(** What a property read finds for a name that is not an own property. *)
Lemma js_get_not_own {V} (o : list (string * V)) name :
  (forall v, js_get o name <> Own v) ->
  js_get o name
  = if bool_decide (name ∈ object_prototype_members) then Inherited else Missing.
Proof.
  unfold js_get. destruct (obj_get o name) as [v|]; [|done].
  intros H. by destruct (H v).
Qed.

(** X1.  A [createSession] call that throws has changed nothing in the
    client: no session record, no active name, no configuration entry.  For
    a name that is not an own property of the configured servers the error
    is "Server '<name>' not found in config", unless the name is that of a
    member of [Object.prototype] (such as "constructor"): the lookup then
    finds the inherited member and the error is "Cannot determine connector
    type from config". *)
Theorem createSession_throw_changes_nothing io name ai c e c' l :
  createSession io name ai c = (Throw e, c', l) ->
  c' = c /\
  ((forall cfg, js_get (servers_or_empty c) name <> Own cfg) ->
   e = new_Error
         (if bool_decide (name ∈ object_prototype_members)
          then "Cannot determine connector type from config"
          else "Server '" +:+ name +:+ "' not found in config")).
Proof.
  intros H. destruct (createSession_run io name ai c) as [l0 Hrun].
  rewrite Hrun in H. unfold session_outcome in *.
  split.
  - destruct (config_of_lookup (js_get (servers_or_empty c) name)) as [cfg|];
      [|by inversion H].
    destruct (createConnectorFromConfig cfg) as [k|e0|]; [|by inversion H|by inversion H].
    destruct ai; [|by inversion H].
    destruct (initialize_outcome io name (new_MCPSession k)); by inversion H.
  - intros Hnot. rewrite (js_get_not_own _ _ Hnot) in H.
    destruct (bool_decide (name ∈ object_prototype_members)); simpl in H;
      by inversion H.
Qed.

Lemma createSession_throw_changes_nothing_witness :
  let r := createSession remote_ok "constructor" true two_server_client in
  r.1.2 = two_server_client /\
  ((forall cfg, js_get (servers_or_empty two_server_client) "constructor" <> Own cfg) ->
   new_Error "Cannot determine connector type from config"
   = new_Error
       (if bool_decide ("constructor" ∈ object_prototype_members)
        then "Cannot determine connector type from config"
        else "Server '" +:+ "constructor" +:+ "' not found in config")).
Proof.
  apply (createSession_throw_changes_nothing remote_ok "constructor" true
           two_server_client
           (new_Error "Cannot determine connector type from config")
           (createSession remote_ok "constructor" true two_server_client).1.2
           (createSession remote_ok "constructor" true two_server_client).2).
  vm_compute. reflexivity.
Defined.

(** The same call for a name that is neither configured nor inherited. *)
Example createSession_unknown_name :
  (createSession remote_ok "nowhere" true two_server_client).1.1
  = Throw (new_Error "Server 'nowhere' not found in config").
Proof. reflexivity. Qed.

(** *** The list of active names *)

Lemma active_tracked_new servers : active_tracked (new_MCPClient servers).
Proof.
  split; simpl; [constructor|]. intros n H. by apply elem_of_nil in H.
Qed.

Lemma active_tracked_createSession io name ai c :
  active_tracked c -> active_tracked (createSession io name ai c).1.2.
Proof.
  intros [Hnd Hs]. destruct (createSession_run io name ai c) as [l ->].
  destruct (session_outcome io (servers_or_empty c) name ai) as [s|e|]; simpl;
    [|by split|by split].
  split; simpl.
  - case_bool_decide as Hin; [done|].
    apply NoDup_app. split; [done|]. split; [|apply NoDup_singleton].
    intros x Hx Hx'. apply list_elem_of_singleton in Hx'. by subst.
  - intros n Hn.
    destruct (decide (n = name)) as [->|Hne].
    + rewrite lookup_insert_eq. by eexists.
    + rewrite lookup_insert_ne by done. apply Hs.
      case_bool_decide; [done|].
      apply elem_of_app in Hn as [Hn|Hn]; [done|].
      apply list_elem_of_singleton in Hn. by subst.
Qed.

Lemma active_tracked_closeSession io name c :
  active_tracked c -> active_tracked (closeSession io name c).1.2.
Proof.
  intros [Hnd Hs]. destruct (closeSession_run io name c) as [l ->].
  destruct (sessions c !! name) as [s|]; [|by split].
  destruct (disconnect_outcome io name s); simpl; [| |by split].
  all: split; simpl.
  all: try by apply NoDup_filter.
  all: intros n Hn; apply list_elem_of_filter in Hn as [Hne Hn];
    rewrite lookup_delete_ne by done; by apply Hs.
Qed.

Lemma active_tracked_removeServer name c :
  active_tracked c -> active_tracked (removeServer name c).
Proof.
  intros [Hnd Hs]. unfold removeServer.
  destruct (mcpServers c) as [servers|]; [|by split].
  destruct (js_get servers name); [| |by split].
  all: split; simpl; [by apply NoDup_filter|].
  all: intros n Hn; apply list_elem_of_filter in Hn as [_ Hn]; by apply Hs.
Qed.

Lemma active_tracked_createSessions io ai names : forall c,
  active_tracked c -> active_tracked (createSessions io ai names c).1.2.
Proof.
  induction names as [|n names IH]; intros c Hc; simpl; [done|].
  unfold bind.
  pose proof (active_tracked_createSession io n ai c Hc) as H1.
  destruct (createSession io n ai c) as [[[s|e|] c1] l1]; simpl in *; [|done|done].
  pose proof (IH c1 H1) as H2.
  by destruct (createSessions io ai names c1) as [[r c2] l2].
Qed.

Lemma active_tracked_closeSessions io names : forall c,
  active_tracked c -> active_tracked (closeSessions io names c).1.2.
Proof.
  induction names as [|n names IH]; intros c Hc; simpl; [done|].
  unfold bind, try_catch, log, ret.
  pose proof (active_tracked_closeSession io n c Hc) as H1.
  destruct (closeSession io n c) as [[[[]|e|] c1] l1]; simpl in *.
  - pose proof (IH _ H1) as H2.
    by destruct (closeSessions io names c1) as [[[errs|e2|] c2] l2].
  - pose proof (IH _ H1) as H2.
    by destruct (closeSessions io names c1) as [[[errs|e2|] c2] l2].
  - done.
Qed.

Lemma active_tracked_after calls : forall c,
  active_tracked c -> active_tracked (after calls c).
Proof.
  induction calls as [|call calls IH]; intros c Hc; simpl; [done|].
  apply IH. destruct call as [n cfg|n|io n ai|io n|io ai|io names]; simpl.
  - done.
  - by apply active_tracked_removeServer.
  - by apply active_tracked_createSession.
  - by apply active_tracked_closeSession.
  - unfold createAllSessions, bind, gets, when. simpl.
    pose proof (active_tracked_createSessions io ai
                  (js_keys (servers_or_empty c)) c Hc) as H.
    destruct (length (js_keys (servers_or_empty c)) =? 0)%nat; simpl;
      by destruct (createSessions io ai _ c) as [[[]] ?].
  - unfold closeAllSessions, bind. simpl.
    pose proof (active_tracked_closeSessions io names c Hc) as H.
    destruct (closeSessions io names c) as [[[errs|e|] c2] l2]; simpl in *;
      [|done|done].
    by destruct (0 <? length errs)%nat.
Qed.

(** X2.  Whatever sequence of registry calls is made on a new client, the
    names in [activeSessions] stay distinct and each of them has a session
    record. *)
Theorem activeSessions_distinct_and_tracked servers calls :
  active_tracked (after calls (new_MCPClient servers)).
Proof. apply active_tracked_after, active_tracked_new. Qed.

(** *** The configuration map *)

Section Dictionary.
Context {V : Type}.
Implicit Types (o : list (string * V)).

Lemma obj_get_set_eq o k v : obj_get (obj_set k v o) k = Some v.
Proof.
  induction o as [|[k0 v0] o IH]; simpl.
  - by rewrite bool_decide_eq_true_2.
  - case_bool_decide as E; simpl.
    + by rewrite bool_decide_eq_true_2.
    + by rewrite bool_decide_eq_false_2.
Qed.

Lemma obj_get_set_ne o k v k' : k' <> k -> obj_get (obj_set k v o) k' = obj_get o k'.
Proof.
  intros Hne. induction o as [|[k0 v0] o IH]; simpl.
  - by rewrite bool_decide_eq_false_2.
  - case_bool_decide as E; simpl.
    + subst k0. by rewrite !bool_decide_eq_false_2.
    + case_bool_decide; [done | exact IH].
Qed.

Lemma obj_keys_set o k v :
  obj_keys (obj_set k v o)
  = if bool_decide (k ∈ obj_keys o) then obj_keys o else obj_keys o ++ [k].
Proof.
  unfold obj_keys. induction o as [|[k0 v0] o IH]; csimpl; [done|].
  destruct (decide (k0 = k)) as [->|E].
  - rewrite (bool_decide_eq_true_2 (k = k)) by done. csimpl.
    rewrite bool_decide_eq_true_2; [done | apply elem_of_cons; by left].
  - rewrite (bool_decide_eq_false_2 (k0 = k)) by done. csimpl.
    rewrite IH. destruct (decide (k ∈ o.*1)) as [Hin|Hin].
    + rewrite (bool_decide_eq_true_2 (k ∈ o.*1)) by done.
      rewrite bool_decide_eq_true_2; [done | apply elem_of_cons; by right].
    + rewrite (bool_decide_eq_false_2 (k ∈ o.*1)) by done.
      rewrite bool_decide_eq_false_2; [done|].
      intros H. apply elem_of_cons in H as [H|H]; [by subst | done].
Qed.

Lemma obj_get_delete_eq o k : obj_get (obj_delete k o) k = None.
Proof.
  unfold obj_delete. induction o as [|[k0 v0] o IH]; simpl; [done|].
  rewrite filter_cons. simpl. case_decide as E; simpl; [|exact IH].
  by rewrite bool_decide_eq_false_2.
Qed.

Lemma obj_get_delete_ne o k k' : k' <> k -> obj_get (obj_delete k o) k' = obj_get o k'.
Proof.
  intros Hne. unfold obj_delete. induction o as [|[k0 v0] o IH]; simpl; [done|].
  rewrite filter_cons. simpl. case_decide as E; simpl.
  - case_bool_decide; [done | exact IH].
  - assert (k0 = k) as -> by (destruct (decide (k0 = k)); [done | by destruct E]).
    by rewrite bool_decide_eq_false_2.
Qed.

Lemma obj_keys_delete o k : k ∉ obj_keys (obj_delete k o).
Proof.
  unfold obj_keys, obj_delete. intros H.
  apply list_elem_of_fmap in H as [[k0 v0] [-> H]].
  apply list_elem_of_filter in H as [H _]. by simpl in H.
Qed.

Lemma obj_get_None_keys o k : obj_get o k = None -> k ∉ obj_keys o.
Proof.
  unfold obj_keys. induction o as [|[k0 v0] o IH]; simpl.
  - intros _ H. by apply elem_of_nil in H.
  - case_bool_decide as E; [done|]. intros H Hin.
    apply elem_of_cons in Hin as [Hin|Hin]; [by subst | by apply IH].
Qed.
End Dictionary.

Lemma js_get_set_eq {V} (o : list (string * V)) k v : js_get (obj_set k v o) k = Own v.
Proof. unfold js_get. by rewrite obj_get_set_eq. Qed.

Lemma js_get_set_ne {V} (o : list (string * V)) k v k' :
  k' <> k -> js_get (obj_set k v o) k' = js_get o k'.
Proof. intros H. unfold js_get. by rewrite obj_get_set_ne. Qed.

Lemma js_get_delete_eq {V} (o : list (string * V)) k :
  js_get (obj_delete k o) k
  = if bool_decide (k ∈ object_prototype_members) then Inherited else Missing.
Proof. unfold js_get. by rewrite obj_get_delete_eq. Qed.

(** A name that is not an array index is listed after all the others. *)
Lemma own_keys_order_snoc (names : list string) (k : string) :
  array_index k = None ->
  own_keys_order (names ++ [k]) = own_keys_order names ++ [k].
Proof.
  intros Hk. unfold own_keys_order.
  rewrite omap_app, filter_app. csimpl. rewrite Hk. csimpl.
  rewrite app_nil_r, filter_cons_True by done.
  by rewrite filter_nil, app_assoc.
Qed.

(** X3.  [addServer] followed by [getServerConfig] gives back the
    configuration; the entries of the other names are untouched (for names
    that [Object.prototype] does not define); a name that is already
    configured keeps its place in [getServerNames], so re-adding never
    duplicates a name; a new name is listed once more: at the end when it is
    not integer-like, among the integer-like names, which [Object.keys] puts
    first, when it is.  The name [__proto__], whose assignment replaces the
    prototype, is left out. *)
Theorem addServer_getServerConfig name cfg c :
  name <> "__proto__" ->
  getServerConfig name (addServer name cfg c) = Own cfg /\
  (forall other, other <> name -> other ∉ object_prototype_members ->
     getServerConfig other (addServer name cfg c) = getServerConfig other c) /\
  (name ∈ getServerNames c ->
     getServerNames (addServer name cfg c) = getServerNames c) /\
  (name ∉ getServerNames c -> array_index name = None ->
     getServerNames (addServer name cfg c) = getServerNames c ++ [name]) /\
  (name ∉ getServerNames c ->
     getServerNames (addServer name cfg c) ≡ₚ name :: getServerNames c) /\
  sessions (addServer name cfg c) = sessions c /\
  activeSessions (addServer name cfg c) = activeSessions c.
Proof.
  intros _.
  unfold getServerConfig, getServerNames, addServer, servers_or_empty, js_keys; simpl.
  split; [apply js_get_set_eq|].
  split.
  { intros other Hne Hmem. rewrite js_get_set_ne by done.
    destruct (mcpServers c); [done|].
    unfold js_get. simpl. by rewrite bool_decide_eq_false_2. }
  rewrite obj_keys_set.
  split.
  { intros Hin. rewrite own_keys_order_Permutation in Hin.
    by rewrite bool_decide_eq_true_2. }
  split.
  { intros Hnin Hk. rewrite bool_decide_eq_false_2.
    - by apply own_keys_order_snoc.
    - intros Hin. apply Hnin. by rewrite own_keys_order_Permutation. }
  split; [|done].
  intros Hnin. rewrite bool_decide_eq_false_2.
  - rewrite !own_keys_order_Permutation. by rewrite <- Permutation_cons_append.
  - intros Hin. apply Hnin. by rewrite own_keys_order_Permutation.
Qed.

(** An integer-like name is listed before the names that are not. *)
Lemma addServer_getServerConfig_witness :
  getServerConfig "10" (addServer "10" [] two_server_client) = Own [] /\
  getServerNames (addServer "10" [] two_server_client) = ["10"; "a"; "b"] /\
  getServerNames (addServer "c" [] two_server_client) = ["a"; "b"; "c"].
Proof.
  assert ("10" <> "__proto__") as H1 by discriminate.
  assert ("c" <> "__proto__") as H2 by discriminate.
  split; [apply (addServer_getServerConfig "10" [] two_server_client H1)|].
  split; [reflexivity|].
  apply (addServer_getServerConfig "c" [] two_server_client H2).
  - vm_compute. intros H. repeat (apply elem_of_cons in H as [H|H]; [discriminate H|]).
    by apply elem_of_nil in H.
  - reflexivity.
Defined.

(** X4.  [removeServer] on a configured name drops the name from the
    configuration and from [activeSessions] but leaves the session record in
    place: [getSession] still returns it, while a new [createSession] for
    the name fails with "not found"; if the name is that of a member of
    [Object.prototype], the lookup finds the inherited member from then on
    and [createSession] fails with "Cannot determine connector type from
    config". *)
Theorem removeServer_keeps_session_record name c cfg :
  getServerConfig name c = Own cfg ->
  let c' := removeServer name c in
  getSession name c' = getSession name c /\
  getServerConfig name c'
  = (if bool_decide (name ∈ object_prototype_members) then Inherited else Missing) /\
  (name ∉ getServerNames c') /\
  (name ∉ activeSessions c') /\
  (forall io ai,
     (createSession io name ai c').1.1
     = Throw (new_Error
                (if bool_decide (name ∈ object_prototype_members)
                 then "Cannot determine connector type from config"
                 else "Server '" +:+ name +:+ "' not found in config"))).
Proof.
  unfold getServerConfig, removeServer, getSession, getServerNames, servers_or_empty.
  intros Hcfg. destruct (mcpServers c) as [servers|] eqn:Hm; [|done].
  rewrite Hcfg. simpl.
  split; [done|]. split; [apply js_get_delete_eq|].
  split; [rewrite elem_of_js_keys; apply obj_keys_delete|].
  split; [intros H; by apply list_elem_of_filter in H as [H _]|].
  intros io ai.
  match goal with |- context [createSession io name ai ?c0] =>
    destruct (createSession_run io name ai c0) as [l ->] end.
  unfold session_outcome, servers_or_empty. simpl.
  rewrite js_get_delete_eq. by case_bool_decide.
Qed.

Lemma removeServer_keeps_session_record_witness :
  let c := (createSession remote_ok "a" true two_server_client).1.2 in
  let c' := removeServer "a" c in
  is_Some (getSession "a" c) /\
  getSession "a" c' = getSession "a" c /\
  getServerConfig "a" c' = Missing /\
  ("a" ∉ getServerNames c') /\
  ("a" ∉ activeSessions c') /\
  (forall io ai,
     (createSession io "a" ai c').1.1
     = Throw (new_Error ("Server '" +:+ "a" +:+ "' not found in config"))).
Proof.
  split; [vm_compute; by eexists|].
  apply (removeServer_keeps_session_record "a"
           (createSession remote_ok "a" true two_server_client).1.2
           [("command", JStr "echo"); ("args", JArr ["hi"])]).
  reflexivity.
Defined.

(** A server that was configured under the name "constructor". *)
Example removeServer_inherited_name :
  let c := new_MCPClient (Some [("constructor", [("command", JStr "echo"); ("args", JArr [])])]) in
  let c' := removeServer "constructor" c in
  getServerConfig "constructor" c = Own [("command", JStr "echo"); ("args", JArr [])] /\
  getServerNames c' = [] /\
  getServerConfig "constructor" c' = Inherited /\
  (createSession remote_ok "constructor" true c').1.1
  = Throw (new_Error "Cannot determine connector type from config").
Proof. repeat split. Qed.

(** *** createAllSessions and closeAllSessions *)

(** The loop of [createAllSessions] on names that all succeed. *)
Lemma createSessions_ok io ai names : forall c,
  (forall n, n ∈ names ->
     exists s, session_outcome io (servers_or_empty c) n ai = Ok s) ->
  exists c' l,
    createSessions io ai names c = (Ok tt, c', l) /\
    mcpServers c' = mcpServers c /\
    (forall n, n ∈ names -> is_Some (sessions c' !! n) /\ n ∈ activeSessions c') /\
    (forall n, n ∉ names -> sessions c' !! n = sessions c !! n) /\
    (forall n, is_Some (sessions c !! n) -> is_Some (sessions c' !! n)) /\
    (forall n, n ∈ activeSessions c -> n ∈ activeSessions c').
Proof.
  induction names as [|n names IH]; intros c Hok; simpl.
  - exists c, []. split; [done|]. split; [done|].
    split; [intros ? Hnil; by apply elem_of_nil in Hnil|]. by repeat split.
  - destruct (Hok n) as [s Hs]; [apply elem_of_cons; by left|].
    destruct (createSession_run io n ai c) as [l1 Hrun]. rewrite Hs in Hrun.
    unfold bind. rewrite Hrun.
    set (c1 := {| mcpServers := mcpServers c;
                  sessions := <[n := s]> (sessions c);
                  activeSessions := if bool_decide (n ∈ activeSessions c)
                                    then activeSessions c
                                    else activeSessions c ++ [n] |}).
    destruct (IH c1) as (c' & l & Hloop & Hm & Hin & Hout & Hkeep & Hact).
    { intros m Hm. apply Hok. apply elem_of_cons; by right. }
    rewrite Hloop. exists c', (l1 ++ l).
    assert (Hn1 : is_Some (sessions c1 !! n))
      by (subst c1; simpl; rewrite lookup_insert_eq; by eexists).
    assert (Hn2 : n ∈ activeSessions c1).
    { subst c1; simpl. case_bool_decide; [done|]. apply elem_of_app; right.
      by apply list_elem_of_singleton. }
    split; [done|]. split; [done|].
    split; [|split; [|split]].
    + intros m Hm'. apply elem_of_cons in Hm' as [->|Hm']; [|by apply Hin].
      split; [by apply Hkeep | by apply Hact].
    + intros m Hm'. rewrite Hout.
      * subst c1; simpl. apply lookup_insert_ne. intros ->. apply Hm'.
        apply elem_of_cons; by left.
      * intros H. apply Hm'. apply elem_of_cons; by right.
    + intros m Hm'. apply Hkeep. subst c1; simpl.
      destruct (decide (n = m)) as [->|Hne];
        [rewrite lookup_insert_eq; by eexists | by rewrite lookup_insert_ne].
    + intros m Hm'. apply Hact. subst c1; simpl.
      case_bool_decide; [done|]. apply elem_of_app; by left.
Qed.

Lemma createSessions_app io ai l1 l2 : forall c,
  createSessions io ai (l1 ++ l2) c
  = match createSessions io ai l1 c with
    | (Ok _, c1, la) =>
        match createSessions io ai l2 c1 with (r, c2, lb) => (r, c2, la ++ lb) end
    | (Throw e, c1, la) => (Throw e, c1, la)
    | (Hangs, c1, la) => (Hangs, c1, la)
    end.
Proof.
  induction l1 as [|n l1 IH]; intros c; simpl.
  - unfold ret. by destruct (createSessions io ai l2 c) as [[r c2] lb].
  - unfold bind. destruct (createSession io n ai c) as [[[s|e|] c1] la]; [|done|done].
    rewrite IH.
    destruct (createSessions io ai l1 c1) as [[[[]|e|] c2] lb]; [|done|done].
    destruct (createSessions io ai l2 c2) as [[r c3] lc].
    by rewrite app_assoc.
Qed.

Lemma createAllSessions_run io ai c :
  exists l0,
    createAllSessions io ai c
    = match createSessions io ai (getServerNames c) c with
      | (Ok _, c', l) => (Ok (sessions c'), c', l0 ++ l ++ [])
      | (Throw e, c', l) => (Throw e, c', l0 ++ l)
      | (Hangs, c', l) => (Hangs, c', l0 ++ l)
      end.
Proof.
  unfold createAllSessions, bind, gets, when, getServerNames. simpl.
  destruct (length (js_keys (servers_or_empty c)) =? 0)%nat; simpl;
    [exists [(LWarn, "No MCP servers defined in config")] | exists []];
    by destruct (createSessions io ai _ c) as [[[[]|e|] c'] l].
Qed.

(** X5.  [createAllSessions] stops at the first server whose session cannot
    be created: the error of that server is thrown, the servers listed before
    it have their sessions and are active, and no session is made for it or
    for any server that is only listed after it. *)
Theorem createAllSessions_fail_fast io ai c pre name post e :
  getServerNames c = pre ++ name :: post ->
  (forall n, n ∈ pre ->
     exists s, session_outcome io (servers_or_empty c) n ai = Ok s) ->
  session_outcome io (servers_or_empty c) name ai = Throw e ->
  exists c' l,
    createAllSessions io ai c = (Throw e, c', l) /\
    (forall n, n ∈ pre -> is_Some (sessions c' !! n) /\ n ∈ activeSessions c') /\
    (forall n, n ∉ pre -> sessions c' !! n = sessions c !! n).
Proof.
  intros Hnames Hpre Hfail.
  destruct (createSessions_ok io ai pre c Hpre)
    as (c1 & l1 & Hl1 & Hm & Hin & Hout & _ & _).
  destruct (createSession_run io name ai c1) as [l2 Hrun].
  assert (Hs : servers_or_empty c1 = servers_or_empty c)
    by (unfold servers_or_empty; by rewrite Hm).
  rewrite Hs, Hfail in Hrun.
  destruct (createAllSessions_run io ai c) as [l0 ->].
  rewrite Hnames, createSessions_app, Hl1. simpl. unfold bind. rewrite Hrun.
  eexists _, _. split; [reflexivity|]. by split.
Qed.

Lemma createAllSessions_fail_fast_witness :
  exists c' l,
    createAllSessions remote_b_down true two_server_client
      = (Throw (new_Error "connect ECONNREFUSED"), c', l) /\
    (forall n, n ∈ ["a"] -> is_Some (sessions c' !! n) /\ n ∈ activeSessions c') /\
    (forall n, n ∉ ["a"] -> sessions c' !! n = sessions two_server_client !! n).
Proof.
  apply (createAllSessions_fail_fast remote_b_down true two_server_client ["a"] "b" []).
  - reflexivity.
  - intros n Hn. apply list_elem_of_singleton in Hn. subst n.
    eexists. vm_compute. reflexivity.
  - vm_compute. reflexivity.
Defined.

(** X6.  When every configured server can be reached, [createAllSessions]
    returns the session map, in which every configured server has a session,
    and every configured server is active. *)
Theorem createAllSessions_all io ai c :
  (forall n, n ∈ getServerNames c ->
     exists s, session_outcome io (servers_or_empty c) n ai = Ok s) ->
  exists c' l,
    createAllSessions io ai c = (Ok (sessions c'), c', l) /\
    (forall n, n ∈ getServerNames c ->
       is_Some (sessions c' !! n) /\ n ∈ activeSessions c') /\
    getServerNames c' = getServerNames c.
Proof.
  intros Hok.
  destruct (createSessions_ok io ai (getServerNames c) c Hok)
    as (c1 & l1 & Hl1 & Hm & Hin & _).
  destruct (createAllSessions_run io ai c) as [l0 ->]. rewrite Hl1.
  eexists _, _. split; [reflexivity|]. split; [done|].
  unfold getServerNames, servers_or_empty; by rewrite Hm.
Qed.

Lemma createAllSessions_all_witness :
  exists c' l,
    createAllSessions remote_ok true two_server_client = (Ok (sessions c'), c', l) /\
    (forall n, n ∈ getServerNames two_server_client ->
       is_Some (sessions c' !! n) /\ n ∈ activeSessions c') /\
    getServerNames c' = getServerNames two_server_client.
Proof.
  apply (createAllSessions_all remote_ok true two_server_client).
  intros n Hn. vm_compute in Hn.
  apply elem_of_cons in Hn as [->|Hn]; [eexists; vm_compute; reflexivity|].
  apply list_elem_of_singleton in Hn. subst n. eexists. vm_compute. reflexivity.
Defined.

(** [closeSession] when the disconnect of the session, if there is one,
    settles. *)
Lemma closeSession_run_settled io name c :
  (forall s, sessions c !! name = Some s -> disconnect_outcome io name s <> NeverSettles) ->
  exists l,
    closeSession io name c
    = (Ok tt,
       match sessions c !! name with
       | Some _ =>
           {| mcpServers := mcpServers c;
              sessions := delete name (sessions c);
              activeSessions := filter (fun n => n <> name) (activeSessions c) |}
       | None => c
       end, l).
Proof.
  intros Hd. destruct (closeSession_run io name c) as [l ->].
  destruct (sessions c !! name) as [s|]; [|by eexists].
  specialize (Hd s eq_refl).
  destruct (disconnect_outcome io name s); [by eexists | by eexists | by destruct Hd].
Qed.

Lemma closeSession_state_settled io name c :
  (forall s, sessions c !! name = Some s -> disconnect_outcome io name s <> NeverSettles) ->
  let c1 := (closeSession io name c).1.2 in
  mcpServers c1 = mcpServers c /\
  (forall m, sessions c1 !! m = if bool_decide (m = name) then None else sessions c !! m) /\
  (forall m, m ∈ activeSessions c1 -> m ∈ activeSessions c) /\
  (is_Some (sessions c !! name) -> name ∉ activeSessions c1).
Proof.
  intros Hd. destruct (closeSession_run_settled io name c Hd) as [l ->]. simpl.
  destruct (sessions c !! name) as [s0|] eqn:E; simpl.
  - split; [done|]. split.
    + intros m. case_bool_decide as Em.
      * subst m. apply lookup_delete_eq.
      * by apply lookup_delete_ne.
    + split.
      * intros m Hm. by apply list_elem_of_filter in Hm as [_ ?].
      * intros _ Hin. by apply list_elem_of_filter in Hin as [? _].
  - split; [done|]. split.
    + intros m. case_bool_decide; [by subst | done].
    + split; [done|]. by intros [? ?].
Qed.

(** The loop of [closeAllSessions] over sessions whose disconnect settles:
    it collects no error, removes the record of every listed name, and drops
    the listed names from [activeSessions]. *)
Lemma closeSessions_run io names : forall c,
  active_tracked c ->
  (forall n s, n ∈ names -> sessions c !! n = Some s ->
               disconnect_outcome io n s <> NeverSettles) ->
  exists c' l,
    closeSessions io names c = (Ok [], c', l) /\
    mcpServers c' = mcpServers c /\
    (forall n, sessions c' !! n
               = if bool_decide (n ∈ names) then None else sessions c !! n) /\
    (forall n, n ∈ activeSessions c' -> n ∈ activeSessions c /\ n ∉ names).
Proof.
  induction names as [|n names IH]; intros c Hc Hd; simpl.
  - exists c, []. split; [done|]. split; [done|]. split; [done|].
    intros m Hm. split; [done | apply not_elem_of_nil].
  - unfold bind, try_catch, log, ret.
    assert (forall s, sessions c !! n = Some s -> disconnect_outcome io n s <> NeverSettles)
      as Hn by (intros s; apply Hd, elem_of_cons; by left).
    pose proof (closeSession_state_settled io n c Hn) as (Hm1 & Hs1 & Ha1 & Hn1).
    pose proof (active_tracked_closeSession io n c Hc) as Hc1.
    destruct (closeSession_run_settled io n c Hn) as [l0 Hrun].
    rewrite Hrun in *. simpl in Hm1, Hs1, Ha1, Hn1, Hc1. simpl.
    match type of Hc1 with active_tracked ?x => set (c1 := x) in * end.
    destruct (IH c1 Hc1) as (c' & l & Hl & Hm & Hs & Ha).
    { intros m s Hm Hms. rewrite Hs1 in Hms.
      case_bool_decide; [done|]. apply (Hd m s); [apply elem_of_cons; by right | done]. }
    rewrite Hl. simpl. eexists _, _. split; [reflexivity|].
    split; [congruence|]. split.
    + intros m. rewrite Hs, Hs1.
      destruct (decide (m = n)) as [->|Hne].
      * rewrite (bool_decide_eq_true_2 (n ∈ n :: names)) by (apply elem_of_cons; by left).
        by destruct (bool_decide (n ∈ names)); rewrite ?bool_decide_eq_true_2.
      * rewrite (bool_decide_eq_false_2 (m = n)) by done.
        destruct (decide (m ∈ names)) as [Hin|Hin].
        -- rewrite !bool_decide_eq_true_2; [done | apply elem_of_cons; by right | done].
        -- rewrite !bool_decide_eq_false_2; [done | | done].
           intros H. apply elem_of_cons in H as [H|H]; done.
    + intros m Hm'. destruct (Ha m Hm') as [H1 H2].
      split; [by apply Ha1|]. intros H. apply elem_of_cons in H as [->|H]; [|done].
      destruct (sessions c !! n) as [s|] eqn:E.
      * by apply Hn1.
      * destruct Hc as [_ Hc]. destruct (Hc n (Ha1 n H1)) as [x Hx]. congruence.
Qed.

(** The loop stops for ever at the first session whose disconnect stays
    pending. *)
Lemma closeSessions_pending io pre name post s : forall c,
  active_tracked c ->
  (forall n s', n ∈ pre -> sessions c !! n = Some s' ->
                disconnect_outcome io n s' <> NeverSettles) ->
  name ∉ pre -> sessions c !! name = Some s ->
  disconnect_outcome io name s = NeverSettles ->
  exists c' l,
    closeSessions io (pre ++ name :: post) c = (Hangs, c', l) /\
    mcpServers c' = mcpServers c /\
    sessions c' !! name = Some s /\
    (forall n, n ∈ pre -> sessions c' !! n = None) /\
    (forall n, n ∉ pre -> sessions c' !! n = sessions c !! n).
Proof.
  induction pre as [|n pre IH]; intros c Hc Hd Hnin Hs Hp; simpl.
  - unfold bind, try_catch, log.
    rewrite (closeSession_pending io name c s Hs Hp). simpl.
    eexists _, _. split; [reflexivity|]. split; [done|]. split; [done|].
    split; [|done]. intros m Hm. by apply elem_of_nil in Hm.
  - unfold bind, try_catch, log, ret.
    assert (forall s', sessions c !! n = Some s' -> disconnect_outcome io n s' <> NeverSettles)
      as Hn by (intros s'; apply Hd, elem_of_cons; by left).
    assert (name <> n) as Hne by (intros ->; apply Hnin, elem_of_cons; by left).
    pose proof (closeSession_state_settled io n c Hn) as (Hm1 & Hs1 & Ha1 & Hn1).
    pose proof (active_tracked_closeSession io n c Hc) as Hc1.
    destruct (closeSession_run_settled io n c Hn) as [l0 Hrun].
    rewrite Hrun in *. simpl in Hm1, Hs1, Ha1, Hn1, Hc1. simpl.
    match type of Hc1 with active_tracked ?x => set (c1 := x) in * end.
    destruct (IH c1 Hc1) as (c' & l & Hl & Hm & Hs' & Hin & Hout).
    { intros m s' Hm Hms. rewrite Hs1 in Hms.
      case_bool_decide; [done|]. apply (Hd m s'); [apply elem_of_cons; by right | done]. }
    { intros H. apply Hnin, elem_of_cons; by right. }
    { rewrite Hs1. by rewrite bool_decide_eq_false_2. }
    { done. }
    rewrite Hl. simpl. eexists _, _. split; [reflexivity|].
    split; [congruence|]. split; [done|]. split.
    + intros m Hm'. destruct (decide (m ∈ pre)) as [Hp'|Hp']; [by apply Hin|].
      apply elem_of_cons in Hm' as [->|Hm']; [|done].
      rewrite Hout, Hs1 by done. by rewrite bool_decide_eq_true_2.
    + intros m Hm'. rewrite Hout, Hs1.
      * rewrite bool_decide_eq_false_2; [done|].
        intros ->. apply Hm', elem_of_cons; by left.
      * intros H. apply Hm', elem_of_cons; by right.
Qed.

(** X7.  [closeAllSessions] over the names that have a session record.
    When the [disconnect()] of every session settles, it never throws,
    leaves no session record and no active name, and always logs "All
    sessions closed successfully": the errors of the individual disconnects
    are swallowed by [closeSession], so none is ever counted.  When the
    disconnect of one session stays pending, it never returns: the sessions
    listed before that one are closed, and that one and those listed after
    it keep their records. *)
Theorem closeAllSessions_closes_everything io names c :
  active_tracked c ->
  (forall n, is_Some (sessions c !! n) -> n ∈ names) ->
  ((forall n s, sessions c !! n = Some s -> disconnect_outcome io n s <> NeverSettles) ->
   exists c' l,
     closeAllSessions io names c = (Ok tt, c', l) /\
     sessions c' = ∅ /\
     activeSessions c' = [] /\
     mcpServers c' = mcpServers c /\
     (LDebug, "All sessions closed successfully") ∈ l) /\
  (forall pre name post s,
     names = pre ++ name :: post -> name ∉ pre ->
     (forall n s', n ∈ pre -> sessions c !! n = Some s' ->
                   disconnect_outcome io n s' <> NeverSettles) ->
     sessions c !! name = Some s ->
     disconnect_outcome io name s = NeverSettles ->
     exists c' l,
       closeAllSessions io names c = (Hangs, c', l) /\
       sessions c' !! name = Some s /\
       (forall n, n ∈ pre -> sessions c' !! n = None) /\
       (forall n, n ∉ pre -> sessions c' !! n = sessions c !! n)).
Proof.
  intros Hc Hnames. split.
  - intros Hd.
    destruct (closeSessions_run io names c Hc) as (c' & l & Hl & Hm & Hs & Ha);
      [by eauto|].
    unfold closeAllSessions, bind. rewrite Hl. simpl.
    unfold log. eexists _, _. split; [reflexivity|].
    split; [|split; [|split; [done|]]].
    + apply map_eq. intros n. rewrite lookup_empty, Hs.
      case_bool_decide as Hin; [done|].
      destruct (sessions c !! n) eqn:E; [|done].
      exfalso. apply Hin, Hnames. by eexists.
    + destruct (activeSessions c') as [|n rest] eqn:E; [done|].
      destruct (Ha n) as [H1 H2]; [rewrite ?E; apply elem_of_cons; by left|].
      exfalso. apply H2, Hnames. destruct Hc as [_ Hc]. by apply Hc.
    + apply elem_of_app; right. by apply list_elem_of_singleton.
  - intros pre name post s -> Hnin Hd Hs Hp.
    destruct (closeSessions_pending io pre name post s c Hc Hd Hnin Hs Hp)
      as (c' & l & Hl & _ & Hs' & Hin & Hout).
    unfold closeAllSessions, bind. rewrite Hl.
    eexists _, _. split; [reflexivity|]. by repeat split.
Qed.

Example both_sessions_client_reached :
  (createAllSessions remote_ok true two_server_client).1.2 = both_sessions_client.
Proof. vm_compute. reflexivity. Qed.

Lemma both_sessions_client_tracked : active_tracked both_sessions_client.
Proof.
  split; simpl.
  - apply NoDup_cons. split; [|apply NoDup_singleton].
    intros H. apply list_elem_of_singleton in H. discriminate H.
  - intros n Hn. apply elem_of_cons in Hn as [->|Hn]; [by eexists|].
    apply list_elem_of_singleton in Hn. subst n. by eexists.
Qed.

Lemma both_sessions_client_names n :
  is_Some (sessions both_sessions_client !! n) -> n ∈ ["a"; "b"].
Proof.
  intros [s Hs]. simpl in Hs.
  destruct (decide (n = "a")) as [->|Ha]; [apply elem_of_cons; by left|].
  destruct (decide (n = "b")) as [->|Hb];
    [apply elem_of_cons; right; apply elem_of_cons; by left|].
  rewrite lookup_insert_ne in Hs by done. rewrite lookup_insert_ne in Hs by done.
  by rewrite lookup_empty in Hs.
Qed.

(** Both disconnects reject; with a remote on which the disconnect of "b"
    stays pending, "a" is closed and "b" keeps its record. *)
Lemma closeAllSessions_closes_everything_witness :
  (exists c' l,
     closeAllSessions remote_failing_disconnects ["a"; "b"] both_sessions_client
       = (Ok tt, c', l) /\
     sessions c' = ∅ /\
     activeSessions c' = [] /\
     mcpServers c' = mcpServers both_sessions_client /\
     (LDebug, "All sessions closed successfully") ∈ l) /\
  (exists c' l,
     closeAllSessions remote_b_pending ["a"; "b"] both_sessions_client
       = (Hangs, c', l) /\
     is_Some (sessions c' !! "b") /\
     sessions c' !! "a" = None).
Proof.
  split.
  - apply (proj1 (closeAllSessions_closes_everything remote_failing_disconnects
                    ["a"; "b"] both_sessions_client both_sessions_client_tracked
                    both_sessions_client_names)).
    intros n s _. discriminate.
  - destruct (proj2 (closeAllSessions_closes_everything remote_b_pending
                       ["a"; "b"] both_sessions_client both_sessions_client_tracked
                       both_sessions_client_names)
                ["a"] "b" []
                (new_MCPSession
                   (HttpConnector (JStr "http://localhost:3000/mcp") JUndefined
                                  JUndefined (JBool false))))
      as (c' & l & H1 & H2 & H3 & _).
    + reflexivity.
    + intros H. apply list_elem_of_singleton in H. discriminate H.
    + intros n s' Hn Hs'. apply list_elem_of_singleton in Hn. subst n.
      vm_compute. discriminate.
    + reflexivity.
    + reflexivity.
    + exists c', l. split; [done|]. split; [by eexists|].
      apply H3. apply list_elem_of_singleton. reflexivity.
Defined.

End ClientOpsFacts.

(* ===================================================================== *)
(** ** ConnectionManager: what start() returns, when stop() returns        *)
(* ===================================================================== *)

Module ConnMgrMoreFacts.
Import Js ConnMgr ConnMgrNotions ConnMgrFacts.

(** Evaluates the code between two suspensions on a state given by its
    fields. *)
Ltac mgr_eval :=
  lazy beta iota zeta delta
    [step call_start call_stop establish_settled close_settled
     waitForAbort enter_finally readyResolver doneResolver
     settle_stops settle_stop reset start_result
     set_connection set_exception set_tasks set_readyResolved
     set_doneResolved set_aborted set_starts set_stops
     set_established set_closeCalls
     gen exception connection task tasks readyResolved doneResolved
     aborted starts stops established closeCalls].


Section More.
Context {T : Type}.
Implicit Types (s : State T) (ev : Event T) (evs : list (Event T)).



(** *** One step at a time *)







(** *** Whole scenarios *)

(** *** start() until establishConnection() settles *)













(** *** A second start() without stop() *)

Lemma orphaned_enter_finally t g t' s :
  orphaned t g s -> t' <> t -> orphaned t g (enter_finally t' s).
Proof.
  unfold orphaned. destruct s as [g0 ex cn tk ts rr dr ab sts sps es cc].
  mgr_eval. intros (Hl & Hg & Ha) Hne.
  destruct cn; mgr_eval; by rewrite list_lookup_insert_ne.
Qed.

Lemma orphaned_fold_resume t g g0 (l : list nat) s :
  orphaned t g s -> g <> g0 ->
  orphaned t g
    (fold_left
       (fun s t => match tasks s !! t with
                   | Some (WaitingAbort g') =>
                       if bool_decide (g' = g0) then enter_finally t s else s
                   | _ => s
                   end) l s).
Proof.
  intros H Hne. revert s H.
  induction l as [|t' l IH]; intros s H; simpl; [done|].
  apply IH.
  destruct (tasks s !! t') as [[]|] eqn:E; try done.
  case_bool_decide; [|done]. subst.
  apply orphaned_enter_finally; [done|].
  intros ->. destruct H as (Hl & _). congruence.
Qed.

Lemma orphaned_abort t g s : orphaned t g s -> orphaned t g (abort s).
Proof.
  intros H. unfold abort. case_bool_decide; [done|].
  unfold resume_aborted. apply orphaned_fold_resume.
  - destruct H as (Hl & Hg & Ha).
    destruct s as [g0 ex cn tk ts rr dr ab sts sps es cc]. unfold orphaned.
    simpl in *. split; [done|]. split; [done|].
    intros [->|Hin]%elem_of_cons; [lia | done].
  - destruct H as (_ & Hg & _).
    destruct s as [g0 ex cn tk ts rr dr ab sts sps es cc]. simpl in *. lia.
Qed.

Lemma orphaned_step t g ev s : orphaned t g s -> orphaned t g (step ev s).
Proof.
  intros H.
  assert (forall s', orphaned t g s' -> orphaned t g (settle_stops s')) as Hs.
  { intros s'. by destruct s'. }
  unfold step. apply Hs. destruct ev as [| |t' r|t' r].
  - destruct H as (Hl & Hg & Ha).
    destruct s as [g0 ex cn tk ts rr dr ab sts sps es cc]. unfold orphaned.
    simpl in *. split; [by apply lookup_app_keep|]. split; [lia | done].
  - unfold call_stop. destruct (task s).
    + apply orphaned_abort in H. by destruct (abort s).
    + by destruct s.
  - unfold establish_settled.
    destruct (tasks s !! t') as [[]|] eqn:E; try done.
    assert (t' <> t) as Hne by (intros ->; destruct H as (Hl & _); congruence).
    destruct r as [e|c].
    + apply orphaned_enter_finally; [|done]. by destruct s.
    + unfold waitForAbort. case_bool_decide.
      * apply orphaned_enter_finally; [|done]. by destruct s.
      * destruct H as (Hl & Hg & Ha).
        destruct s as [g0 ex cn tk ts rr dr ab sts sps es cc]. unfold orphaned.
        simpl in *. by rewrite list_lookup_insert_ne.
  - unfold close_settled.
    destruct (tasks s !! t') as [[]|] eqn:E; try done.
    assert (t' <> t) as Hne by (intros ->; destruct H as (Hl & _); congruence).
    destruct H as (Hl & Hg & Ha).
    destruct s as [g0 ex cn tk ts rr dr ab sts sps es cc]. unfold orphaned.
    simpl in *. by rewrite list_lookup_insert_ne.
Qed.

Lemma orphaned_run t g evs : forall s, orphaned t g s -> orphaned t g (run evs s).
Proof.
  induction evs as [|ev evs IH]; intros s H; [done|].
  apply (IH (step ev s)), orphaned_step, H.
Qed.

(** X13.  A task whose abort controller was replaced by a later [start()]
    before [stop()] was called is never resumed: whatever is called and
    whatever settles afterwards, it stays suspended in [waitForAbort()], so
    it never reaches the [finally] block that closes its connection. *)
Theorem restart_orphans_task t g evs s :
  orphaned t g s ->
  tasks (run evs s) !! t = Some (WaitingAbort g) /\ orphaned t g (run evs s).
Proof.
  intros H. apply (orphaned_run t g evs) in H. split; [apply H | done].
Qed.

End More.






(** Two [start()] calls in a row: the first task is orphaned, and a
    [stop()] closes the second connection only. *)
Lemma restart_orphans_task_witness :
  let s := run [CallStart; EstablishSettled 0 (inr 7); CallStart] (new : State nat) in
  orphaned 0 1 s /\
  tasks (run [EstablishSettled 1 (inr 8); CallStop; CloseSettled 1 None] s) !! 0
  = Some (WaitingAbort 1).
Proof.
  assert (orphaned 0 1
            (run [CallStart; EstablishSettled 0 (inr 7); CallStart] (new : State nat)))
    as H.
  { unfold orphaned. vm_compute. split; [done|]. split; [lia|].
    apply not_elem_of_nil. }
  split; [done|].
  apply (restart_orphans_task 0 1
           [EstablishSettled 1 (inr 8); CallStop; CloseSettled 1 None] _ H).
Defined.

End ConnMgrMoreFacts.

(* ===================================================================== *)
(** ** BaseConnector and HttpConnector: the connection lifecycle           *)
(* ===================================================================== *)

Module HttpOpsFacts.
Import Js Eff Eff.Notations Http HttpOps HttpFacts.

Ltac run_ops :=
  unfold initialize, connect, disconnect, connectWithSse, connectWithStreamableHttp,
         connectWith, cleanupResources, when, await_unit, await_res,
         try_finally, try_catch, bind, gets, get, modify, log, ret, throw,
         set_client, set_connectionManager, set_toolsCache, set_connected,
         set_transportType;
  simpl.

(** What one attempt does to a connector that holds nothing. *)
Lemma connectWith_run t msg a c :
  connected c = false -> client c = None -> connectionManager c = None ->
  toolsCache c = None ->
  exists l,
    connectWith (manager_of t) t msg a c
    = match attempt_error a with
      | Some e => (Throw e, c, l)
      | None =>
          (Ok tt,
           mkHttp (baseUrl c) (preferSse c) (Some tt) (Some (manager_of t)) None
                  true (Some t), l)
      end.
Proof.
  destruct c as [u p cl cm tc cn tt0]. simpl. intros -> -> -> ->.
  unfold attempt_error. run_ops.
  destruct (construct_outcome a); simpl; [eexists; reflexivity|].
  destruct (start_outcome a); simpl.
  { destruct (stop_outcome a); simpl; eexists; reflexivity. }
  destruct (handshake_outcome a); simpl; [|eexists; reflexivity].
  destruct (close_outcome a), (stop_outcome a); simpl; eexists; reflexivity.
Qed.

(** [connect()] on a connector that holds nothing. *)
Lemma connect_run http sse c :
  connected c = false -> client c = None -> connectionManager c = None ->
  toolsCache c = None ->
  let up t := mkHttp (baseUrl c) (preferSse c) (Some tt) (Some (manager_of t)) None
                     true (Some t) in
  exists l,
    connect http sse c
    = if preferSse c then
        match attempt_error sse with
        | Some e => (Throw e, c, l)
        | None => (Ok tt, up Sse, l)
        end
      else
        match attempt_error http with
        | None => (Ok tt, up StreamableHttp, l)
        | Some _ =>
            match attempt_error sse with
            | Some _ => (Throw (new_Error both_failed_message), c, l)
            | None => (Ok tt, up Sse, l)
            end
        end.
Proof.
  intros Hc Hcl Hcm Htc. cbv zeta.
  unfold connect, connectWithSse, connectWithStreamableHttp.
  unfold bind at 1, gets at 1. rewrite Hc.
  unfold bind at 1, gets at 1. unfold bind at 1, gets at 1.
  destruct (preferSse c) eqn:Hp.
  - unfold bind at 1, log at 1. unfold bind at 1, gets at 1.
    match goal with |- context [connectWith _ _ ?m sse c] =>
      destruct (connectWith_run Sse m sse c Hc Hcl Hcm Htc) as [l Hl];
      cbn [manager_of] in Hl; rewrite Hl, ?Hp; clear Hl end.
    destruct (attempt_error sse); eexists; reflexivity.
  - unfold bind at 1, log at 1. unfold try_catch at 1.
    unfold bind at 1, log at 1. unfold bind at 1, gets at 1.
    match goal with |- context [connectWith _ _ ?m http c] =>
      destruct (connectWith_run StreamableHttp m http c Hc Hcl Hcm Htc) as [l Hl];
      cbn [manager_of] in Hl; rewrite Hl, ?Hp; clear Hl end.
    destruct (attempt_error http) as [e|]; [|eexists; reflexivity].
    unfold bind at 1.
    assert (exists l1, when (is_Error_instance e) (log LDebug (fallbackReason e)) c
                       = (Ok tt, c, l1)) as [l1 ->]
      by (destruct (is_Error_instance e); eexists; reflexivity).
    unfold bind at 1, log at 1. unfold try_catch at 1.
    unfold bind at 1, gets at 1.
    match goal with |- context [connectWith _ _ ?m sse c] =>
      destruct (connectWith_run Sse m sse c Hc Hcl Hcm Htc) as [l2 Hl];
      cbn [manager_of] in Hl; rewrite Hl, ?Hp; clear Hl end.
    destruct (attempt_error sse) as [e2|]; [|eexists; reflexivity].
    unfold bind at 1, log at 1. unfold bind at 1, log at 1.
    unfold bind at 1, log at 1. unfold bind at 1.
    destruct (cleanupResources_ok sse c) as (c' & l3 & -> & Hcln).
    assert (c' = c) as ->.
    { destruct c, c'. unfold cleaned in Hcln. simpl in *.
      destruct Hcln as (-> & -> & -> & -> & -> & -> & ->). by subst. }
    unfold throw. eexists; reflexivity.
Qed.

Lemma disconnect_run a c :
  exists l,
    disconnect a c
    = (Ok tt,
       if connected c then
         mkHttp (baseUrl c) (preferSse c) None None None false (transportType c)
       else c, l).
Proof.
  destruct c as [u p cl cm tc cn tt0]. run_ops. destruct cn; simpl.
  - destruct cl; simpl; [destruct (close_outcome a); simpl|];
      (destruct cm; simpl; [destruct (stop_outcome a); simpl|]);
      eexists; reflexivity.
  - eexists; reflexivity.
Qed.

Lemma coherent_exec_op op c : coherent c -> coherent ((exec_op op c).1.2).
Proof.
  unfold coherent. intros H. destruct op as [http sse|a|lt]; simpl.
  - destruct (connected c) eqn:Hc.
    + unfold connect, bind, gets. rewrite Hc. simpl. by rewrite Hc.
    + destruct H as (Hcl & Hcm & Htc).
      destruct (connect_run http sse c Hc Hcl Hcm Htc) as [l ->].
      destruct (preferSse c), (attempt_error http), (attempt_error sse); simpl;
        rewrite ?Hc; eauto.
  - destruct (disconnect_run a c) as [l ->]. simpl.
    destruct (connected c) eqn:Hc; simpl; [done | by rewrite Hc].
  - destruct c as [u p cl cm tc cn tt0]. run_ops. simpl in *.
    destruct cl as [[]|]; simpl; [|done].
    destruct lt as [e|ts]; simpl; [done|].
    destruct cn; [done|]. by destruct H.
Qed.

Lemma coherent_after_ops ops : forall c, coherent c -> coherent (after_ops ops c).
Proof.
  induction ops as [|op ops IH]; intros c H; [done|].
  apply (IH _ (coherent_exec_op op c H)).
Qed.

(** X14.  Between calls a connector never holds half a connection:
    whatever sequence of [connect()], [disconnect()] and [initialize()]
    calls was made, and however each of them ended, a connector that is not
    connected holds no client and no connection manager and its [tools]
    getter throws, and a connected one holds a client and the connection
    manager of the transport it reports. *)
Theorem connector_holds_all_or_nothing url opt ops :
  let c := after_ops ops (new_HttpConnector url opt) in
  (connected c = false ->
     client c = None /\ connectionManager c = None /\
     tools c = Throw (new_Error "MCP client is not initialized; call initialize() first")) /\
  (connected c = true ->
     isClientConnected c = true /\
     exists t, transportType c = Some t /\ connectionManager c = Some (manager_of t) /\
               transport (publicIdentifier c) = transport_name t).
Proof.
  intros c.
  assert (coherent c) as H by (by apply coherent_after_ops).
  unfold coherent, tools, isClientConnected, publicIdentifier in *. simpl.
  destruct (connected c); split; try done.
  - intros _. destruct H as (-> & t & Ht & Hm). split; [done|].
    exists t. by rewrite Ht.
  - intros _. by destruct H as (-> & -> & ->).
Qed.

(** X15.  [disconnect()] never throws, also when [client.close()] and
    [connectionManager.stop()] both reject: a connected connector ends up
    holding nothing, an unconnected one is left as it is.  The transport
    type is not reset, so [publicIdentifier] goes on naming the transport of
    the closed connection. *)
Theorem disconnect_never_throws a c :
  exists c' l,
    disconnect a c = (Ok tt, c', l) /\
    connected c' = false /\
    publicIdentifier c' = publicIdentifier c /\
    (if connected c
     then client c' = None /\ connectionManager c' = None /\ toolsCache c' = None
     else c' = c).
Proof.
  destruct (disconnect_run a c) as [l ->].
  eexists _, _. split; [reflexivity|].
  destruct (connected c) eqn:Hc; simpl; by rewrite ?Hc.
Qed.

(** X16.  When the streamable-HTTP attempt succeeds the SSE attempt is never
    made: [connect()] returns normally whatever the SSE side would do, and
    the connector reports the transport "streamable-http". *)
Theorem connect_streamable_first http c :
  coherent c -> connected c = false -> preferSse c = false ->
  attempt_error http = None ->
  exists c',
    (forall sse, exists l, connect http sse c = (Ok tt, c', l)) /\
    connected c' = true /\
    connectionManager c' = Some StreamableHttpConnectionManager /\
    transport (publicIdentifier c') = "streamable-http".
Proof.
  unfold coherent. intros H Hc Hp He. rewrite Hc in H. destruct H as (Hcl & Hcm & Htc).
  exists (mkHttp (baseUrl c) (preferSse c) (Some tt)
                 (Some StreamableHttpConnectionManager) None true (Some StreamableHttp)).
  split; [|by repeat split].
  intros sse. destruct (connect_run http sse c Hc Hcl Hcm Htc) as [l ->].
  rewrite Hp, He. by eexists.
Qed.

(** X17.  The fallback does not depend on the kind of failure: whatever
    error the streamable-HTTP attempt ends with (a 404 or 405, any other
    status, a network error, a thrown non-error value), [connect()] goes on
    to SSE, and if that attempt succeeds the connector is connected over
    "sse" with the SSE connection manager. *)
Theorem connect_falls_back_on_any_error http sse c e :
  coherent c -> connected c = false -> preferSse c = false ->
  attempt_error http = Some e -> attempt_error sse = None ->
  exists c' l,
    connect http sse c = (Ok tt, c', l) /\
    connected c' = true /\
    connectionManager c' = Some SseConnectionManager /\
    transport (publicIdentifier c') = "sse".
Proof.
  unfold coherent. intros H Hc Hp He Hs. rewrite Hc in H.
  destruct H as (Hcl & Hcm & Htc).
  destruct (connect_run http sse c Hc Hcl Hcm Htc) as [l ->].
  rewrite Hp, He, Hs. eexists _, _. split; [reflexivity|]. by repeat split.
Qed.

(** X18.  With [preferSse] the streamable-HTTP transport is never tried:
    the outcome of [connect()] is that of the SSE attempt alone, and a
    failure of that attempt is re-thrown as it is, not wrapped in the
    "any available transport" error, leaving the connector as it was. *)
Theorem connect_preferSse_only_sse sse c :
  coherent c -> connected c = false -> preferSse c = true ->
  exists r c',
    (forall http, exists l, connect http sse c = (r, c', l)) /\
    match attempt_error sse with
    | Some e => r = Throw e /\ c' = c
    | None =>
        r = Ok tt /\ connected c' = true /\
        connectionManager c' = Some SseConnectionManager /\
        transport (publicIdentifier c') = "sse"
    end.
Proof.
  unfold coherent. intros H Hc Hp. rewrite Hc in H. destruct H as (Hcl & Hcm & Htc).
  destruct (attempt_error sse) as [e|] eqn:Hs.
  - exists (Throw e), c. split; [|done].
    intros http. destruct (connect_run http sse c Hc Hcl Hcm Htc) as [l ->].
    rewrite Hp, Hs. by eexists.
  - exists (Ok tt),
           (mkHttp (baseUrl c) (preferSse c) (Some tt) (Some SseConnectionManager)
                   None true (Some Sse)).
    split; [|by repeat split].
    intros http. destruct (connect_run http sse c Hc Hcl Hcm Htc) as [l ->].
    rewrite Hp, Hs. by eexists.
Qed.

(** *** The base URL *)

Lemma strip_trailing_slash_snoc (u : string) (a : ascii) :
  strip_trailing_slash (u +:+ String a EmptyString)
  = if bool_decide (a = "/"%char) then u else u +:+ String a EmptyString.
Proof.
  induction u as [|b u IH]; [done|].
  change (String b u +:+ String a EmptyString)
    with (String b (u +:+ String a EmptyString)).
  destruct (u +:+ String a EmptyString) as [|a0 r] eqn:E; [by destruct u|].
  change (strip_trailing_slash (String b (String a0 r)))
    with (String b (strip_trailing_slash (String a0 r))).
  rewrite IH. by case_bool_decide.
Qed.

(** X19.  The constructor drops exactly one trailing slash of the URL, and
    leaves a URL that does not end in a slash as it is; [publicIdentifier]
    reports the result. *)
Theorem baseUrl_drops_one_trailing_slash (u : string) (a : ascii) opt :
  url (publicIdentifier (new_HttpConnector (u +:+ "/") opt)) = u /\
  (a <> "/"%char ->
   url (publicIdentifier (new_HttpConnector (u +:+ String a EmptyString) opt))
   = u +:+ String a EmptyString) /\
  url (publicIdentifier (new_HttpConnector EmptyString opt)) = EmptyString.
Proof.
  unfold publicIdentifier, new_HttpConnector; simpl.
  split; [by rewrite strip_trailing_slash_snoc, bool_decide_eq_true_2|].
  split; [|done].
  intros Ha. by rewrite strip_trailing_slash_snoc, bool_decide_eq_false_2.
Qed.

(** *** initialize() and the tools getter *)

(** X20.  [initialize()] on a connector that holds a client caches the tools
    the server lists (none when the reply has no [tools] member), and the
    [tools] getter then returns them; if [listTools] rejects, the error is
    re-thrown and the cache is left as it was; without a client it throws
    "MCP client is not connected" and changes nothing. *)
Theorem initialize_caches_tools lt c :
  exists r c' l,
    initialize lt c = (r, c', l) /\
    match client c, lt with
    | None, _ => r = Throw (new_Error "MCP client is not connected") /\ c' = c
    | Some _, inl e => r = Throw e /\ c' = c
    | Some _, inr ts =>
        r = Ok tt /\ tools c' = Ok (default [] ts) /\
        connected c' = connected c /\ client c' = client c /\
        connectionManager c' = connectionManager c /\
        transportType c' = transportType c
    end.
Proof.
  destruct c as [u p cl cm tc cn tt0]. run_ops.
  destruct cl as [[]|]; simpl; [|by eexists _, _, _].
  destruct lt as [e|ts]; simpl; by eexists _, _, _.
Qed.

Lemma connect_streamable_first_witness :
  exists c',
    (forall sse, exists l,
       connect attempt_ok sse (new_HttpConnector "http://localhost:3000/mcp" None)
       = (Ok tt, c', l)) /\
    connected c' = true /\
    connectionManager c' = Some StreamableHttpConnectionManager /\
    transport (publicIdentifier c') = "streamable-http".
Proof.
  apply (connect_streamable_first attempt_ok
           (new_HttpConnector "http://localhost:3000/mcp" None)); by repeat split.
Defined.

Lemma connect_falls_back_on_any_error_witness :
  exists c' l,
    connect attempt_500 attempt_ok (new_HttpConnector "http://localhost:3000/mcp" None)
    = (Ok tt, c', l) /\
    connected c' = true /\
    connectionManager c' = Some SseConnectionManager /\
    transport (publicIdentifier c') = "sse".
Proof.
  apply (connect_falls_back_on_any_error attempt_500 attempt_ok
           (new_HttpConnector "http://localhost:3000/mcp" None)
           (StreamableHTTPError (Some 500%Z) "Internal Server Error"));
    by repeat split.
Defined.

Lemma connect_preferSse_only_sse_witness :
  exists r c',
    (forall http, exists l,
       connect http attempt_refused
               (new_HttpConnector "http://localhost:3000/mcp" (Some true))
       = (r, c', l)) /\
    r = Throw (new_Error "connect ECONNREFUSED 127.0.0.1:3000") /\
    c' = new_HttpConnector "http://localhost:3000/mcp" (Some true).
Proof.
  apply (connect_preferSse_only_sse attempt_refused
           (new_HttpConnector "http://localhost:3000/mcp" (Some true)));
    by repeat split.
Defined.

(** A connect, an initialize and a disconnect whose cleanup fails twice. *)
Example lifecycle :
  let c1 := after_ops [OpConnect attempt_ok attempt_ok;
                       OpInitialize (inr (Some [Build_Tool "read" "reads"]))]
                      (new_HttpConnector "http://localhost:3000/mcp/" None) in
  let c2 := after_ops [OpDisconnect attempt_dirty] c1 in
  tools c1 = Ok [Build_Tool "read" "reads"] /\
  transport (publicIdentifier c1) = "streamable-http" /\
  tools c2 = Throw (new_Error "MCP client is not initialized; call initialize() first") /\
  transport (publicIdentifier c2) = "streamable-http" /\
  url (publicIdentifier c2) = "http://localhost:3000/mcp".
Proof. vm_compute. by repeat split. Qed.

End HttpOpsFacts.

(* ===================================================================== *)
(** ** WebSocketConnector: replies, and disconnect() on an open socket     *)
(* ===================================================================== *)

Module WSMoreFacts.
Import Js WS WSLife WSFacts.

Section Dictionary.
Context {V : Type}.
Implicit Types (o : list (string * V)).

Lemma obj_get_delete o k k' :
  obj_get (obj_delete k o) k' = if bool_decide (k' = k) then None else obj_get o k'.
Proof.
  unfold obj_delete. induction o as [|[k0 v0] o IH]; simpl.
  - by case_bool_decide.
  - destruct (decide (k0 = k)) as [->|Hne].
    + rewrite filter_cons_False by (simpl; auto). rewrite IH.
      case_bool_decide as E1; [done|].
      simpl. by rewrite bool_decide_eq_false_2 by congruence.
    + rewrite filter_cons_True by done. simpl. rewrite IH.
      case_bool_decide as E1; [|done].
      subst. by rewrite bool_decide_eq_false_2.
Qed.
End Dictionary.

(** X21.  A reply is routed by its id: it settles the request that was sent
    with that id, with the result if the frame has one (also when it has an
    error as well), else with the error, removes that entry from the pending
    map, and touches no other request and no other entry. *)
Theorem reply_settles_its_request c id k result error :
  pending_unsettled c -> listening c = true ->
  obj_get (pending c) id = Some k ->
  let c' := onMessage (reply id result error) c in
  promise c' k
  = Some (match result, error with
          | Some v, _ => Resolved v
          | None, Some e => Rejected e
          | None, None => Pending
          end) /\
  obj_get (pending c') id = None /\
  (forall k', k' <> k -> promise c' k' = promise c k') /\
  (forall id', id' <> id -> obj_get (pending c') id' = obj_get (pending c) id').
Proof.
  intros Hinv Hl Hget. unfold onMessage, reply, promise. rewrite Hl. simpl.
  rewrite Hget. simpl.
  pose proof (Hinv _ _ (obj_get_elem_of _ _ _ Hget)) as Hk.
  split.
  { destruct result, error; by rewrite ?(settle_pending _ _ _ id), ?Hk. }
  split; [by rewrite obj_get_delete, bool_decide_eq_true_2|].
  split.
  - intros k' Hne. destruct result, error; by rewrite ?settle_other.
  - intros id' Hne. by rewrite obj_get_delete, bool_decide_eq_false_2.
Qed.

Lemma abandoned_step k ev c :
  abandoned k c -> is_send_failed k ev = false -> abandoned k (WS.step ev c).
Proof.
  unfold abandoned, promise. intros [Hp Hnot] Hev.
  destruct (requests c !! k) as [[idk stk]|] eqn:Hk; [|done].
  simpl in Hp. injection Hp as ->.
  destruct ev as [id|k' err|frame|]; simpl in *.
  - split.
    + by rewrite (lookup_app_l_Some _ _ _ _ Hk).
    + intros id' Hin. apply elem_of_obj_set in Hin as [[_ Heq]|Hin].
      * apply lookup_lt_Some in Hk. lia.
      * by apply (Hnot id').
  - apply bool_decide_eq_false_1 in Hev.
    unfold sendFailed. destruct (requests c !! k') as [[id' st']|]; simpl.
    + split; [by rewrite settle_other, Hk by done|].
      intros id'' Hin. apply elem_of_obj_delete in Hin as [Hin _].
      by apply (Hnot id'').
    + split; [by rewrite Hk | done].
  - unfold onMessage. destruct (listening c); simpl; [|by rewrite Hk].
    destruct frame as [data|]; [|by rewrite Hk].
    destruct (msg_id data) as [id|]; [|by rewrite Hk].
    destruct (obj_get (pending c) id) as [k'|] eqn:Hget; [|by rewrite Hk].
    simpl.
    assert (k <> k') as Hne.
    { intros ->. by apply (Hnot id), obj_get_elem_of. }
    split.
    + destruct (msg_result data), (msg_error data);
        by rewrite ?settle_other, Hk by done.
    + intros id' Hin. apply elem_of_obj_delete in Hin as [Hin _].
      by apply (Hnot id').
  - split; [|intros id' Hin; by apply elem_of_nil in Hin].
    assert (forall (l : list nat) reqs,
              k ∉ l -> reqs !! k = Some (idk, Pending) ->
              fold_left (fun reqs k => settle k (Rejected (new_Error "WebSocket closed")) reqs)
                        l reqs !! k = Some (idk, Pending)) as Hfold.
    { induction l as [|k0 l IH]; intros reqs Hnin Hr; simpl; [done|].
      apply IH.
      - intros Hin. apply Hnin. apply elem_of_cons; by right.
      - rewrite settle_other; [done|]. intros ->. apply Hnin. apply elem_of_cons; by left. }
    rewrite Hfold; [done | | done].
    intros Hin. apply list_elem_of_fmap in Hin as [[id' k'] [Heq Hin]].
    simpl in Heq. subst k'. by apply (Hnot id').
Qed.

Lemma abandoned_run k evs : forall c,
  abandoned k c -> forallb (fun ev => negb (is_send_failed k ev)) evs = true ->
  abandoned k (WS.run evs c).
Proof.
  induction evs as [|ev evs IH]; intros c H Hevs; simpl in *; [done|].
  apply andb_true_iff in Hevs as [Hev Hevs].
  apply IH; [|done]. apply abandoned_step; [done|].
  by destruct (is_send_failed k ev).
Qed.

(** X22.  A reply that carries neither a result nor an error removes the
    entry of its request from the pending map without settling the promise:
    the caller is left waiting for ever.  No later frame can settle the
    request, and the close event, which rejects what the pending map lists,
    passes it by; only an error reported by the send callback of that very
    request would still reject it. *)
Theorem reply_without_result_or_error_hangs c id k evs :
  pending_unsettled c -> listening c = true ->
  obj_get (pending c) id = Some k ->
  forallb (fun ev => negb (is_send_failed k ev)) evs = true ->
  promise (WS.run (Frame (reply id None None) :: evs) c) k = Some Pending.
Proof.
  intros Hinv Hl Hget Hevs. simpl.
  apply (abandoned_run k evs); [|done].
  pose proof (Hinv _ _ (obj_get_elem_of _ _ _ Hget)) as Hk.
  unfold abandoned, promise, onMessage, reply. rewrite Hl. simpl. rewrite Hget. simpl.
  split; [by rewrite Hk|].
  intros id' Hin. apply elem_of_obj_delete in Hin as [Hin Hne].
  apply Hinv in Hin. congruence.
Qed.

(** *** disconnect() *)

Lemma open_and_waiting_step ev c :
  open_and_waiting c -> is_close ev = false -> open_and_waiting (WSLife.step ev c).
Proof.
  unfold open_and_waiting.
  intros (Hc & Hr & Hw & Hm & Hd & Hs & Hall) Hev.
  destruct ev as [[id|k err|frame|]| |i]; simpl in *; try done.
  - rewrite Hw. simpl. by repeat split.
  - unfold sendFailed. destruct (requests (core c) !! k) as [[]|]; by repeat split.
  - unfold onMessage. destruct (listening (core c)); simpl; [|by repeat split].
    destruct frame as [data|]; [|by repeat split].
    destruct (msg_id data); [|by repeat split].
    destruct (obj_get (pending (core c)) s); by repeat split.
  - unfold call_disconnect. rewrite Hc, Hr, Hd. simpl.
    split; [done|]. split; [done|]. split; [done|]. split; [done|].
    split; [done|]. split; [done|].
    apply Forall_app; split; [done | by constructor].
  - destruct (disconnects c !! i) as [w|] eqn:E; [|by repeat split].
    pose proof Hall as Hall'. rewrite Forall_lookup in Hall'.
    rewrite (Hall' _ _ E). simpl. by repeat split.
Qed.

Lemma open_and_waiting_run evs : forall c,
  open_and_waiting c -> forallb (fun ev => negb (is_close ev)) evs = true ->
  open_and_waiting (WSLife.run evs c).
Proof.
  induction evs as [|ev evs IH]; intros c H Hevs; simpl in *; [done|].
  apply andb_true_iff in Hevs as [Hev Hevs].
  apply IH; [|done]. apply open_and_waiting_step; [done|].
  by destruct (is_close ev).
Qed.

Lemma open_and_waiting_connected : open_and_waiting WSLife.connected_connector.
Proof. unfold open_and_waiting. simpl. by repeat split. Qed.

(** X23.  [disconnect()] does not close the socket itself:
    [cleanupResources()] first awaits the receive loop, which ends only with
    the close event, and calls [connectionManager.stop()] after it.  So on a
    connected connector, as long as the other side does not close the
    socket, no [disconnect()] call returns, [connectionManager.stop()] is
    never called, and the connector stays connected, whatever requests,
    frames and further calls come in. *)
Theorem disconnect_waits_for_close evs :
  forallb (fun ev => negb (is_close ev)) evs = true ->
  let c := WSLife.run evs WSLife.connected_connector in
  (forall i w, disconnects c !! i = Some w -> w = AwaitReceiver) /\
  stopCalls c = 0 /\ connected c = true /\ ws c = true.
Proof.
  intros Hevs c.
  assert (open_and_waiting c) as (Hc & Hr & Hw & Hm & Hd & Hs & Hall)
    by (apply open_and_waiting_run; [apply open_and_waiting_connected | done]).
  split; [|done]. intros i w Hi. rewrite Forall_lookup in Hall. by apply (Hall i).
Qed.

(** *** The close event while disconnect() calls wait *)

Lemma resume_receiver_wait_fields c i :
  closed_and_held c ->
  let c' := resume_receiver_wait c i in
  closed_and_held c' /\ requests (core c') = requests (core c) /\
  (forall j, disconnects c' !! j
             = if bool_decide (j = i /\ disconnects c !! j = Some AwaitReceiver)
               then Some AwaitStop else disconnects c !! j).
Proof.
  unfold closed_and_held, resume_receiver_wait, cleanup_after_receiver.
  intros (Hc & Hw & Hm & Hp). cbv zeta.
  destruct (disconnects c !! i) as [w|] eqn:E.
  - destruct w; simpl; rewrite ?Hm; simpl.
    + unfold rejectAll. rewrite Hp. simpl.
      split; [done|]. split; [done|].
      intros j. case_bool_decide as Hj.
      * destruct Hj as [-> _]. apply list_lookup_insert_eq. by eapply lookup_lt_Some.
      * rewrite list_lookup_insert_ne; [done|]. intros ->. apply Hj. by split.
    + split; [done|]. split; [done|].
      intros j. rewrite bool_decide_eq_false_2; [done|]. intros [-> H]. congruence.
    + split; [done|]. split; [done|].
      intros j. rewrite bool_decide_eq_false_2; [done|]. intros [-> H]. congruence.
  - split; [done|]. split; [done|].
    intros j. rewrite bool_decide_eq_false_2; [done|]. intros [-> H]. congruence.
Qed.

Lemma resume_receiver_fold (l : list nat) : forall c,
  closed_and_held c ->
  let c' := fold_left resume_receiver_wait l c in
  closed_and_held c' /\ requests (core c') = requests (core c) /\
  (forall j, disconnects c !! j = Some AwaitStop -> disconnects c' !! j = Some AwaitStop) /\
  (forall j, j ∈ l -> disconnects c !! j = Some AwaitReceiver ->
             disconnects c' !! j = Some AwaitStop).
Proof.
  induction l as [|i l IH]; intros c H; cbv zeta; simpl.
  - split; [done|]. split; [done|]. split; [done|].
    intros j Hj. by apply elem_of_nil in Hj.
  - destruct (resume_receiver_wait_fields c i H) as (H1 & Hr1 & Hd1).
    destruct (IH _ H1) as (H2 & Hr2 & Hs2 & Hd2).
    split; [done|]. split; [congruence|]. split.
    + intros j Hj. apply Hs2. rewrite Hd1.
      rewrite bool_decide_eq_false_2; [done|]. intros [_ ?]. congruence.
    + intros j Hin Hj. apply elem_of_cons in Hin as [->|Hin].
      * apply Hs2. rewrite Hd1. by rewrite bool_decide_eq_true_2.
      * destruct (decide (j = i)) as [->|Hne].
        -- apply Hs2. rewrite Hd1. by rewrite bool_decide_eq_true_2.
        -- apply Hd2; [done|]. rewrite Hd1.
           rewrite bool_decide_eq_false_2; [done|]. by intros [? _].
Qed.

Lemma core_unsettled_step ev c :
  open_and_waiting c -> pending_unsettled (core c) -> is_close ev = false ->
  pending_unsettled (core (WSLife.step ev c)).
Proof.
  intros (Hc & Hr & Hw & Hm & Hd & Hs & Hall) Hinv Hev.
  destruct ev as [[id|k err|frame|]| |i]; simpl in *; try done.
  - rewrite Hw. simpl. by apply (pending_unsettled_step (Send id)).
  - by apply (pending_unsettled_step (SendFailed k err)).
  - by apply (pending_unsettled_step (Frame frame)).
  - unfold call_disconnect. by rewrite Hc, Hr, Hd.
  - destruct (disconnects c !! i) as [[]|]; done.
Qed.

Lemma core_unsettled_run evs : forall c,
  open_and_waiting c -> pending_unsettled (core c) ->
  forallb (fun ev => negb (is_close ev)) evs = true ->
  pending_unsettled (core (WSLife.run evs c)).
Proof.
  induction evs as [|ev evs IH]; intros c H Hinv Hevs; simpl in *; [done|].
  apply andb_true_iff in Hevs as [Hev Hevs].
  assert (is_close ev = false) as Hev' by (by destruct (is_close ev)).
  apply IH; [by apply open_and_waiting_step | by apply core_unsettled_step | done].
Qed.

(** X24.  Once the close event fires, a waiting [disconnect()] goes on: the
    requests that were pending are rejected with "WebSocket closed" (the
    [rejectAll] with "WebSocket disconnected" that follows finds the map
    empty), [connectionManager.stop()] is called, and when it returns the
    call returns with the connector disconnected. *)
Theorem disconnect_returns_after_close evs :
  forallb (fun ev => negb (is_close ev)) evs = true ->
  let c := WSLife.run (evs ++ [CallDisconnect]) WSLife.connected_connector in
  let i := length (disconnects c) - 1 in
  let c1 := WSLife.step (Socket Close) c in
  let c2 := WSLife.step (StopSettled i) c1 in
  disconnects c !! i = Some AwaitReceiver /\
  disconnects c1 !! i = Some AwaitStop /\
  pending (core c1) = [] /\
  (forall id k, (id, k) ∈ pending (core c) ->
     promise (core c1) k = Some (Rejected (new_Error "WebSocket closed"))) /\
  disconnects c2 !! i = Some DisconnectReturned /\
  connected c2 = false /\ ws c2 = false.
Proof.
  intros Hevs. cbv zeta. unfold WSLife.run. rewrite fold_left_app. cbn [fold_left].
  fold (WSLife.run evs WSLife.connected_connector).
  set (c0 := WSLife.run evs WSLife.connected_connector).
  assert (open_and_waiting c0) as H0
    by (apply open_and_waiting_run; [apply open_and_waiting_connected | done]).
  assert (pending_unsettled (core c0)) as Hinv.
  { apply core_unsettled_run; [apply open_and_waiting_connected | | done].
    intros ? ? H. by apply elem_of_nil in H. }
  destruct H0 as (Hc & Hr & Hw & Hm & Hd & Hs & Hall).
  assert (WSLife.step CallDisconnect c0
          = mkLife (core c0) true true true true (disconnects c0 ++ [AwaitReceiver]) 0)
    as ->.
  { simpl. unfold call_disconnect. rewrite Hc, Hr, Hd. simpl. congruence. }
  cbn [disconnects core]. rewrite length_app. simpl length.
  replace (length (disconnects c0) + 1 - 1) with (length (disconnects c0)) by lia.
  assert ((disconnects c0 ++ [AwaitReceiver]) !! length (disconnects c0)
          = Some AwaitReceiver) as Hi by (by rewrite list_lookup_middle).
  split; [done|].
  set (cA := mkLife (WS.step Close (core c0)) true true true true
                    (disconnects c0 ++ [AwaitReceiver]) 0).
  assert (closed_and_held cA) as HA by (by repeat split).
  change (WSLife.step (Socket Close) _)
    with (fold_left resume_receiver_wait (seq 0 (length (disconnects cA))) cA).
  destruct (resume_receiver_fold (seq 0 (length (disconnects cA))) cA HA)
    as ((Hc1 & Hw1 & Hm1 & Hp1) & Hr1 & _ & Hd1).
  set (c1 := fold_left resume_receiver_wait _ cA) in *.
  assert (disconnects c1 !! length (disconnects c0) = Some AwaitStop) as Hi1.
  { apply Hd1; [|done]. apply elem_of_seq. simpl. rewrite length_app. simpl. lia. }
  split; [done|]. split; [done|]. split.
  { intros id k Hin. unfold promise. rewrite Hr1. simpl.
    unfold rejectAll. simpl.
    rewrite (reject_each _ _ _ k id (Hinv _ _ Hin)); [done|].
    apply list_elem_of_fmap. by exists (id, k). }
  simpl. rewrite Hi1. simpl. split; [|done].
  apply list_lookup_insert_eq. by eapply lookup_lt_Some.
Qed.

Lemma reply_settles_its_request_witness :
  let c := WS.run [Send "id-1"; Send "id-2"] WS.connected_connector in
  let c' := onMessage (reply "id-2" (Some "{}") (Some (new_Error "ignored"))) c in
  promise c' 1 = Some (Resolved "{}") /\ promise c' 0 = promise c 0.
Proof.
  assert (pending_unsettled (WS.run [Send "id-1"; Send "id-2"] WS.connected_connector))
    as H.
  { apply pending_unsettled_run. intros ? ? Hin. by apply elem_of_nil in Hin. }
  pose proof (reply_settles_its_request _ "id-2" 1 (Some "{}")
                (Some (new_Error "ignored")) H eq_refl eq_refl) as (H1 & _ & H2 & _).
  split; [exact H1 | by apply H2].
Defined.

Lemma reply_without_result_or_error_hangs_witness :
  promise (WS.run [Frame (reply "id-1" None None);
                   Frame (reply "id-1" (Some "late") None); Close]
                  (WS.run [Send "id-1"] WS.connected_connector)) 0
  = Some Pending.
Proof.
  assert (pending_unsettled (WS.run [Send "id-1"] WS.connected_connector)) as H.
  { apply pending_unsettled_run. intros ? ? Hin. by apply elem_of_nil in Hin. }
  apply (reply_without_result_or_error_hangs _ "id-1" 0
           [Frame (reply "id-1" (Some "late") None); Close] H eq_refl eq_refl eq_refl).
Defined.

Lemma disconnect_waits_for_close_witness :
  let c := WSLife.run [Socket (Send "id-1"); CallDisconnect;
                       Socket (Frame (reply "id-1" (Some "{}") None)); CallDisconnect]
                      WSLife.connected_connector in
  (forall i w, disconnects c !! i = Some w -> w = AwaitReceiver) /\
  stopCalls c = 0 /\ connected c = true /\ ws c = true.
Proof.
  apply (disconnect_waits_for_close
           [Socket (Send "id-1"); CallDisconnect;
            Socket (Frame (reply "id-1" (Some "{}") None)); CallDisconnect]).
  reflexivity.
Defined.

Lemma disconnect_returns_after_close_witness :
  let c := WSLife.run ([Socket (Send "id-1")] ++ [CallDisconnect])
                      WSLife.connected_connector in
  let c2 := WSLife.step (StopSettled 0) (WSLife.step (Socket Close) c) in
  disconnects c2 !! 0 = Some DisconnectReturned /\ connected c2 = false.
Proof.
  pose proof (disconnect_returns_after_close [Socket (Send "id-1")] eq_refl)
    as (_ & _ & _ & _ & H1 & H2 & _).
  split; [exact H1 | exact H2].
Defined.

End WSMoreFacts.

(* ===================================================================== *)
(** ** ServerManager: the error paths of the management tools              *)
(* ===================================================================== *)

Module ManagerMoreFacts.
Import Js Eff Eff.Notations Config Client ClientOps Manager ManagerNotions ManagerFacts.

Lemma createConnectorFromConfig_settles cfg : createConnectorFromConfig cfg <> Hangs.
Proof.
  unfold createConnectorFromConfig, new_HttpConnector.
  repeat (match goal with |- context [if ?b then _ else _] => destruct b end);
    try done.
  all: by repeat match goal with |- context [match ?x with _ => _ end] => destruct x end.
Qed.

Lemma createSession_settles io name ai c : (createSession io name ai c).1.1 <> Hangs.
Proof.
  destruct (ClientOpsFacts.createSession_run io name ai c) as [l ->].
  unfold session_outcome.
  destruct (config_of_lookup _) as [cfg|]; [|done].
  pose proof (createConnectorFromConfig_settles cfg) as H.
  destruct (createConnectorFromConfig cfg) as [k|e|]; [|done|done].
  destruct ai; [|done]. by destruct (initialize_outcome _ _ _).
Qed.



(** The run of add-server-from-config, along the outcome of the session
    creation and of the adapter. *)
Lemma add_server_run_cases w serverName serverConfig m :
  let c1 := addServer serverName serverConfig (client m) in
  exists m' l,
    AddMCPServerFromConfigTool_call w serverName serverConfig m
    = (match session_outcome (remote w) (servers_or_empty c1) serverName true with
       | Throw e => add_failed_result serverName e
       | Hangs => Hangs
       | Ok s =>
           match createToolsFromConnectors w (connector s) with
           | Throw e => add_failed_result serverName e
           | Hangs => Hangs
           | Ok ts =>
               Ok (("Server '" +:+ serverName +:+ "' added to the client.")
                     +:+ " Session created and connected. '" +:+ serverName
                     +:+ "' is now the active server with " +:+ count (length ts)
                     +:+ " tools available."
                     +:+ nl +:+ nl +:+ join nl (tool_name <$> ts))
           end
       end, m', l) /\
    (forall e,
       session_outcome (remote w) (servers_or_empty c1) serverName true = Throw e ->
       m' = set_client c1 m).
Proof.
  cbv zeta. unfold add_failed_result, add_failed_reply. run_mgr.
  destruct (ClientOpsFacts.createSession_run (remote w) serverName true
              (addServer serverName serverConfig (client m))) as [l0 Hrun].
  rewrite Hrun.
  destruct (session_outcome _ _ _ _) as [s|e|]; simpl.
  - destruct (createToolsFromConnectors w (connector s)) as [ts|e|]; simpl.
    + by eexists _, _.
    + destruct (is_nullish e); simpl; by eexists _, _.
    + by eexists _, _.
  - destruct (is_nullish e); simpl; eexists _, _; (split; [reflexivity|done]).
  - by eexists _, _.
Qed.


(** add-server-from-config when the adapter rejects with [null]. *)
Example add_server_null_rejection :
  (AddMCPServerFromConfigTool_call null_rejecting_world "y" echo_config fresh_manager).1.1
  = Throw (Error "TypeError" "Cannot read properties of null (reading 'message')").
Proof. reflexivity. Qed.

(** X26.  A failed refresh still switches the active server.  When
    connect-to-server is called for a server that has a session and a cache
    entry and the adapter fails to fetch its tools, the reply says "Failed to
    connect", but [activeServer] was assigned before the fetch: the server
    is the active one from then on, and the [tools] getter exposes the old
    cache entry. *)
Theorem failed_refresh_still_activates w serverName m s ts e :
  serverName ∈ getServerNames (client m) ->
  activeServer m <> Some serverName ->
  serverName <> EmptyString ->
  getSession serverName (client m) = Some s ->
  serverTools m !! serverName = Some ts ->
  createToolsFromConnectors w (connector s) = Throw e ->
  exists m' l,
    ConnectMCPServerTool_call w serverName m
    = (Ok (connect_failed_reply serverName e), m', l) /\
    activeServer m' = Some serverName /\
    serverTools m' = serverTools m /\
    client m' = client m /\
    tools m' = managementTools m ++ ts.
Proof.
  intros Hin Hact Hne Hs Hts He. unfold connect_failed_reply. run_mgr.
  rewrite (bool_decide_eq_true_2 _ Hin). simpl.
  rewrite (bool_decide_eq_false_2 _ Hact). simpl.
  rewrite Hs. simpl. rewrite Hts. simpl. rewrite He. simpl.
  eexists _, _. split; [reflexivity|]. simpl.
  split; [done|]. split; [done|]. split; [done|].
  unfold tools, active_truthy, managementTools. simpl. rewrite Hts.
  by destruct serverName.
Qed.

(** X27.  add-server-from-config does not undo the configuration change
    when the connection fails: if the session for the new entry cannot be
    created, the tool answers "Failed to add or connect" (or, when the
    rejection value is [null] or [undefined], throws the [TypeError] of
    reading [e.message]), yet the server stays in the client's
    configuration and is listed from then on; the active server, the tool
    cache and the sessions are as before.  (A server named [__proto__] is
    set aside: the assignment [servers['__proto__'] = ...] creates no
    property.) *)
Theorem add_server_failure_keeps_config w serverName serverConfig m e :
  serverName <> "__proto__" ->
  session_outcome (remote w)
                  (servers_or_empty (addServer serverName serverConfig (client m)))
                  serverName true = Throw e ->
  exists m' l,
    AddMCPServerFromConfigTool_call w serverName serverConfig m
    = (add_failed_result serverName e, m', l) /\
    getServerConfig serverName (client m') = Own serverConfig /\
    (serverName ∈ getServerNames (client m')) /\
    sessions (client m') = sessions (client m) /\
    activeServer m' = activeServer m /\
    serverTools m' = serverTools m.
Proof.
  intros _ Hout.
  destruct (add_server_run_cases w serverName serverConfig m) as (m' & l & Hrun & Hm').
  cbv zeta in Hrun, Hm'. rewrite Hout in Hrun. specialize (Hm' e Hout). subst m'.
  eexists _, _. split; [exact Hrun|]. simpl.
  assert (obj_get (servers_or_empty (addServer serverName serverConfig (client m)))
                  serverName = Some serverConfig) as Hcfg.
  { unfold addServer. simpl. apply ClientOpsFacts.obj_get_set_eq. }
  split.
  { unfold getServerConfig, addServer. simpl. apply ClientOpsFacts.js_get_set_eq. }
  split; [|done]. by eapply ClientFacts.obj_get_names.
Qed.

Lemma invoke_all_keeps_active_is_cached calls : forall m,
  forallb (fun i => negb (is_connect i)) calls = true ->
  active_is_cached m -> active_is_cached (invoke_all calls m).
Proof.
  induction calls as [|i calls IH]; intros m Hall Hinv; simpl in *; [done|].
  apply andb_true_iff in Hall as [Hi Hall].
  apply IH; [done|].
  apply invoke_keeps_active_is_cached; [|done]. by destruct i.
Qed.

(** X28.  Without connect-to-server the data-model invariant holds: after
    any sequence of add-server-from-config, disconnect, list, get-active and
    prefetch invocations on a new manager, the active server, if set, has an
    entry in [serverTools], so the [tools] getter exposes the tools of the
    active server. *)
Theorem active_is_cached_without_connect c mt calls :
  forallb (fun i => negb (is_connect i)) calls = true ->
  let m := invoke_all calls (new_ServerManager c mt) in
  active_is_cached m /\
  (forall s, activeServer m = Some s -> s <> EmptyString ->
     exists ts, serverTools m !! s = Some ts /\ tools m = managementTools m ++ ts).
Proof.
  intros Hall m.
  assert (active_is_cached m) as Hinv
    by (apply invoke_all_keeps_active_is_cached; [done | apply active_is_cached_new]).
  split; [done|].
  intros s Hs Hne. destruct (Hinv s Hs) as [ts Hts]. exists ts. split; [done|].
  unfold tools, active_truthy, managementTools. rewrite Hs. simpl. rewrite Hts.
  by destruct s.
Qed.

Lemma failed_refresh_still_activates_witness :
  exists m' l,
    ConnectMCPServerTool_call broken_adapter_world "x" prefetched_manager
    = (Ok (connect_failed_reply "x" (new_Error "tools/list timed out")), m', l) /\
    activeServer m' = Some "x" /\
    serverTools m' = serverTools prefetched_manager /\
    client m' = client prefetched_manager /\
    tools m' = managementTools prefetched_manager ++ [tool_read; tool_write].
Proof.
  apply (failed_refresh_still_activates broken_adapter_world "x" prefetched_manager
           (new_MCPSession (StdioConnector (JStr "echo") (JArr ["hi"]) JUndefined))
           [tool_read; tool_write] (new_Error "tools/list timed out")).
  - apply list_elem_of_singleton. reflexivity.
  - discriminate.
  - discriminate.
  - reflexivity.
  - reflexivity.
  - reflexivity.
Defined.

Lemma add_server_failure_keeps_config_witness :
  exists m' l,
    AddMCPServerFromConfigTool_call two_tool_world "y" empty_config fresh_manager
    = (Ok (add_failed_reply "y"
             (new_Error "Cannot determine connector type from config")), m', l) /\
    getServerConfig "y" (client m') = Own empty_config /\
    ("y" ∈ getServerNames (client m')) /\
    sessions (client m') = sessions (client fresh_manager) /\
    activeServer m' = activeServer fresh_manager /\
    serverTools m' = serverTools fresh_manager.
Proof.
  apply (add_server_failure_keeps_config two_tool_world "y" empty_config fresh_manager
           (new_Error "Cannot determine connector type from config")).
  - discriminate.
  - reflexivity.
Defined.

(** The same with a session whose [initialize()] rejects with [undefined]:
    the tool throws, and the server is configured all the same. *)
Example add_server_undefined_rejection :
  let r := AddMCPServerFromConfigTool_call undefined_rejecting_world "y" echo_config
             fresh_manager in
  r.1.1 = Throw (Error "TypeError"
                       "Cannot read properties of undefined (reading 'message')") /\
  getServerNames (client r.1.2) = ["x"; "y"] /\
  r.2 = [(LDebug, "Connecting to new server 'y' and discovering tools.")].
Proof. by vm_compute. Qed.

Lemma active_is_cached_without_connect_witness :
  let m := invoke_all [AddServerFromConfig two_tool_world "y" echo_config; Disconnect;
                       Prefetch two_tool_world;
                       AddServerFromConfig two_tool_world "z" echo_config]
                      (new_ServerManager echo_client None) in
  active_is_cached m /\
  (forall s, activeServer m = Some s -> s <> EmptyString ->
     exists ts, serverTools m !! s = Some ts /\ tools m = managementTools m ++ ts).
Proof.
  apply (active_is_cached_without_connect echo_client None
           [AddServerFromConfig two_tool_world "y" echo_config; Disconnect;
            Prefetch two_tool_world;
            AddServerFromConfig two_tool_world "z" echo_config]).
  reflexivity.
Defined.

End ManagerMoreFacts.

(* ===================================================================== *)
(** ** BaseAdapter: loading the tools of a connector                       *)
(* ===================================================================== *)

Module AdapterFacts.
Import Js Eff Eff.Notations Http HttpOps Adapter.

Ltac run_adapter :=
  unfold loadToolsForConnector, on_connector, ensureConnectorInitialized,
         checkConnectorInitialized, zoom, tools,
         try_catch, bind, gets, get, modify, log, ret, throw;
  simpl.

Lemma omap_convertTool a ts : omap (convertTool a) ts = allowed a ts.
Proof.
  unfold allowed. induction ts as [|[n d] ts IH]; [done|].
  csimpl. unfold convertTool at 1. simpl.
  destruct (decide (n ∈ disallowedTools a)) as [Hin|Hnin].
  - rewrite bool_decide_eq_true_2 by done. csimpl.
    rewrite filter_cons_False by (simpl; auto). exact IH.
  - rewrite bool_decide_eq_false_2 by done. csimpl.
    rewrite filter_cons_True by done. by rewrite IH.
Qed.

(** X29.  The adapter never initializes a connector that was not
    initialized: [checkConnectorInitialized] reads the [tools] getter, which
    throws while no tools are cached, outside the [try] of
    [ensureConnectorInitialized].  So for such a connector
    [loadToolsForConnector] throws the getter's error, [initialize()] is not
    called (the outcome does not depend on how it would end), and nothing is
    cached. *)
Theorem load_uninitialized_connector_throws k a c :
  connectorToolMap a !! k = None ->
  toolsCache c = None ->
  forall listTools,
    loadToolsForConnector k listTools (a, c) = (Throw not_initialized_error, (a, c), []).
Proof.
  intros Hk Hc lt. run_adapter. rewrite Hk. simpl. by rewrite Hc.
Qed.

(** X30.  For a connector whose cache holds at least one tool,
    [loadToolsForConnector] returns the tools whose names are not
    disallowed, in the order of the server's list, without calling
    [initialize()], and records them for the connector.  From then on it
    answers from that record: a later call returns the same list whatever
    the connector has cached by then, also after a disconnect. *)
Theorem load_filters_and_caches k a c ts listTools :
  connectorToolMap a !! k = None ->
  toolsCache c = Some ts -> ts <> [] ->
  exists a' l,
    loadToolsForConnector k listTools (a, c) = (Ok (allowed a ts), (a', c), l) /\
    Forall (fun t => tool_name t ∉ disallowedTools a) (allowed a ts) /\
    disallowedTools a' = disallowedTools a /\
    (forall c' listTools', exists l',
       loadToolsForConnector k listTools' (a', c') = (Ok (allowed a ts), (a', c'), l')).
Proof.
  intros Hk Hc Hne.
  assert ((length ts =? 0)%nat = false) as Hlen by (by destruct ts).
  run_adapter. rewrite Hk. simpl. rewrite Hc. simpl. rewrite Hlen. simpl.
  rewrite Hc. simpl. rewrite omap_convertTool.
  eexists _, _. split; [reflexivity|].
  split; [|split; [done|]].
  - apply Forall_forall. intros x Hx. unfold allowed in Hx.
    by apply list_elem_of_filter in Hx as [Hx _].
  - intros c' lt'. run_adapter. rewrite lookup_insert_eq. simpl. by eexists.
Qed.

Lemma load_uninitialized_connector_throws_witness :
  loadToolsForConnector 0 (inr (Some [read_tool]))
    (new_BaseAdapter None, connected_connector)
  = (Throw not_initialized_error, (new_BaseAdapter None, connected_connector), []).
Proof.
  apply (load_uninitialized_connector_throws 0 (new_BaseAdapter None) connected_connector);
    reflexivity.
Defined.

Lemma load_filters_and_caches_witness :
  exists a' l,
    loadToolsForConnector 0 (inl (new_Error "unused"))
      (new_BaseAdapter (Some ["write"]), initialized_connector)
    = (Ok [read_tool], (a', initialized_connector), l) /\
    Forall (fun t => tool_name t ∉ ["write"]) [read_tool] /\
    disallowedTools a' = ["write"] /\
    (forall c' listTools', exists l',
       loadToolsForConnector 0 listTools' (a', c') = (Ok [read_tool], (a', c'), l')).
Proof.
  apply (load_filters_and_caches 0 (new_BaseAdapter (Some ["write"]))
           initialized_connector [read_tool; write_tool] (inl (new_Error "unused")));
    [reflexivity | reflexivity | discriminate].
Defined.

End AdapterFacts.

(* ===================================================================== *)
(** ** closeSession() on a WebSocket session whose socket stays open       *)
(* ===================================================================== *)

Module CloseSessionFacts.
Import Js Eff Config Client CloseSession.

Example ws_session_client_reached :
  (createSession (ws_remote []) "ws" true ws_snake_client).1
  = (Ok ws_session, ws_session_client).
Proof. reflexivity. Qed.


(** Once the other side closes the socket and [connectionManager.stop()]
    returns, it is fulfilled. *)
Example ws_disconnect_after_close :
  ws_disconnect_settlement [WSLife.Socket WS.Close; WSLife.StopSettled 0] = Fulfils.
Proof. reflexivity. Qed.



End CloseSessionFacts.
